(** * Invoicing Manager: the invoice aggregate store, numbering, categorization
      and PDF layout of [app.py], embedded in Rocq.

    The Flask views of [app.py] are modelled as programs that run against a
    database connection and may raise; [serve] runs one for a request, from
    the committed database state to the new committed state and the HTTP
    response.  The authenticated user ([current_user.id]) and the route
    arguments are parameters of the views; [routed] is the converter of the
    path that stands in front of a view with an invoice number.

    - Request bodies are the Python values that [request.get_json()] yields.
    - The tables [invoices], [customers] and [items] are lists of rows in
      insertion order, which is also the order in which a SELECT without
      ORDER BY returns them.  The values of the sequences behind the SERIAL
      columns are kept apart from the tables: a rollback does not restore
      them.
    - A connection carries the committed tables and the tables as the open
      transaction sees them; [commit] publishes the latter, [rollback] and
      closing the connection discard them.
    - The PDF is modelled by the sequence of calls made on the [FPDF]
      object, not by the bytes that the library produces from them.
    - Strings are sequences of one-byte characters.

    The Python builtins whose results depend on the interpreter ([float],
    [int] on strings and floats, float arithmetic, the [.2f] format) and the
    adaptation of values to columns done by psycopg2 and PostgreSQL are the
    fields of the class [Runtime].  The general theorems hold for every
    runtime; [RefRuntime] is an executable one, with IEEE binary64 floats on
    [spec_float], used to evaluate concrete requests and to state what the
    [.2f] format writes.

    The listing, the counter route and the requests of the invoice API as a
    whole follow the store; the module [Auth] holds registration and login
    on the table [users], with [str.strip] and the two functions of
    [werkzeug.security] as parameters. *)

From Stdlib Require Import ZArith List String Ascii Bool Lia.
From Stdlib Require Import SpecFloat DecimalString.
From Stdlib Require Import Permutation.
Import ListNotations.

Local Open Scope Z_scope.

(* ================================================================== *)
(** * Python values and exceptions *)
(* ================================================================== *)

(** The value of a parsed JSON document, as [json.loads] builds it.  A
    [JObj] lists the items of the resulting [dict] in insertion order. *)
#[warnings="-register-all"]
Inductive json (F : Type) : Type :=
| JNull
| JBool (b : bool)
| JInt (z : Z)
| JFloat (x : F)
| JStr (s : string)
| JArr (l : list (json F))
| JObj (kv : list (string * json F)).

Arguments JNull {F}.
Arguments JBool {F} b.
Arguments JInt {F} z.
Arguments JFloat {F} x.
Arguments JStr {F} s.
Arguments JArr {F} l.
Arguments JObj {F} kv.

(** Errors reported by the database driver. *)
Inductive pgerror :=
| UniqueViolation      (* a UNIQUE constraint rejects the row *)
| DataError.           (* a parameter cannot be adapted or coerced to its column *)

Inductive pyexc :=
| ValueError
| TypeError
| OverflowError
| AttributeError
| DatabaseError (e : pgerror).

(** Outcome of evaluating a Python expression. *)
Inductive py (A : Type) : Type :=
| Return (a : A)
| Raise (e : pyexc).

Arguments Return {A} a.
Arguments Raise {A} e.

(** What the interpreter and the database driver supply: the type of the
    floats, and the operations on them and on request values.  The class
    gives the operations no laws.  A property that rests on what one of
    them computes, such as the text that [format_2f] writes, is stated of
    the instance [RefRuntime], whose operations are functions on binary
    floats. *)
Class FloatType := { float : Type }.

Class Runtime {FT : FloatType} := {
  float_zero : float;                        (* the literal 0.0 *)
  float_is_zero : float -> bool;             (* x == 0 *)
  float_of_int : Z -> option float;          (* float(n); None: OverflowError *)
  float_of_str : string -> option float;     (* float(s); None: ValueError *)
  int_of_float : float -> py Z;              (* int(x) *)
  int_of_str : string -> option Z;           (* int(s); None: ValueError *)
  float_mul : float -> float -> float;
  float_add : float -> float -> float;
  format_2f : float -> string;               (* f"{x:.2f}" *)
  pg_integer : json float -> option Z;       (* value bound to an INTEGER column *)
  pg_text : json float -> option (option string);   (* ... to a TEXT column *)
  pg_real : float -> option float            (* ... to a REAL column *)
}.

Section Model.
Context {FT : FloatType} {RT : Runtime}.

Definition value : Type := json float.

(** [bool(v)] *)
Definition truthy (v : value) : bool :=
  match v with
  | JNull => false
  | JBool b => b
  | JInt z => negb (z =? 0)
  | JFloat x => negb (float_is_zero x)
  | JStr s => negb (String.eqb s EmptyString)
  | JArr l => match l with [] => false | _ :: _ => true end
  | JObj kv => match kv with [] => false | _ :: _ => true end
  end.

Fixpoint dict_lookup (kv : list (string * value)) (k : string) : option value :=
  match kv with
  | [] => None
  | (k', v) :: rest => if String.eqb k' k then Some v else dict_lookup rest k
  end.

(** [d.get(k, dflt)]; only a dict has the method. *)
Definition py_get (d : value) (k : string) (dflt : value) : py value :=
  match d with
  | JObj kv => Return (match dict_lookup kv k with Some v => v | None => dflt end)
  | _ => Raise AttributeError
  end.

(** [float(v)] *)
Definition py_float (v : value) : py float :=
  match v with
  | JNull => Raise TypeError
  | JBool b =>
      match float_of_int (if b then 1 else 0) with
      | Some x => Return x
      | None => Raise OverflowError
      end
  | JInt z =>
      match float_of_int z with
      | Some x => Return x
      | None => Raise OverflowError
      end
  | JFloat x => Return x
  | JStr s =>
      match float_of_str s with
      | Some x => Return x
      | None => Raise ValueError
      end
  | JArr _ => Raise TypeError
  | JObj _ => Raise TypeError
  end.

(** [int(v)] *)
Definition py_int (v : value) : py Z :=
  match v with
  | JNull => Raise TypeError
  | JBool b => Return (if b then 1 else 0)
  | JInt z => Return z
  | JFloat x => int_of_float x
  | JStr s =>
      match int_of_str s with
      | Some z => Return z
      | None => Raise ValueError
      end
  | JArr _ => Raise TypeError
  | JObj _ => Raise TypeError
  end.

Fixpoint chars (s : string) : list value :=
  match s with
  | EmptyString => []
  | String c rest => JStr (String c EmptyString) :: chars rest
  end.

(** The elements a [for] loop visits: the items of a list, the keys of a
    dict, the characters of a string; other values are not iterable. *)
Definition py_iter (v : value) : py (list value) :=
  match v with
  | JArr l => Return l
  | JObj kv => Return (map (fun p => JStr (fst p)) kv)
  | JStr s => Return (chars s)
  | _ => Raise TypeError
  end.

Definition py_bind {A B : Type} (r : py A) (k : A -> py B) : py B :=
  match r with
  | Return a => k a
  | Raise e => Raise e
  end.

(* ================================================================== *)
(** * The database: tables, sequences and a connection *)
(* ================================================================== *)

(** Rows of the tables that [init_db] creates.  A TEXT column holds a string
    or NULL.  The INTEGER and REAL columns that the handlers fill are never
    given NULL by them and are kept as plain values. *)
Record invoice_row := {
  inv_id : Z;
  invoice_number : Z;
  creation_date : option string;
  company_name : option string;
  company_address : option string;
  company_email : option string;
  total_amount : float;
  user_id : Z
}.

Record customer_row := {
  cust_id : Z;
  invoice_id : Z;
  cust_name : option string;
  cust_address : option string;
  cust_email : option string
}.

Record item_row := {
  item_id : Z;
  customer_id : Z;
  description : option string;
  quantity : Z;
  unit_price : float
}.

Record tables := {
  invoices : list invoice_row;
  customers : list customer_row;
  items : list item_row
}.

(** Last value handed out by the sequence behind each SERIAL column.
    Sequences are not transactional: a rollback does not give values back. *)
Record sequences := {
  invoices_id_seq : Z;
  customers_id_seq : Z;
  items_id_seq : Z
}.

(** What is durably stored between requests. *)
Record database := {
  stored : tables;
  seqs : sequences
}.

(** A connection inside a request: the last committed tables, the tables as
    the open transaction sees them, and the sequences. *)
Record connection := {
  snapshot : tables;
  work : tables;
  conn_seqs : sequences
}.

Definition get_db (st : database) : connection :=
  {| snapshot := stored st; work := stored st; conn_seqs := seqs st |}.

(** [db.close()] in [close_connection]: uncommitted work is discarded. *)
Definition close_connection (c : connection) : database :=
  {| stored := snapshot c; seqs := conn_seqs c |}.

(** Code that runs against the connection and may raise. *)
Definition tx (A : Type) : Type := connection -> py A * connection.

Definition ret {A : Type} (a : A) : tx A := fun c => (Return a, c).

Definition raise {A : Type} (e : pyexc) : tx A := fun c => (Raise e, c).

Definition bind {A B : Type} (m : tx A) (k : A -> tx B) : tx B :=
  fun c =>
    match m c with
    | (Return a, c') => k a c'
    | (Raise e, c') => (Raise e, c')
    end.

Definition lift {A : Type} (r : py A) : tx A := fun c => (r, c).

(** [try: body  except Exception as e: handler] *)
Definition try_except {A : Type} (body : tx A) (handler : pyexc -> tx A) : tx A :=
  fun c =>
    match body c with
    | (Return a, c') => (Return a, c')
    | (Raise e, c') => handler e c'
    end.

Fixpoint for_each {A : Type} (l : list A) (body : A -> tx unit) : tx unit :=
  match l with
  | [] => ret tt
  | x :: rest => bind (body x) (fun _ => for_each rest body)
  end.

Definition commit : tx unit :=
  fun c => (Return tt, {| snapshot := work c; work := work c; conn_seqs := conn_seqs c |}).

Definition rollback : tx unit :=
  fun c => (Return tt, {| snapshot := snapshot c; work := snapshot c; conn_seqs := conn_seqs c |}).

Definition read {A : Type} (q : tables -> A) : tx A :=
  fun c => (Return (q (work c)), c).

Definition write (f : tables -> tables) : tx unit :=
  fun c => (Return tt, {| snapshot := snapshot c; work := f (work c); conn_seqs := conn_seqs c |}).

Notation "x <- m ;; k" := (bind m (fun x => k))
  (at level 61, m at next level, right associativity).
Notation "m ;;; k" := (bind m (fun _ => k))
  (at level 61, right associativity).

(** ** SQL statements *)

(** A parameter that the driver or the server cannot turn into a value of
    the column's type makes the statement fail. *)
Definition adapt {A : Type} (o : option A) : tx A :=
  match o with
  | Some a => ret a
  | None => raise (DatabaseError DataError)
  end.

Definition nextval_invoices : tx Z :=
  fun c =>
    let q := conn_seqs c in
    let n := invoices_id_seq q + 1 in
    (Return n,
     {| snapshot := snapshot c; work := work c;
        conn_seqs := {| invoices_id_seq := n;
                        customers_id_seq := customers_id_seq q;
                        items_id_seq := items_id_seq q |} |}).

Definition nextval_customers : tx Z :=
  fun c =>
    let q := conn_seqs c in
    let n := customers_id_seq q + 1 in
    (Return n,
     {| snapshot := snapshot c; work := work c;
        conn_seqs := {| invoices_id_seq := invoices_id_seq q;
                        customers_id_seq := n;
                        items_id_seq := items_id_seq q |} |}).

Definition nextval_items : tx Z :=
  fun c =>
    let q := conn_seqs c in
    let n := items_id_seq q + 1 in
    (Return n,
     {| snapshot := snapshot c; work := work c;
        conn_seqs := {| invoices_id_seq := invoices_id_seq q;
                        customers_id_seq := customers_id_seq q;
                        items_id_seq := n |} |}).

Definition owned_by (u number : Z) (r : invoice_row) : bool :=
  (invoice_number r =? number) && (user_id r =? u).

Definition max_opt (acc : option Z) (n : Z) : option Z :=
  match acc with
  | None => Some n
  | Some m => Some (Z.max m n)
  end.

(** [SELECT MAX(invoice_number) as mx FROM invoices WHERE user_id=%s]:
    NULL when the user has no invoice. *)
Definition select_max_invoice_number (u : Z) : tx (option Z) :=
  read (fun t =>
    fold_left max_opt
      (map invoice_number (filter (fun r => user_id r =? u) (invoices t))) None).

(** [INSERT INTO invoices (...) VALUES (...) RETURNING id], under
    [UNIQUE(user_id, invoice_number)]. *)
Definition insert_invoice (number cdate cname caddr cemail : value)
    (total : float) (u : Z) : tx Z :=
  n <- adapt (pg_integer number) ;;
  d <- adapt (pg_text cdate) ;;
  cn <- adapt (pg_text cname) ;;
  ca <- adapt (pg_text caddr) ;;
  ce <- adapt (pg_text cemail) ;;
  t <- adapt (pg_real total) ;;
  id <- nextval_invoices ;;
  dup <- read (fun tb => existsb (owned_by u n) (invoices tb)) ;;
  if dup : bool then raise (DatabaseError UniqueViolation)
  else
    write (fun tb =>
      {| invoices := invoices tb ++
           [{| inv_id := id; invoice_number := n; creation_date := d;
               company_name := cn; company_address := ca; company_email := ce;
               total_amount := t; user_id := u |}];
         customers := customers tb;
         items := items tb |}) ;;;
    ret id.

(** [SELECT ... FROM invoices WHERE invoice_number=%s AND user_id=%s] followed
    by [fetchone()]. *)
Definition select_invoice (number u : Z) : tx (option invoice_row) :=
  read (fun tb => find (owned_by u number) (invoices tb)).

(** [UPDATE invoices SET creation_date=%s, ..., total_amount=%s WHERE id=%s] *)
Definition update_invoice (cdate cname caddr cemail : value) (total : float)
    (id : Z) : tx unit :=
  d <- adapt (pg_text cdate) ;;
  cn <- adapt (pg_text cname) ;;
  ca <- adapt (pg_text caddr) ;;
  ce <- adapt (pg_text cemail) ;;
  t <- adapt (pg_real total) ;;
  write (fun tb =>
    {| invoices :=
         map (fun r =>
                if inv_id r =? id then
                  {| inv_id := inv_id r; invoice_number := invoice_number r;
                     creation_date := d; company_name := cn;
                     company_address := ca; company_email := ce;
                     total_amount := t; user_id := user_id r |}
                else r) (invoices tb);
       customers := customers tb;
       items := items tb |}).

(** [SELECT ... FROM customers WHERE invoice_id=%s] *)
Definition select_customers (inv : Z) : tx (list customer_row) :=
  read (fun tb => filter (fun c => invoice_id c =? inv) (customers tb)).

(** [SELECT description, quantity, unit_price FROM items WHERE customer_id=%s] *)
Definition select_items (cid : Z) : tx (list item_row) :=
  read (fun tb => filter (fun i => customer_id i =? cid) (items tb)).

Definition mem (x : Z) (l : list Z) : bool := existsb (Z.eqb x) l.

(** [DELETE FROM items WHERE customer_id=%s] *)
Definition delete_items (cid : Z) : tx unit :=
  write (fun tb =>
    {| invoices := invoices tb;
       customers := customers tb;
       items := filter (fun i => negb (customer_id i =? cid)) (items tb) |}).

(** [DELETE FROM customers WHERE invoice_id=%s]; the items of a deleted
    customer go with it (ON DELETE CASCADE). *)
Definition delete_customers (inv : Z) : tx unit :=
  write (fun tb =>
    let gone := map cust_id (filter (fun c => invoice_id c =? inv) (customers tb)) in
    {| invoices := invoices tb;
       customers := filter (fun c => negb (invoice_id c =? inv)) (customers tb);
       items := filter (fun i => negb (mem (customer_id i) gone)) (items tb) |}).

(** [DELETE FROM invoices WHERE id=%s], cascading to customers and items. *)
Definition delete_invoice_row (id : Z) : tx unit :=
  write (fun tb =>
    let gone := map cust_id (filter (fun c => invoice_id c =? id) (customers tb)) in
    {| invoices := filter (fun r => negb (inv_id r =? id)) (invoices tb);
       customers := filter (fun c => negb (invoice_id c =? id)) (customers tb);
       items := filter (fun i => negb (mem (customer_id i) gone)) (items tb) |}).

(** [INSERT INTO customers (invoice_id, name, address, email) VALUES (...)
    RETURNING id] *)
Definition insert_customer (inv : Z) (name address email : value) : tx Z :=
  n <- adapt (pg_text name) ;;
  a <- adapt (pg_text address) ;;
  e <- adapt (pg_text email) ;;
  id <- nextval_customers ;;
  write (fun tb =>
    {| invoices := invoices tb;
       customers := customers tb ++
         [{| cust_id := id; invoice_id := inv; cust_name := n;
             cust_address := a; cust_email := e |}];
       items := items tb |}) ;;;
  ret id.

(** [INSERT INTO items (customer_id, description, quantity, unit_price)
    VALUES (...)] *)
Definition insert_item (cid : Z) (desc : value) (qty : Z) (price : float) : tx unit :=
  d <- adapt (pg_text desc) ;;
  q <- adapt (pg_integer (JInt qty)) ;;
  p <- adapt (pg_real price) ;;
  id <- nextval_items ;;
  write (fun tb =>
    {| invoices := invoices tb;
       customers := customers tb;
       items := items tb ++
         [{| item_id := id; customer_id := cid; description := d;
             quantity := q; unit_price := p |}] |}).

(* ================================================================== *)
(** * Responses *)
(* ================================================================== *)

(** The calls made on the [FPDF] object, in order.  [cell] carries the seven
    positional arguments (w, h, text, border, ln, align, fill); [text] is
    [None] when Python's [None] is passed. *)
Inductive fpdf_call :=
| add_page
| set_auto_page_break (auto : bool) (margin : Z)
| set_fill_color (r g b : Z)
| set_text_color (r g b : Z)
| set_draw_color (r g b : Z)
| set_font (family style : string) (size : Z)
| cell (w h : Z) (text : option string) (border ln : Z) (align : string) (fill : bool)
| ln (h : Z)
| line_at_y (x1 x2 : Z)          (* line(x1, get_y(), x2, get_y()) *)
| set_y (y : Z)
| output.

Inductive response :=
| Jsonify (body : value) (status : Z)
| JsonifyDict (categorized : list (option string * list value))
| SendFile (calls : list fpdf_call) (download_name : string).

Definition error_body (msg : string) : value := JObj [("error"%string, JStr msg)].

(** [@app.errorhandler(Exception)] *)
Definition handle_exception (e : pyexc) : response :=
  Jsonify (error_body "An unexpected error occurred") 500.

(** One request: the view function runs against a fresh connection, an
    exception that escapes it is turned into a response, and the teardown
    closes the connection. *)
Definition serve (view : tx response) (st : database) : database * response :=
  match view (get_db st) with
  | (Return resp, c) => (close_connection c, resp)
  | (Raise e, c) => (close_connection c, handle_exception e)
  end.

(* ================================================================== *)
(** * Invoice store: create, replace, delete *)
(* ================================================================== *)

(** Lines 420-423: the number given to an invoice created without one. *)
Definition next_invoice_number (u : Z) : tx Z :=
  result <- select_max_invoice_number u ;;
  let mx := match result with
            | Some m => if negb (m =? 0) then m else 999
            | None => 999
            end in
  ret (mx + 1).

(** Lines 428-431: [float(data.get("total_amount", 0))], with 0.0 on
    [ValueError] and [TypeError]. *)
Definition parse_total_amount (data : value) : py float :=
  match py_bind (py_get data "total_amount" (JInt 0)) py_float with
  | Raise ValueError => Return float_zero
  | Raise TypeError => Return float_zero
  | r => r
  end.

(** The parameters of the INSERT of one item, evaluated left to right. *)
Definition item_params (it : value) : py (value * Z * float) :=
  py_bind (py_get it "description" JNull) (fun desc =>
  py_bind (py_bind (py_get it "quantity" (JInt 1)) py_int) (fun qty =>
  py_bind (py_bind (py_get it "unit_price" (JInt 0)) py_float) (fun price =>
  Return (desc, qty, price)))).

Definition add_item (cid : Z) (it : value) : tx unit :=
  p <- lift (item_params it) ;;
  let '(desc, qty, price) := p in
  insert_item cid desc qty price.

(** The parameters of the INSERT of one customer. *)
Definition customer_params (c : value) : py (value * value * value) :=
  py_bind (py_get c "name" JNull) (fun name =>
  py_bind (py_get c "address" JNull) (fun address =>
  py_bind (py_get c "email" JNull) (fun email =>
  Return (name, address, email)))).

(** What [for it in c.get("items", [])] visits. *)
Definition items_of (c : value) : py (list value) :=
  py_bind (py_get c "items" (JArr [])) py_iter.

Definition add_customer (inv : Z) (c : value) : tx unit :=
  p <- lift (customer_params c) ;;
  let '(name, address, email) := p in
  cid <- insert_customer inv name address email ;;
  its <- lift (items_of c) ;;
  for_each its (add_item cid).

(** What [for c in data.get("customers", [])] visits. *)
Definition customers_of (data : value) : py (list value) :=
  py_bind (py_get data "customers" (JArr [])) py_iter.

(** The loop of lines 442-448 and 486-492. *)
Definition add_customers (inv : Z) (data : value) : tx unit :=
  cs <- lift (customers_of data) ;;
  for_each cs (add_customer inv).

Definition created_body (number : value) : value :=
  JObj [("success"%string, JBool true); ("invoice_number"%string, number)].

(** Lines 418-423: the supplied number, or the next one when none is
    supplied. *)
Definition invoice_number_for (u : Z) (data : value) : tx value :=
  supplied <- lift (py_get data "invoice_number" JNull) ;;
  if negb (truthy supplied)
  then n <- next_invoice_number u ;; ret (JInt n)
  else ret supplied.

(** Lines 408-452: the [try] block of [create_invoice]. *)
Definition create_invoice_try (u : Z) (data : value) : tx response :=
  if negb (truthy data) then ret (Jsonify (error_body "No JSON body") 400)
  else
    number <- invoice_number_for u data ;;
    total <- lift (parse_total_amount data) ;;
    cdate <- lift (py_get data "creation_date" JNull) ;;
    cname <- lift (py_get data "company_name" JNull) ;;
    caddr <- lift (py_get data "company_address" JNull) ;;
    cemail <- lift (py_get data "company_email" JNull) ;;
    id <- insert_invoice number cdate cname caddr cemail total u ;;
    add_customers id data ;;;
    commit ;;;
    ret (Jsonify (created_body number) 201).

(** [POST /api/invoices] for the user [u] *)
Definition create_invoice (u : Z) (data : value) : tx response :=
  try_except (create_invoice_try u data)
    (fun _ =>
       rollback ;;;
       ret (Jsonify (error_body "Failed to create invoice") 500)).

Definition success_body : value := JObj [("success"%string, JBool true)].

(** Lines 474-494: the invoice [id] gets the header and the customers of
    [data] in place of its own. *)
Definition replace_invoice (id : Z) (data : value) : tx response :=
  cdate <- lift (py_get data "creation_date" JNull) ;;
  cname <- lift (py_get data "company_name" JNull) ;;
  caddr <- lift (py_get data "company_address" JNull) ;;
  cemail <- lift (py_get data "company_email" JNull) ;;
  total <- lift (py_bind (py_get data "total_amount" (JInt 0)) py_float) ;;
  update_invoice cdate cname caddr cemail total id ;;;
  custs <- select_customers id ;;
  for_each (map cust_id custs) delete_items ;;;
  delete_customers id ;;;
  add_customers id data ;;;
  commit ;;;
  ret (Jsonify success_body 200).

(** [PUT /api/invoices/<int:invoice_number>] for the user [u]: the view
    function.  The converter of the route stands in front of it, see
    [routed]. *)
Definition modify_invoice (u number : Z) (data : value) : tx response :=
  if negb (truthy data) then ret (Jsonify (error_body "No JSON body") 400)
  else
    row <- select_invoice number u ;;
    match row with
    | None => ret (Jsonify (error_body "Invoice not found") 404)
    | Some r => replace_invoice (inv_id r) data
    end.

(** [DELETE /api/invoices/<int:invoice_number>] for the user [u]: the view
    function.  The converter of the route stands in front of it, see
    [routed]. *)
Definition delete_invoice (u number : Z) : tx response :=
  row <- select_invoice number u ;;
  match row with
  | None => ret (Jsonify (error_body "Invoice not found") 404)
  | Some r =>
      let id := inv_id r in
      custs <- select_customers id ;;
      for_each (map cust_id custs) delete_items ;;;
      delete_customers id ;;;
      delete_invoice_row id ;;;
      commit ;;;
      ret (Jsonify success_body 200)
  end.

(* ================================================================== *)
(** * Categorization *)
(* ================================================================== *)

(** [str(n)] for an integer *)
Definition str_of_int (n : Z) : string := NilZero.string_of_int (Z.to_int n).

Definition text_value (o : option string) : value :=
  match o with
  | Some s => JStr s
  | None => JNull
  end.

Definition row_to_invoice (row : invoice_row) : list (string * value) :=
  [("id"%string, JInt (inv_id row));
   ("invoice_number"%string, JInt (invoice_number row));
   ("creation_date"%string, text_value (creation_date row));
   ("company_name"%string, text_value (company_name row));
   ("company_address"%string, text_value (company_address row));
   ("company_email"%string, text_value (company_email row));
   ("total_amount"%string, JFloat (total_amount row))].

Record date := { year : Z; month : Z; day : Z }.

Definition digit (c : ascii) : option Z :=
  let n := Z.of_N (N_of_ascii c) in
  if (48 <=? n) && (n <=? 57) then Some (n - 48) else None.

(** Two digits accepted by [ok], or one digit from 1 to 9, at the head of
    the input. *)
Definition two_digits (ok : Z -> Z -> bool) (l : list ascii) : option (Z * list ascii) :=
  match l with
  | a :: b :: rest =>
      match digit a, digit b with
      | Some x, Some y => if ok x y then Some (10 * x + y, rest) else None
      | _, _ => None
      end
  | _ => None
  end.

Definition one_digit (l : list ascii) : option (Z * list ascii) :=
  match l with
  | a :: rest =>
      match digit a with
      | Some x => if 1 <=? x then Some (x, rest) else None
      | None => None
      end
  | [] => None
  end.

Definition or_else {A : Type} (a b : option A) : option A :=
  match a with
  | Some x => Some x
  | None => b
  end.

Definition then_dash (r : option (Z * list ascii)) : option (Z * list ascii) :=
  match r with
  | Some (v, "-"%char :: rest) => Some (v, rest)
  | _ => None
  end.

(** [%Y-]: four digits and the dash. *)
Definition year_field (l : list ascii) : option (Z * list ascii) :=
  match l with
  | a :: b :: c :: d :: "-"%char :: rest =>
      match digit a, digit b, digit c, digit d with
      | Some w, Some x, Some y, Some z => Some (1000 * w + 100 * x + 10 * y + z, rest)
      | _, _, _, _ => None
      end
  | _ => None
  end.

(** [%m-]: the alternatives [1[0-2]], [0[1-9]], [[1-9]] in this order, each
    followed by the dash. *)
Definition month_field (l : list ascii) : option (Z * list ascii) :=
  or_else (then_dash (two_digits (fun x y => (x =? 1) && (y <=? 2)) l))
 (or_else (then_dash (two_digits (fun x y => (x =? 0) && (1 <=? y)) l))
          (then_dash (one_digit l))).

(** [%d]: the alternatives [3[0-1]], [[1-2]\d], [0[1-9]], [[1-9]], [ [1-9]];
    the first that matches is taken. *)
Definition day_field (l : list ascii) : option (Z * list ascii) :=
  or_else (two_digits (fun x y => (x =? 3) && (y <=? 1)) l)
 (or_else (two_digits (fun x y => (1 <=? x) && (x <=? 2)) l)
 (or_else (two_digits (fun x y => (x =? 0) && (1 <=? y)) l)
 (or_else (one_digit l)
          (match l with
           | " "%char :: rest => one_digit rest
           | _ => None
           end)))).

Definition is_leap (y : Z) : bool :=
  ((y mod 4 =? 0) && negb (y mod 100 =? 0)) || (y mod 400 =? 0).

Definition days_in_month (y m : Z) : Z :=
  if m =? 2 then (if is_leap y then 29 else 28)
  else if (m =? 4) || (m =? 6) || (m =? 9) || (m =? 11) then 30
  else 31.

(** [datetime.strptime(s, "%Y-%m-%d")]: the whole string has to match and to
    name a day of the calendar, years running from 1 to 9999. *)
Definition strptime (s : option string) : py date :=
  match s with
  | None => Raise TypeError
  | Some str =>
      match year_field (list_ascii_of_string str) with
      | Some (y, l1) =>
          match month_field l1 with
          | Some (m, l2) =>
              match day_field l2 with
              | Some (d, []) =>
                  if (1 <=? y) && (d <=? days_in_month y m)
                  then Return {| year := y; month := m; day := d |}
                  else Raise ValueError
              | _ => Raise ValueError
              end
          | None => Raise ValueError
          end
      | None => Raise ValueError
      end
  end.

Definition pad2 (n : Z) : string :=
  if n <? 10 then ("0" ++ str_of_int n)%string else str_of_int n.

Definition pad4 (n : Z) : string :=
  if n <? 10 then ("000" ++ str_of_int n)%string
  else if n <? 100 then ("00" ++ str_of_int n)%string
  else if n <? 1000 then ("0" ++ str_of_int n)%string
  else str_of_int n.

(** [d.strftime("%Y-%m-%d")] and [d.strftime("%Y-%m")].  The year is
    written by the C library's [%Y], which does not pad it: the year 999 is
    written 999, where [strptime] wants 0999.  Month and day have two
    digits. *)
Definition strftime_Ymd (d : date) : string :=
  (str_of_int (year d) ++ "-" ++ pad2 (month d) ++ "-" ++ pad2 (day d))%string.

Definition strftime_Ym (d : date) : string :=
  (str_of_int (year d) ++ "-" ++ pad2 (month d))%string.

(** Lines 534-545: the key of the bucket of an invoice. *)
Definition bucket_key (period : string) (cdate : option string) : option string :=
  match strptime cdate with
  | Raise _ => cdate
  | Return d =>
      if String.eqb period "year" then Some (str_of_int (year d))
      else if String.eqb period "day" then Some (strftime_Ymd d)
      else Some (strftime_Ym d)
  end.

Definition key_eqb (a b : option string) : bool :=
  match a, b with
  | Some x, Some y => String.eqb x y
  | None, None => true
  | _, _ => false
  end.

(** [categorized.setdefault(key, []).append(inv)] *)
Fixpoint setdefault_append (key : option string) (inv : value)
    (categorized : list (option string * list value)) : list (option string * list value) :=
  match categorized with
  | [] => [(key, [inv])]
  | (k, l) :: rest =>
      if key_eqb k key then (k, l ++ [inv]) :: rest
      else (k, l) :: setdefault_append key inv rest
  end.

(** An invoice of the categorize view: the header and the names of its
    customers. *)
Definition invoice_with_names (tb : tables) (row : invoice_row) : value :=
  JObj (row_to_invoice row ++
        [("customers"%string,
          JArr (map (fun c => JObj [("name"%string, text_value (cust_name c))])
                    (filter (fun c => invoice_id c =? inv_id row) (customers tb))))]).

Definition categorize_rows (period : string) (tb : tables) (rows : list invoice_row)
    : list (option string * list value) :=
  fold_left (fun categorized row =>
               setdefault_append (bucket_key period (creation_date row))
                                 (invoice_with_names tb row) categorized)
            rows [].

(** [request.args.get("period", "month")] *)
Definition requested_period (arg : option string) : string :=
  match arg with
  | Some p => p
  | None => "month"%string
  end.

(** The two loops of lines 527-546 read the tables only and are run as one
    pass here.

    [GET /api/invoices/categorize?period=] for the user [u]; [period] is
    [None] when the query has no such argument. *)
Definition categorize (u : Z) (period : option string) : tx response :=
  let period := requested_period period in
  tb <- read (fun tb => tb) ;;
  let rows := filter (fun r => user_id r =? u) (invoices tb) in
  ret (JsonifyDict (categorize_rows period tb rows)).

(* ================================================================== *)
(** * PDF rendering *)
(* ================================================================== *)

(** [f"{v}"] for a TEXT column *)
Definition str_of_text (o : option string) : string :=
  match o with
  | Some s => s
  | None => "None"
  end.

Definition text_truthy (o : option string) : bool :=
  match o with
  | Some s => negb (String.eqb s EmptyString)
  | None => false
  end.

(** Lines 661-663: the description as shown in the items table. *)
Definition display_description (desc : string) : string :=
  if (45 <? Z.of_nat (String.length desc))
  then (substring 0 42 desc ++ "...")%string
  else desc.

Definition money (x : float) : string := ("$" ++ format_2f x)%string.

(** Lines 656-670: one row of the items table, with the line total. *)
Definition render_item (item : item_row) : py (list fpdf_call * float) :=
  let qty := quantity item in
  let price := unit_price item in
  py_bind (match float_of_int qty with
           | Some q => Return (float_mul q price)
           | None => Raise OverflowError
           end) (fun total =>
  py_bind (match description item with
           | Some desc => Return (display_description desc)
           | None => Raise TypeError
           end) (fun desc =>
  Return ([set_fill_color 250 250 250;
           cell 90 6 (Some desc) 1 0 "L" true;
           cell 20 6 (Some (str_of_int qty)) 1 0 "C" true;
           cell 30 6 (Some (money price)) 1 0 "R" true;
           cell 30 6 (Some (money total)) 1 1 "R" true], total))).

(** The loop of line 655; [subtotal] starts from the integer 0, which is
    0.0 once a float is added to it. *)
Fixpoint render_items (its : list item_row) (subtotal : float)
    : py (list fpdf_call * float) :=
  match its with
  | [] => Return ([], subtotal)
  | item :: rest =>
      py_bind (render_item item) (fun r =>
      py_bind (render_items rest (float_add subtotal (snd r))) (fun rs =>
      Return (fst r ++ fst rs, snd rs)))
  end.

(** Lines 643-676: header, rows and subtotal of a customer that has items. *)
Definition render_table (its : list item_row) : py (list fpdf_call) :=
  match its with
  | [] => Return []
  | _ :: _ =>
      py_bind (render_items its float_zero) (fun r =>
      Return ([set_fill_color 230 230 230;
               set_font "Arial" "B" 9;
               cell 90 6 (Some "Description"%string) 1 0 "L" true;
               cell 20 6 (Some "Qty"%string) 1 0 "C" true;
               cell 30 6 (Some "Unit Price"%string) 1 0 "R" true;
               cell 30 6 (Some "Total"%string) 1 1 "R" true;
               set_font "Arial" EmptyString 9]
              ++ fst r ++
              [set_font "Arial" "B" 10;
               cell 140 6 (Some "Subtotal:"%string) 0 0 "R" false;
               cell 30 6 (Some (money (snd r))) 0 1 "R" false;
               ln 5]))
  end.

(** Lines 628-682: one customer; [last] tells that no customer follows. *)
Definition render_customer (cust : customer_row) (its : list item_row) (last : bool)
    : py (list fpdf_call) :=
  py_bind (render_table its) (fun table =>
  Return ([set_font "Arial" "B" 12;
           set_text_color 77 77 77;
           cell 0 6 (Some ("Bill To: " ++ str_of_text (cust_name cust))%string) 0 1 "L" false;
           set_text_color 0 0 0;
           set_font "Arial" EmptyString 9]
          ++ (if text_truthy (cust_address cust)
              then [cell 0 5 (cust_address cust) 0 1 "L" false] else [])
          ++ (if text_truthy (cust_email cust)
              then [cell 0 5 (cust_email cust) 0 1 "L" false] else [])
          ++ [ln 3]
          ++ table
          ++ (if last then []
              else [set_draw_color 200 200 200; line_at_y 10 200; ln 5]))).

Fixpoint render_customers (custs : list (customer_row * list item_row))
    : py (list fpdf_call) :=
  match custs with
  | [] => Return []
  | (cust, its) :: rest =>
      py_bind (render_customer cust its (match rest with [] => true | _ => false end))
        (fun calls =>
      py_bind (render_customers rest) (fun more =>
      Return (calls ++ more)))
  end.

(** Lines 596-624: title band, issuer block and divider.  Line 613 hands
    the company name to [cell] as it is stored: [cell] encodes its text and
    raises on the [None] of a NULL column.  The date goes through an
    f-string, and address and email are shown only when they are truthy. *)
Definition render_header (invoice : invoice_row) : py (list fpdf_call) :=
  match company_name invoice with
  | None => Raise AttributeError
  | Some name =>
      Return
        ([add_page;
          set_auto_page_break true 15;
          set_fill_color 51 51 153;
          set_text_color 255 255 255;
          set_font "Arial" "B" 24;
          cell 0 12 (Some ("INVOICE #" ++ str_of_int (invoice_number invoice))%string)
               0 1 "L" true;
          set_text_color 0 0 0;
          ln 5;
          set_font "Arial" "B" 12;
          cell 100 6 (Some "From:"%string) 0 0 "L" false;
          set_font "Arial" "B" 10;
          cell 0 6 (Some ("Date: " ++ str_of_text (creation_date invoice))%string)
               0 1 "R" false;
          set_font "Arial" EmptyString 10;
          cell 0 5 (Some name) 0 1 "L" false]
         ++ (if text_truthy (company_address invoice)
             then [cell 0 5 (company_address invoice) 0 1 "L" false] else [])
         ++ (if text_truthy (company_email invoice)
             then [cell 0 5 (company_email invoice) 0 1 "L" false] else [])
         ++ [ln 5;
             set_draw_color 180 180 180;
             line_at_y 10 200;
             ln 8])
  end.

(** Lines 686-691: the grand total band. *)
Definition render_total (invoice : invoice_row) : list fpdf_call :=
  [set_fill_color 51 51 153;
   set_text_color 255 255 255;
   set_font "Arial" "B" 14;
   cell 140 10 (Some "TOTAL AMOUNT:"%string) 0 0 "R" true;
   cell 30 10 (Some (money (total_amount invoice))) 0 1 "R" true].

(** Lines 693-701: footer and output. *)
Definition render_footer : list fpdf_call :=
  [set_y (-30);
   set_text_color 128 128 128;
   set_font "Arial" EmptyString 8;
   cell 0 10 (Some "Thank you for your business!"%string) 0 0 "C" false;
   output].

(** The header is drawn before the customers: when both fail, the header's
    exception is the one that is raised. *)
Definition render_invoice (invoice : invoice_row)
    (custs : list (customer_row * list item_row)) : py (list fpdf_call) :=
  py_bind (render_header invoice) (fun header =>
  py_bind (render_customers custs) (fun body =>
  Return (header ++ body ++ [ln 5]
          ++ render_total invoice ++ render_footer))).

(** Lines 578-587: the items of each customer, one query per customer. *)
Fixpoint fetch_items (custs : list customer_row)
    : tx (list (customer_row * list item_row)) :=
  match custs with
  | [] => ret []
  | c :: rest =>
      its <- select_items (cust_id c) ;;
      more <- fetch_items rest ;;
      ret ((c, its) :: more)
  end.

(** Lines 576-589: the customers of an invoice, each with its items. *)
Definition fetch_customers (id : Z) : tx (list (customer_row * list item_row)) :=
  custs <- select_customers id ;;
  fetch_items custs.

(** [GET /api/invoices/<int:invoice_number>/pdf] for the user [u]: the view
    function.  The converter of the route stands in front of it, see
    [routed]. *)
Definition generate_pdf (u number : Z) : tx response :=
  row <- select_invoice number u ;;
  match row with
  | None => ret (Jsonify (error_body "Invoice not found") 404)
  | Some invoice =>
      custs <- fetch_customers (inv_id invoice) ;;
      calls <- lift (render_invoice invoice custs) ;;
      ret (SendFile calls ("invoice_" ++ str_of_int number ++ ".pdf")%string)
  end.

End Model.

(* ================================================================== *)
(** * A reference runtime *)
(* ================================================================== *)

(** Floats are IEEE binary64 numbers as [spec_float]; conversions from
    integers and decimal literals round to nearest, ties to even. *)
Module Ref.

Definition is_space (c : ascii) : bool :=
  let n := Z.of_N (N_of_ascii c) in
  ((9 <=? n) && (n <=? 13)) || ((28 <=? n) && (n <=? 32)) || (n =? 133) || (n =? 160).

Fixpoint lstrip (l : list ascii) : list ascii :=
  match l with
  | c :: rest => if is_space c then lstrip rest else l
  | [] => []
  end.

Definition strip (l : list ascii) : list ascii := rev (lstrip (rev (lstrip l))).

(** [digit (["_"] digit)*] after its first digit: the digits read so far as
    a number, how many they are, and the rest of the input. *)
Fixpoint more_digits (l : list ascii) (acc n : Z) : Z * Z * list ascii :=
  match l with
  | c :: rest =>
      match digit c with
      | Some d => more_digits rest (10 * acc + d) (n + 1)
      | None =>
          match c, rest with
          | "_"%char, c2 :: rest2 =>
              match digit c2 with
              | Some d => more_digits rest2 (10 * acc + d) (n + 1)
              | None => (acc, n, l)
              end
          | _, _ => (acc, n, l)
          end
      end
  | [] => (acc, n, l)
  end.

Definition digitpart (l : list ascii) (acc n : Z) : option (Z * Z * list ascii) :=
  match l with
  | c :: rest =>
      match digit c with
      | Some d => Some (more_digits rest (10 * acc + d) (n + 1))
      | None => None
      end
  | [] => None
  end.

Definition sign (l : list ascii) : bool * list ascii :=
  match l with
  | "-"%char :: rest => (true, rest)
  | "+"%char :: rest => (false, rest)
  | _ => (false, l)
  end.

(** [int(s)] in base 10 *)
Definition int_of_str (s : string) : option Z :=
  let (neg, l) := sign (strip (list_ascii_of_string s)) in
  match digitpart l 0 0 with
  | Some (v, _, []) => Some (if neg then - v else v)
  | _ => None
  end.

(** The binary64 number nearest to [m * 10^e], for [m] positive. *)
Definition of_decimal (neg : bool) (m e : Z) : spec_float :=
  match m with
  | Zpos p =>
      if 0 <=? e then binary_round 53 1024 neg (Z.to_pos (m * 10 ^ e)) 0
      else
        let '(q, e2, loc) := SFdiv_core_binary 53 1024 m 0 (10 ^ (- e)) 0 in
        binary_round_aux 53 1024 neg q e2 loc
  | _ => S754_zero neg
  end.

Definition lower (c : ascii) : ascii :=
  let n := N_of_ascii c in
  if ((65 <=? n) && (n <=? 90))%N then ascii_of_N (n + 32) else c.

(** [("e" | "E") [sign] digitpart], or nothing. *)
Definition exponent (l : list ascii) : option (Z * list ascii) :=
  match l with
  | c :: rest =>
      if Ascii.eqb (lower c) "e" then
        let (neg, l2) := sign rest in
        match digitpart l2 0 0 with
        | Some (v, _, l3) => Some (if neg then - v else v, l3)
        | None => None
        end
      else Some (0, l)
  | [] => Some (0, l)
  end.

(** [[digitpart] "." digitpart | digitpart ["."]]: the digits as an integer
    and the number of them behind the point. *)
Definition number (l : list ascii) : option (Z * Z * list ascii) :=
  match digitpart l 0 0 with
  | Some (v, _, "."%char :: rest) =>
      match digitpart rest v 0 with
      | Some r => Some r
      | None => Some (v, 0, rest)
      end
  | Some (v, _, rest) => Some (v, 0, rest)
  | None =>
      match l with
      | "."%char :: rest => digitpart rest 0 0
      | _ => None
      end
  end.

(** [float(s)] *)
Definition float_of_str (s : string) : option spec_float :=
  let (neg, l) := sign (strip (list_ascii_of_string s)) in
  let word := string_of_list_ascii (map lower l) in
  if String.eqb word "inf" || String.eqb word "infinity" then Some (S754_infinity neg)
  else if String.eqb word "nan" then Some S754_nan
  else
    match number l with
    | Some (m, frac, l2) =>
        match exponent l2 with
        | Some (e, []) => Some (of_decimal neg m (e - frac))
        | _ => None
        end
    | None => None
    end.

(** [float(n)] *)
Definition float_of_int (n : Z) : option spec_float :=
  match binary_normalize 53 1024 n 0 false with
  | S754_infinity _ => None
  | x => Some x
  end.

(** [int(x)]: towards zero. *)
Definition int_of_float (x : spec_float) : py Z :=
  match x with
  | S754_nan => Raise ValueError
  | S754_infinity _ => Raise OverflowError
  | S754_zero _ => Return 0
  | S754_finite s m e =>
      let a := if 0 <=? e then Zpos m * 2 ^ e else Zpos m / 2 ^ (- e) in
      Return (if s then - a else a)
  end.

(** [a / b] to the nearest integer, ties to even. *)
Definition div_half_even (a b : Z) : Z :=
  let q := a / b in
  match (2 * (a mod b) ?= b) with
  | Lt => q
  | Gt => q + 1
  | Eq => if Z.even q then q else q + 1
  end.

(** [f"{x:.2f}"] *)
Definition format_2f (x : spec_float) : string :=
  match x with
  | S754_nan => "nan"
  | S754_infinity s => if s then "-inf" else "inf"
  | S754_zero s => if s then "-0.00" else "0.00"
  | S754_finite s m e =>
      let n := if 0 <=? e then Zpos m * 2 ^ e * 100
               else div_half_even (Zpos m * 100) (2 ^ (- e)) in
      ((if s then "-" else EmptyString) ++ str_of_int (n / 100) ++ "." ++ pad2 (n mod 100))%string
  end.

Definition is_zero (x : spec_float) : bool :=
  match x with
  | S754_zero _ => true
  | _ => false
  end.

Definition int4 (z : Z) : bool := (- 2 ^ 31 <=? z) && (z <? 2 ^ 31).

Fixpoint all_digits (l : list ascii) (acc : Z) : option Z :=
  match l with
  | [] => Some acc
  | c :: rest =>
      match digit c with
      | Some d => all_digits rest (10 * acc + d)
      | None => None
      end
  end.

(** An INTEGER column takes an integer, or a string that spells one, within
    32 bits; the reference runtime refuses the other values. *)
Definition pg_integer (v : json spec_float) : option Z :=
  match v with
  | JInt z => if int4 z then Some z else None
  | JStr s =>
      let (neg, l) := sign (strip (list_ascii_of_string s)) in
      match l with
      | [] => None
      | _ :: _ =>
          match all_digits l 0 with
          | Some a => let z := if neg then - a else a in
                      if int4 z then Some z else None
          | None => None
          end
      end
  | _ => None
  end.

Definition has_nul (s : string) : bool :=
  existsb (fun c => (N_of_ascii c =? 0)%N) (list_ascii_of_string s).

(** A TEXT column takes NULL, a string without the NUL character, an
    integer or a boolean; the reference runtime refuses the other values. *)
Definition pg_text (v : json spec_float) : option (option string) :=
  match v with
  | JNull => Some None
  | JStr s => if has_nul s then None else Some (Some s)
  | JInt z => Some (Some (str_of_int z))
  | JBool b => Some (Some (if b then "true" else "false")%string)
  | _ => None
  end.

(** A REAL column keeps the nearest binary32 number and refuses a finite
    number that overflows or underflows it. *)
Definition pg_real (x : spec_float) : option spec_float :=
  match x with
  | S754_finite s m e =>
      match binary_round 24 128 s m e with
      | S754_finite s' m' e' => Some (binary_round 53 1024 s' m' e')
      | _ => None
      end
  | _ => Some x
  end.

End Ref.

#[export] Instance RefFloat : FloatType := {| float := spec_float |}.

#[export] Instance RefRuntime : Runtime := {|
  float_zero := S754_zero false;
  float_is_zero := Ref.is_zero;
  float_of_int := Ref.float_of_int;
  float_of_str := Ref.float_of_str;
  int_of_float := Ref.int_of_float;
  int_of_str := Ref.int_of_str;
  float_mul := SFmul 53 1024;
  float_add := SFadd 53 1024;
  format_2f := Ref.format_2f;
  pg_integer := Ref.pg_integer;
  pg_text := Ref.pg_text;
  pg_real := Ref.pg_real
|}.

(* ================================================================== *)
(** * Notions used in the statements *)
(* ================================================================== *)

Section Notions.
Context {FT : FloatType} {RT : Runtime}.

(** ** Transactions *)

(** [quiet m]: running [m] leaves the committed tables as they are. *)
Definition quiet {A : Type} (m : tx A) : Prop :=
  forall c, snapshot (snd (m c)) = snapshot c.

(** [guarded ok m]: when [m] changes the committed tables it returns a
    result accepted by [ok]. *)
Definition guarded {A : Type} (ok : A -> Prop) (m : tx A) : Prop :=
  forall c,
    match m c with
    | (Return a, c') => ok a \/ snapshot c' = snapshot c
    | (Raise _, c') => snapshot c' = snapshot c
    end.

(** [raises m]: [m] ends in an exception from every state. *)
Definition raises {A : Type} (m : tx A) : Prop :=
  forall c, exists e c', m c = (Raise e, c').

(** [keeps_invoices m]: running [m] leaves the invoices table of the open
    transaction as it is. *)
Definition keeps_invoices {A : Type} (m : tx A) : Prop :=
  forall c, invoices (work (snd (m c))) = invoices (work c).


(** ** Responses *)

Definition not_found : response := Jsonify (error_body "Invoice not found") 404.

Definition create_failed : response := Jsonify (error_body "Failed to create invoice") 500.

Definition unexpected : response := Jsonify (error_body "An unexpected error occurred") 500.

Definition created (r : response) : Prop :=
  exists number, r = Jsonify (created_body number) 201.

Definition succeeded (r : response) : Prop := r = Jsonify success_body 200.

(** ** Stored invoices *)

(** The user [u] has an invoice numbered [n]. *)
Definition has_invoice (tb : tables) (u n : Z) : Prop :=
  exists r, In r (invoices tb) /\ user_id r = u /\ invoice_number r = n.

(** The invoice numbers of the user [u]. *)
Definition numbers_of (tb : tables) (u : Z) : list Z :=
  map invoice_number (filter (fun r => user_id r =? u) (invoices tb)).

Definition is_max (m : Z) (l : list Z) : Prop :=
  In m l /\ forall x, In x l -> x <= m.

(** ** Entries of a request *)

(** An item of a request fails: evaluating the parameters of its INSERT
    raises, or one of them is refused by its column. *)
Definition item_fails (it : value) : Prop :=
  match item_params it with
  | Raise _ => True
  | Return (desc, qty, price) =>
      pg_text desc = None \/ pg_integer (JInt qty) = None \/ pg_real price = None
  end.

(** A customer entry of a request fails: it is no dict, its items cannot be
    iterated, one of its fields is refused by its column, or one of its
    items fails. *)
Definition customer_fails (c : value) : Prop :=
  match customer_params c with
  | Raise _ => True
  | Return (name, address, email) =>
      pg_text name = None \/ pg_text address = None \/ pg_text email = None \/
      match items_of c with
      | Raise _ => True
      | Return its => exists it, In it its /\ item_fails it
      end
  end.

(** The request body lists a customer entry that fails. *)
Definition has_failing_entry (data : value) : Prop :=
  exists cs c, customers_of data = Return cs /\ In c cs /\ customer_fails c.

(** The item row [row] holds the values of the request item [it]. *)
Definition item_row_of (it : value) (row : item_row) : Prop :=
  exists desc qty price,
    item_params it = Return (desc, qty, price) /\
    pg_text desc = Some (description row) /\
    pg_integer (JInt qty) = Some (quantity row) /\
    pg_real price = Some (unit_price row).

(** ** Buckets and dates *)

(** [categorized.get(key)] *)
Fixpoint bucket (key : option string) (categorized : list (option string * list value))
    : option (list value) :=
  match categorized with
  | [] => None
  | (k, l) :: rest => if key_eqb k key then Some l else bucket key rest
  end.

(** A day of the calendar that [datetime] can hold. *)
Definition valid_date (d : date) : Prop :=
  1 <= year d <= 9999 /\ 1 <= month d <= 12 /\
  1 <= day d <= days_in_month (year d) (month d).

(** The year field reads back the four digits of [y]. *)
Definition year_reads_back (y : Z) : bool :=
  match year_field (list_ascii_of_string (pad4 y) ++ ["-"%char]) with
  | Some (y', []) => y' =? y
  | _ => false
  end.

Definition pad4_is_four (y : Z) : bool := Nat.eqb (String.length (pad4 y)) 4.

Definition pad2_is_two (m : Z) : bool := Nat.eqb (String.length (pad2 m)) 2.

(** [pad2 k] is two decimal digits. *)
Definition pad2_is_digits (k : Z) : bool :=
  match pad2 k with
  | String a (String b EmptyString) =>
      match digit a, digit b with
      | Some _, Some _ => true
      | _, _ => false
      end
  | _ => false
  end.

(** The text is a decimal number with exactly two digits behind the point,
    after a minus sign or none. *)
Definition two_decimals (text : string) : Prop :=
  exists sign whole a b,
    (sign = EmptyString \/ sign = "-"%string) /\ 0 <= whole /\
    digit a <> None /\ digit b <> None /\
    text = (sign ++ str_of_int whole ++ "." ++ String a (String b EmptyString))%string.

(** ** Rendering *)

(** Every item of the list can be drawn: it has a description, and its
    quantity converts to a float. *)
Definition drawable (its : list item_row) : Prop :=
  forall i, In i its -> description i <> None /\ float_of_int (quantity i) <> None.

(** The customers of the invoice [id], each with its items, as
    [generate_pdf] fetches them. *)
Definition aggregate (tb : tables) (id : Z) : list (customer_row * list item_row) :=
  map (fun c => (c, filter (fun i => customer_id i =? cust_id c) (items tb)))
      (filter (fun c => invoice_id c =? id) (customers tb)).

(** The cell that shows the description [d] of an item. *)
Definition description_cell (d : string) : fpdf_call :=
  cell 90 6 (Some (display_description d)) 1 0 "L" true.

End Notions.

(** ** Concrete requests and stores *)

Module Demo.

Local Open Scope string_scope.

Definition body : Type := @value RefFloat.

(** A JSON number with a fraction. *)
Definition jfloat (s : string) : body :=
  match Ref.float_of_str s with
  | Some x => JFloat x
  | None => JNull
  end.

Definition empty_db : database :=
  {| stored := {| invoices := []; customers := []; items := [] |};
     seqs := {| invoices_id_seq := 0; customers_id_seq := 0; items_id_seq := 0 |} |}.

Definition alice : Z := 1.
Definition bob : Z := 2.

(** Fifty characters. *)
Definition long_description : string :=
  "Annual maintenance contract for the packaging line".

(** One customer with two items: the first without a quantity, the second
    with a description of fifty characters.  The total is not the sum of the
    lines. *)
Definition acme_request : body :=
  JObj [("creation_date", JStr "2024-01-05");
        ("company_name", JStr "Acme");
        ("total_amount", jfloat "99.5");
        ("customers",
         JArr [JObj [("name", JStr "Globex");
                     ("items",
                      JArr [JObj [("description", JStr "Widget");
                                  ("unit_price", jfloat "12.5")];
                            JObj [("description", JStr long_description);
                                  ("quantity", JInt 2);
                                  ("unit_price", JInt 10)]])]])].

(** Alice has the invoice 1000. *)
Definition acme_db : database := fst (serve (create_invoice alice acme_request) empty_db).

Definition dated (d : string) : body :=
  JObj [("creation_date", JStr d); ("company_name", JStr "Acme")].

(** Alice has three invoices, dated 2024-01-05, 2024-01-20 and 2024-02-01. *)
Definition three_db : database :=
  fst (serve (create_invoice alice (dated "2024-02-01"))
    (fst (serve (create_invoice alice (dated "2024-01-20"))
      (fst (serve (create_invoice alice (dated "2024-01-05")) empty_db))))).

Definition numbered (n : Z) : body := JObj [("invoice_number", JInt n)].

(** Alice has the invoices 1000 and 1050. *)
Definition fifty_db : database := fst (serve (create_invoice alice (numbered 1050)) acme_db).

(** Alice has the invoice -1. *)
Definition minus_db : database := fst (serve (create_invoice alice (numbered (-1))) empty_db).

(** Alice has the invoices -1 and 0. *)
Definition zero_db : database := fst (serve (create_invoice alice (numbered 0)) minus_db).


(** An item whose quantity is no integer. *)
Definition bad_quantity_request : body :=
  JObj [("company_name", JStr "Acme");
        ("customers",
         JArr [JObj [("name", JStr "Globex");
                     ("items",
                      JArr [JObj [("description", JStr "Widget");
                                  ("quantity", JStr "three");
                                  ("unit_price", JInt 10)]])]])].



(** The header row of Alice's invoice 1000 in [acme_db]. *)
Definition acme_row : invoice_row :=
  {| inv_id := 1; invoice_number := 1000; creation_date := Some "2024-01-05";
     company_name := Some "Acme"; company_address := None; company_email := None;
     total_amount := S754_finite false 7001690045677568 (-46); user_id := alice |}.

Definition acme_customer : customer_row :=
  {| cust_id := 1; invoice_id := 1; cust_name := Some "Globex";
     cust_address := None; cust_email := None |}.

Definition widget_item : item_row :=
  {| item_id := 1; customer_id := 1; description := Some "Widget";
     quantity := 1; unit_price := S754_finite false 7036874417766400 (-49) |}.

Definition long_item : item_row :=
  {| item_id := 2; customer_id := 1; description := Some long_description;
     quantity := 2; unit_price := S754_finite false 5629499534213120 (-49) |}.

Definition acme_tables : tables :=
  {| invoices := [acme_row];
     customers := [acme_customer];
     items := [widget_item; long_item] |}.

(** The header row that a Create with nothing but a number leaves. *)
Definition blank_row (id number : Z) : invoice_row :=
  {| inv_id := id; invoice_number := number; creation_date := None;
     company_name := None; company_address := None; company_email := None;
     total_amount := S754_zero false; user_id := alice |}.

Definition zero_tables : tables :=
  {| invoices := [blank_row 1 (-1); blank_row 2 0]; customers := []; items := [] |}.

(** The first of the three invoices of [three_db]. *)
Definition january_row : invoice_row :=
  {| inv_id := 1; invoice_number := 1000; creation_date := Some "2024-01-05";
     company_name := Some "Acme"; company_address := None; company_email := None;
     total_amount := S754_zero false; user_id := alice |}.

End Demo.

(* ================================================================== *)
(** * Listing, the counter and the requests of the API *)
(* ================================================================== *)

Section Views.
Context {FT : FloatType} {RT : Runtime}.

Notation "x <- m ;; k" := (bind m (fun x => k))
  (at level 61, m at next level, right associativity).
Notation "m ;;; k" := (bind m (fun _ => k))
  (at level 61, right associativity).

(** [dict(x)] for a row of [SELECT description, quantity, unit_price]. *)
Definition item_dict (i : item_row) : value :=
  JObj [("description"%string, text_value (description i));
        ("quantity"%string, JInt (quantity i));
        ("unit_price"%string, JFloat (unit_price i))].

(** Lines 389-394: a customer of the listing, with its items. *)
Definition customer_dict (p : customer_row * list item_row) : value :=
  JObj [("name"%string, text_value (cust_name (fst p)));
        ("address"%string, text_value (cust_address (fst p)));
        ("email"%string, text_value (cust_email (fst p)));
        ("items"%string, JArr (map item_dict (snd p)))].

(** Line 395: [inv["customers"] = customers] on the dict of [row_to_invoice]. *)
Definition invoice_dict (row : invoice_row)
    (custs : list (customer_row * list item_row)) : value :=
  JObj (row_to_invoice row ++ [("customers"%string, JArr (map customer_dict custs))]).

(** Lines 382-395: the customers of each invoice, one query per invoice and
    one per customer. *)
Fixpoint attach_customers (rows : list invoice_row) : tx (list value) :=
  match rows with
  | [] => ret []
  | row :: rest =>
      custs <- fetch_customers (inv_id row) ;;
      more <- attach_customers rest ;;
      ret (invoice_dict row custs :: more)
  end.

(** The rows in the order that [ORDER BY creation_date DESC] gives them:
    the server sorts under the collation of the database and is free in the
    order of rows with equal dates. *)
Variable order_by_creation_date_desc : list invoice_row -> list invoice_row.

(** [GET /api/invoices] for the user [u] *)
Definition list_invoices (u : Z) : tx response :=
  try_except
    (rows <- read (fun tb =>
               order_by_creation_date_desc
                 (filter (fun r => user_id r =? u) (invoices tb))) ;;
     invoices <- attach_customers rows ;;
     ret (Jsonify (JArr invoices) 200))
    (fun _ => ret (Jsonify (error_body "Failed to retrieve invoices") 500)).

(** [POST /api/invoices/reset] for the user [u] *)
Definition reset_invoice_number (u : Z) : tx response :=
  result <- select_max_invoice_number u ;;
  let mx := match result with
            | Some m => if negb (m =? 0) then m else 999
            | None => 999
            end in
  ret (Jsonify (JObj [("success"%string, JBool true);
                      ("lastInvoiceNumber"%string, JInt mx)]) 200).

(** The requests of the invoice API, each with the id of the logged-in
    user; [number] is the number in the path. *)
Inductive request :=
| ListInvoices (u : Z)
| CreateInvoice (u : Z) (data : value)
| ModifyInvoice (u number : Z) (data : value)
| DeleteInvoice (u number : Z)
| Categorize (u : Z) (period : option string)
| ResetInvoiceNumber (u : Z)
| GeneratePdf (u number : Z).

(** [@app.errorhandler(404)] *)
Definition no_route : response := Jsonify (error_body "Not found") 404.

(** The converter of [<int:invoice_number>] matches a run of digits: a path
    with a negative number matches no route, no view runs, and the 404
    handler answers.  The views [modify_invoice], [delete_invoice] and
    [generate_pdf] are reached through it. *)
Definition routed (number : Z) (view : tx response) : tx response :=
  if number <? 0 then ret no_route else view.

Definition view_of (rq : request) : tx response :=
  match rq with
  | ListInvoices u => list_invoices u
  | CreateInvoice u data => create_invoice u data
  | ModifyInvoice u number data => routed number (modify_invoice u number data)
  | DeleteInvoice u number => routed number (delete_invoice u number)
  | Categorize u period => categorize u period
  | ResetInvoiceNumber u => reset_invoice_number u
  | GeneratePdf u number => routed number (generate_pdf u number)
  end.

Definition handle (rq : request) (st : database) : database * response :=
  serve (view_of rq) st.

(** The database after the requests [rqs], served one after the other. *)
Definition run (rqs : list request) (st : database) : database :=
  fold_left (fun s rq => fst (handle rq s)) rqs st.

(** The tables of [init_db] on a new database: empty, with sequences that
    have handed out nothing. *)
Definition init_db : database :=
  {| stored := {| invoices := []; customers := []; items := [] |};
     seqs := {| invoices_id_seq := 0; customers_id_seq := 0; items_id_seq := 0 |} |}.

End Views.

(* ================================================================== *)
(** * Notions on the stored rows *)
(* ================================================================== *)

Section Rows.
Context {FT : FloatType} {RT : Runtime}.

Definition seqs_le (q q' : sequences) : Prop :=
  invoices_id_seq q <= invoices_id_seq q' /\
  customers_id_seq q <= customers_id_seq q' /\
  items_id_seq q <= items_id_seq q'.

(** [grows m]: running [m] never takes a sequence back. *)
Definition grows {A : Type} (m : tx A) : Prop :=
  forall c, seqs_le (conn_seqs c) (conn_seqs (snd (m c))).

(** [reads m]: running [m] leaves the connection as it is. *)
Definition reads {A : Type} (m : tx A) : Prop :=
  forall c, snd (m c) = c.

(** What the schema of [init_db] promises of the tables: ids are unique and
    were handed out by their sequence, a user has no two invoices with one
    number, a customer belongs to a stored invoice and an item to a stored
    customer. *)
Record well_formed (tb : tables) (q : sequences) : Prop := {
  wf_invoice_ids : NoDup (map inv_id (invoices tb));
  wf_invoice_seq : forall r, In r (invoices tb) -> inv_id r <= invoices_id_seq q;
  wf_customer_ids : NoDup (map cust_id (customers tb));
  wf_customer_seq : forall c, In c (customers tb) -> cust_id c <= customers_id_seq q;
  wf_item_ids : NoDup (map item_id (items tb));
  wf_item_seq : forall i, In i (items tb) -> item_id i <= items_id_seq q;
  wf_numbers : NoDup (map (fun r => (user_id r, invoice_number r)) (invoices tb));
  wf_customer_ref : forall c, In c (customers tb) ->
                      In (invoice_id c) (map inv_id (invoices tb));
  wf_item_ref : forall i, In i (items tb) ->
                  In (customer_id i) (map cust_id (customers tb))
}.

Definition consistent (st : database) : Prop := well_formed (stored st) (seqs st).

(** [lo + 1, ..., lo + n]: what a sequence at [lo] hands out next. *)
Definition handed_out (lo : Z) (n : nat) : list Z :=
  map (fun k => lo + Z.of_nat k) (seq 1 n).

(** Between [c] and [c'] the open transaction got the customer rows [custs]
    and the item rows [its] at the end of their tables, with the next ids of
    the sequences, and nothing else changed. *)
Record appended (custs : list customer_row) (its : list item_row)
    (c c' : connection) : Prop := {
  app_snapshot : snapshot c' = snapshot c;
  app_invoices : invoices (work c') = invoices (work c);
  app_customers : customers (work c') = customers (work c) ++ custs;
  app_items : items (work c') = items (work c) ++ its;
  app_invoice_seq : invoices_id_seq (conn_seqs c') = invoices_id_seq (conn_seqs c);
  app_customer_seq : customers_id_seq (conn_seqs c') =
                     customers_id_seq (conn_seqs c) + Z.of_nat (List.length custs);
  app_item_seq : items_id_seq (conn_seqs c') =
                 items_id_seq (conn_seqs c) + Z.of_nat (List.length its);
  app_customer_ids : map cust_id custs =
                     handed_out (customers_id_seq (conn_seqs c)) (List.length custs);
  app_item_ids : map item_id its =
                 handed_out (items_id_seq (conn_seqs c)) (List.length its)
}.

(** The customer row [row] of the invoice [inv] holds the values of the
    request entry [cu]. *)
Definition customer_row_of (inv : Z) (cu : value) (row : customer_row) : Prop :=
  invoice_id row = inv /\
  exists name address email,
    customer_params cu = Return (name, address, email) /\
    pg_text name = Some (cust_name row) /\
    pg_text address = Some (cust_address row) /\
    pg_text email = Some (cust_email row).

(** The customer row and the item rows of [b] hold the request entry [cu]:
    one item row for each item of the entry, in the order of the request. *)
Definition block_of (inv : Z) (cu : value) (b : customer_row * list item_row) : Prop :=
  customer_row_of inv cu (fst b) /\
  exists its, items_of cu = Return its /\
    Forall2 (fun it row => item_row_of it row /\ customer_id row = cust_id (fst b))
            its (snd b).

(** The blocks hold the customers of the request body [data], in order. *)
Definition blocks_of (inv : Z) (data : value)
    (bs : list (customer_row * list item_row)) : Prop :=
  exists cs, customers_of data = Return cs /\ Forall2 (block_of inv) cs bs.

(** The header row [row] holds the header fields of the request body. *)
Definition header_of (data : value) (total : float) (row : invoice_row) : Prop :=
  exists cdate cname caddr cemail,
    py_get data "creation_date" JNull = Return cdate /\
    py_get data "company_name" JNull = Return cname /\
    py_get data "company_address" JNull = Return caddr /\
    py_get data "company_email" JNull = Return cemail /\
    pg_text cdate = Some (creation_date row) /\
    pg_text cname = Some (company_name row) /\
    pg_text caddr = Some (company_address row) /\
    pg_text cemail = Some (company_email row) /\
    pg_real total = Some (total_amount row).

(** The customer entries of the request body can be stored: they can be
    iterated and none of them fails. *)
Definition customers_accepted (data : value) : Prop :=
  exists cs, customers_of data = Return cs /\ forall cu, In cu cs -> ~ customer_fails cu.

(** What Create needs to store the body [data] under the number [number]:
    a truthy body from which the number and the total are obtained, header
    fields that their columns take, a number that the user does not have
    yet, and customer entries that can be stored. *)
Definition creatable (u : Z) (data number : value) (st : database) : Prop :=
  truthy data = true /\
  invoice_number_for u data (get_db st) = (Return number, get_db st) /\
  (exists total row,
     parse_total_amount data = Return total /\ header_of data total row /\
     pg_integer number = Some (invoice_number row) /\
     ~ has_invoice (stored st) u (invoice_number row)) /\
  customers_accepted data.

(** What Replace needs to store the body [data] in place of the invoice
    [number] of the user. *)
Definition replaceable (u number : Z) (data : value) (st : database) : Prop :=
  truthy data = true /\
  has_invoice (stored st) u number /\
  (exists total row,
     py_bind (py_get data "total_amount" (JInt 0)) py_float = Return total /\
     header_of data total row) /\
  customers_accepted data.

(** An item that the PDF cannot show: it has no description, or its
    quantity has no float. *)
Definition undrawable (i : item_row) : Prop :=
  description i = None \/ float_of_int (quantity i) = None.

(** The ids of the customers of the invoice [inv]. *)
Definition children (tb : tables) (inv : Z) : list Z :=
  map cust_id (filter (fun c => invoice_id c =? inv) (customers tb)).

(** The tables without the customers of the invoice [inv] and without the
    items of these customers. *)
Definition without_children (inv : Z) (tb : tables) : tables :=
  {| invoices := invoices tb;
     customers := filter (fun c => negb (invoice_id c =? inv)) (customers tb);
     items := filter (fun i => negb (mem (customer_id i) (children tb inv))) (items tb) |}.

(** The tables without the invoice [id], its customers and their items. *)
Definition without_invoice (id : Z) (tb : tables) : tables :=
  {| invoices := filter (fun r => negb (inv_id r =? id)) (invoices tb);
     customers := customers (without_children id tb);
     items := items (without_children id tb) |}.

(** The row [r] with another header; id, number and owner stay. *)
Definition with_header (d cn ca ce : option string) (t : float) (r : invoice_row)
    : invoice_row :=
  {| inv_id := inv_id r; invoice_number := invoice_number r;
     creation_date := d; company_name := cn; company_address := ca;
     company_email := ce; total_amount := t; user_id := user_id r |}.

(** The invoice row [r] is the one that the request names: Replace and
    Delete name an invoice of the user by its number, the other requests
    name none. *)
Definition addressed (rq : request) (r : invoice_row) : Prop :=
  match rq with
  | ModifyInvoice u number _ => user_id r = u /\ invoice_number r = number
  | DeleteInvoice u number => user_id r = u /\ invoice_number r = number
  | _ => False
  end.


End Rows.

(* ================================================================== *)
(** * Accounts: register and login *)
(* ================================================================== *)

Module Auth.

Section Accounts.
Context {FT : FloatType} {RT : Runtime}.

(** [str.strip()] of the interpreter, and the two functions of
    [werkzeug.security]; [generate_password_hash] gets the salt that it
    draws as an argument.  They raise on a password that is no string. *)
Variable strip : string -> string.
Variable generate_password_hash : string -> value -> py string.
Variable check_password_hash : string -> value -> py bool.

Notation "x <~ m ;; k" := (py_bind m (fun x => k))
  (at level 61, m at next level, right associativity).

(** A row of the table [users]; the three columns that are NOT NULL hold a
    string.  [created_at] is never read. *)
Record user_row := {
  uid : Z;
  username : string;
  email : string;
  password_hash : string;
  full_name : option string;
  company_name : option string;
  phone_number : option string
}.

(** The table [users] and the sequence behind its SERIAL column. *)
Record accounts := {
  users : list user_row;
  users_id_seq : Z
}.

(** [v.strip()]; only a string has the method. *)
Definition py_strip (v : value) : py string :=
  match v with
  | JStr s => Return (strip s)
  | _ => Raise AttributeError
  end.

(** [data.get(k, "").strip()] *)
Definition stripped (data : value) (k : string) : py string :=
  py_bind (py_get data k (JStr EmptyString)) py_strip.

(** [not s] for a string *)
Definition blank (s : string) : bool := String.eqb s EmptyString.

(** A string parameter for a column that is NOT NULL, or for a comparison
    with one. *)
Definition text_param (s : string) : py string :=
  match pg_text (JStr s) with
  | Some (Some t) => Return t
  | _ => Raise (DatabaseError DataError)
  end.

(** A string parameter for a column that takes NULL. *)
Definition nullable_param (s : string) : py (option string) :=
  match pg_text (JStr s) with
  | Some o => Return o
  | None => Raise (DatabaseError DataError)
  end.

Definition registered_body : value :=
  JObj [("success"%string, JBool true);
        ("message"%string, JStr "Registration successful")].

(** Lines 252-284: the [try] block of [register]; [salt] is the salt that
    [generate_password_hash] draws. *)
Definition register_try (salt : string) (data : value) (a : accounts)
    : py (accounts * response) :=
  if negb (truthy data) then Return (a, Jsonify (error_body "No JSON body") 400)
  else
    name <~ stripped data "username" ;;
    mail <~ stripped data "email" ;;
    password <~ py_get data "password" (JStr EmptyString) ;;
    full <~ stripped data "full_name" ;;
    company <~ stripped data "company_name" ;;
    phone <~ stripped data "phone_number" ;;
    if blank name || blank mail || negb (truthy password)
    then Return (a, Jsonify (error_body "Username, email, and password are required") 400)
    else
      n <~ text_param name ;;
      m <~ text_param mail ;;
      if existsb (fun r => String.eqb (username r) n || String.eqb (email r) m) (users a)
      then Return (a, Jsonify (error_body "Username or email already exists") 400)
      else
        hash <~ generate_password_hash salt password ;;
        h <~ text_param hash ;;
        f <~ nullable_param full ;;
        c <~ nullable_param company ;;
        p <~ nullable_param phone ;;
        let id := users_id_seq a + 1 in
        Return ({| users := users a ++
                     [{| uid := id; username := n; email := m; password_hash := h;
                         full_name := f; company_name := c; phone_number := p |}];
                   users_id_seq := id |},
                Jsonify registered_body 201).

(** [POST /api/auth/register]: an exception leaves the table as it was. *)
Definition register (salt : string) (data : value) (a : accounts)
    : accounts * response :=
  match register_try salt data a with
  | Return r => r
  | Raise _ => (a, Jsonify (error_body "Failed to register user") 500)
  end.

(** Lines 319-328: the answer to a login. *)
Definition logged_in_body (r : user_row) : value :=
  JObj [("success"%string, JBool true);
        ("user"%string,
         JObj [("username"%string, JStr (username r));
               ("email"%string, JStr (email r));
               ("full_name"%string, text_value (full_name r));
               ("company_name"%string, text_value (company_name r));
               ("phone_number"%string, text_value (phone_number r))])].

Definition invalid_login : response :=
  Jsonify (error_body "Invalid username or password") 401.

(** Lines 295-328: the [try] block of [login].  The second component is the
    user that is handed to [login_user], if any. *)
Definition login_try (data : value) (a : accounts) : py (response * option user_row) :=
  if negb (truthy data) then Return (Jsonify (error_body "No JSON body") 400, None)
  else
    name <~ stripped data "username" ;;
    password <~ py_get data "password" (JStr EmptyString) ;;
    if blank name || negb (truthy password)
    then Return (Jsonify (error_body "Username and password are required") 400, None)
    else
      n <~ text_param name ;;
      match find (fun r => String.eqb (username r) n) (users a) with
      | None => Return (invalid_login, None)
      | Some r =>
          ok <~ check_password_hash (password_hash r) password ;;
          if negb ok then Return (invalid_login, None)
          else Return (Jsonify (logged_in_body r) 200, Some r)
      end.

(** [POST /api/auth/login] *)
Definition login (data : value) (a : accounts) : response * option user_row :=
  match login_try data a with
  | Return r => r
  | Raise _ => (Jsonify (error_body "Failed to login") 500, None)
  end.


(** Checking the stored hash of a password against that password succeeds. *)
Definition hash_checks : Prop :=
  forall salt password hash h,
    generate_password_hash salt password = Return hash ->
    text_param hash = Return h ->
    check_password_hash h password = Return true.

End Accounts.

End Auth.

(** ** More concrete requests and stores *)

Module Sample.

Import Demo.
Local Open Scope string_scope.

(** Alice has the invoices 1000 and 1001. *)
Definition second_db : database := fst (serve (create_invoice alice acme_request) acme_db).

(** Alice's invoice 1000 after a Replace with a header and no customers. *)
Definition replaced_db : database :=
  fst (serve (modify_invoice alice 1000 (dated "2024-02-01")) acme_db).

(** One customer with one item that has no description. *)
Definition nameless_request : body :=
  JObj [("company_name", JStr "Acme");
        ("customers",
         JArr [JObj [("name", JStr "Globex");
                     ("items", JArr [JObj [("quantity", JInt 3);
                                           ("unit_price", JInt 10)]])]])].

Definition nameless_customer : body :=
  JObj [("name", JStr "Globex");
        ("items", JArr [JObj [("quantity", JInt 3); ("unit_price", JInt 10)]])].

Definition nameless_item : body :=
  JObj [("quantity", JInt 3); ("unit_price", JInt 10)].

Definition nameless_db : database :=
  fst (serve (create_invoice alice nameless_request) empty_db).

(** A total that is not a number: [float("nan")] parses. *)
Definition nan_request : body :=
  JObj [("company_name", JStr "Acme"); ("total_amount", JStr "nan")].

Definition nan_db : database := fst (serve (create_invoice alice nan_request) empty_db).




(** [str.strip()] on strings of one-byte characters. *)
Definition strip (s : string) : string :=
  string_of_list_ascii (Ref.strip (list_ascii_of_string s)).

(** A stand-in for the hash functions: the password behind a prefix. *)
Definition plain_hash (salt : string) (password : body) : py string :=
  match password with
  | JStr s => Return ("plain$" ++ s)
  | _ => Raise AttributeError
  end.

Definition plain_check (hash : string) (password : body) : py bool :=
  match password with
  | JStr s => Return (String.eqb hash ("plain$" ++ s))
  | _ => Raise AttributeError
  end.

Definition no_accounts : Auth.accounts := {| Auth.users := []; Auth.users_id_seq := 0 |}.

Definition carol_request : body :=
  JObj [("username", JStr "  carol ");
        ("email", JStr "carol@example.org");
        ("password", JStr "s3cret");
        ("full_name", JStr "Carol Jones");
        ("company_name", JStr EmptyString);
        ("phone_number", JStr EmptyString)].

Definition carol_row : Auth.user_row :=
  {| Auth.uid := 1; Auth.username := "carol"; Auth.email := "carol@example.org";
     Auth.password_hash := "plain$s3cret"; Auth.full_name := Some "Carol Jones";
     Auth.company_name := Some EmptyString; Auth.phone_number := Some EmptyString |}.

Definition carol_accounts : Auth.accounts :=
  {| Auth.users := [carol_row]; Auth.users_id_seq := 1 |}.

End Sample.

(* ================================================================== *)
(** * Properties *)
(* ================================================================== *)

Section Properties.
Context {FT : FloatType} {RT : Runtime}.

Notation "x <- m ;; k" := (bind m (fun x => k))
  (at level 61, m at next level, right associativity).
Notation "m ;;; k" := (bind m (fun _ => k))
  (at level 61, right associativity).

(** ** Committed tables change at [commit] only *)

Lemma quiet_ret {A : Type} (a : A) : quiet (ret a).
Proof. intro c; reflexivity. Qed.

Lemma quiet_raise {A : Type} (e : pyexc) : quiet (@raise _ A e).
Proof. intro c; reflexivity. Qed.

Lemma quiet_lift {A : Type} (r : py A) : quiet (lift r).
Proof. intro c; reflexivity. Qed.

Lemma quiet_read {A : Type} (q : tables -> A) : quiet (read q).
Proof. intro c; reflexivity. Qed.

Lemma quiet_write (f : tables -> tables) : quiet (write f).
Proof. intro c; reflexivity. Qed.

Lemma quiet_rollback : quiet rollback.
Proof. intro c; reflexivity. Qed.

Lemma quiet_adapt {A : Type} (o : option A) : quiet (adapt o).
Proof. destruct o; intro c; reflexivity. Qed.

Lemma quiet_bind {A B : Type} (m : tx A) (k : A -> tx B) :
  quiet m -> (forall a, quiet (k a)) -> quiet (bind m k).
Proof.
  intros Hm Hk c. unfold bind.
  specialize (Hm c). destruct (m c) as [[a|e] c1]; simpl in *.
  - rewrite Hk. exact Hm.
  - exact Hm.
Qed.

Lemma quiet_for_each {A : Type} (l : list A) (body : A -> tx unit) :
  (forall x, quiet (body x)) -> quiet (for_each l body).
Proof.
  intro Hb. induction l as [|x l IH]; simpl.
  - apply quiet_ret.
  - apply quiet_bind; [apply Hb | intros _; exact IH].
Qed.

Lemma quiet_nextval_invoices : quiet nextval_invoices.
Proof. intro c; reflexivity. Qed.

Lemma quiet_nextval_customers : quiet nextval_customers.
Proof. intro c; reflexivity. Qed.

Lemma quiet_nextval_items : quiet nextval_items.
Proof. intro c; reflexivity. Qed.

Create HintDb quiet.
#[local] Hint Resolve quiet_ret quiet_raise quiet_lift quiet_read quiet_write
  quiet_rollback quiet_adapt quiet_nextval_invoices quiet_nextval_customers
  quiet_nextval_items : quiet.

Ltac quiet_steps :=
  repeat first
    [ apply quiet_bind; [ | intro ]
    | apply quiet_for_each; intro
    | solve [ auto with quiet ]
    | match goal with
      | |- quiet (if ?b then _ else _) => destruct b
      | |- quiet (let '(_, _) := ?p in _) => destruct p
      | |- quiet (match ?p with (_, _) => _ end) => destruct p
      end ].

Lemma quiet_insert_invoice number cdate cname caddr cemail total u :
  quiet (insert_invoice number cdate cname caddr cemail total u).
Proof. unfold insert_invoice. quiet_steps. Qed.

Lemma quiet_update_invoice cdate cname caddr cemail total id :
  quiet (update_invoice cdate cname caddr cemail total id).
Proof. unfold update_invoice. quiet_steps. Qed.

Lemma quiet_insert_customer inv name address email :
  quiet (insert_customer inv name address email).
Proof. unfold insert_customer. quiet_steps. Qed.

Lemma quiet_insert_item cid desc qty price :
  quiet (insert_item cid desc qty price).
Proof. unfold insert_item. quiet_steps. Qed.

Lemma quiet_add_item cid it : quiet (add_item cid it).
Proof.
  unfold add_item. apply quiet_bind; [auto with quiet|].
  intros [[desc qty] price]. apply quiet_insert_item.
Qed.

Lemma quiet_add_customer inv c : quiet (add_customer inv c).
Proof.
  unfold add_customer. apply quiet_bind; [auto with quiet|].
  intros [[name address] email].
  apply quiet_bind; [apply quiet_insert_customer|]. intro cid.
  apply quiet_bind; [auto with quiet|]. intro its.
  apply quiet_for_each. intro it. apply quiet_add_item.
Qed.

Lemma quiet_add_customers inv data : quiet (add_customers inv data).
Proof.
  unfold add_customers. apply quiet_bind; [auto with quiet|]. intro cs.
  apply quiet_for_each. intro c. apply quiet_add_customer.
Qed.

Lemma quiet_next_invoice_number u : quiet (next_invoice_number u).
Proof. unfold next_invoice_number, select_max_invoice_number. quiet_steps. Qed.

Lemma quiet_invoice_number_for u data : quiet (invoice_number_for u data).
Proof.
  unfold invoice_number_for. apply quiet_bind; [auto with quiet|]. intro supplied.
  destruct (negb (truthy supplied)); [|auto with quiet].
  apply quiet_bind; [apply quiet_next_invoice_number|]. auto with quiet.
Qed.

Lemma quiet_guarded {A : Type} (ok : A -> Prop) (m : tx A) :
  quiet m -> guarded ok m.
Proof.
  intros H c. specialize (H c). destruct (m c) as [[a|e] c']; simpl in H; auto.
Qed.

Lemma guarded_bind {A B : Type} (ok : B -> Prop) (m : tx A) (k : A -> tx B) :
  quiet m -> (forall a, guarded ok (k a)) -> guarded ok (bind m k).
Proof.
  intros Hm Hk c. unfold bind.
  specialize (Hm c). destruct (m c) as [[a|e] c1]; simpl in Hm.
  - specialize (Hk a c1). destruct (k a c1) as [[b|e] c2].
    + destruct Hk as [Hk|Hk]; [left; exact Hk | right; congruence].
    + congruence.
  - exact Hm.
Qed.

Lemma guarded_commit_ret {A B : Type} (ok : A -> Prop) (a : A) :
  ok a -> guarded ok (bind commit (fun _ : unit => ret a)).
Proof. intros H c. simpl. left. exact H. Qed.

(** ** Loops that meet a failing element *)

Lemma raises_bind_l {A B : Type} (m : tx A) (k : A -> tx B) :
  raises m -> raises (bind m k).
Proof.
  intros H c. unfold bind. destruct (H c) as (e & c' & E). rewrite E. eauto.
Qed.

Lemma raises_bind_r {A B : Type} (m : tx A) (k : A -> tx B) :
  (forall a, raises (k a)) -> raises (bind m k).
Proof.
  intros H c. unfold bind. destruct (m c) as [[a|e] c1]; [apply H | eauto].
Qed.

Lemma raises_lift {A : Type} (e : pyexc) : raises (lift (@Raise A e)).
Proof. intro c. unfold lift. eauto. Qed.

Lemma raises_adapt_none {A : Type} : raises (adapt (@None A)).
Proof. intro c. simpl. unfold raise. eauto. Qed.

Lemma raises_for_each {A : Type} (l : list A) (body : A -> tx unit) (x : A) :
  In x l -> raises (body x) -> raises (for_each l body).
Proof.
  intros Hin Hx. induction l as [|y l IH]; [destruct Hin|].
  simpl. destruct Hin as [->|Hin].
  - apply raises_bind_l. exact Hx.
  - apply raises_bind_r. intros _. apply IH. exact Hin.
Qed.

Lemma raises_insert_item cid desc qty price :
  pg_text desc = None \/ pg_integer (JInt qty) = None \/ pg_real price = None ->
  raises (insert_item cid desc qty price).
Proof.
  intros H. unfold insert_item.
  destruct (pg_text desc) as [d|]; [|apply raises_bind_l, raises_adapt_none].
  apply raises_bind_r; intros ?.
  destruct (pg_integer (JInt qty)) as [q|]; [|apply raises_bind_l, raises_adapt_none].
  apply raises_bind_r; intros ?.
  destruct (pg_real price) as [p|]; [|apply raises_bind_l, raises_adapt_none].
  destruct H as [H|[H|H]]; discriminate H.
Qed.

Lemma raises_add_item cid it : item_fails it -> raises (add_item cid it).
Proof.
  unfold item_fails, add_item. intros H.
  destruct (item_params it) as [[[desc qty] price]|e].
  - intro c. unfold bind, lift. apply raises_insert_item. exact H.
  - apply raises_bind_l, raises_lift.
Qed.

Lemma raises_insert_customer inv name address email :
  pg_text name = None \/ pg_text address = None \/ pg_text email = None ->
  raises (insert_customer inv name address email).
Proof.
  intros H. unfold insert_customer.
  destruct (pg_text name) as [tn|]; [|apply raises_bind_l, raises_adapt_none].
  apply raises_bind_r; intros ?.
  destruct (pg_text address) as [ta|]; [|apply raises_bind_l, raises_adapt_none].
  apply raises_bind_r; intros ?.
  destruct (pg_text email) as [te|]; [|apply raises_bind_l, raises_adapt_none].
  destruct H as [H|[H|H]]; discriminate H.
Qed.

Lemma raises_add_customer inv c : customer_fails c -> raises (add_customer inv c).
Proof.
  unfold customer_fails, add_customer. intros H.
  destruct (customer_params c) as [[[name address] email]|e].
  - intro c0. unfold bind at 1. unfold lift at 1.
    revert c0. change (raises (cid <- insert_customer inv name address email ;;
                               its <- lift (items_of c) ;; for_each its (add_item cid))).
    destruct H as [H|[H|[H|H]]];
      try (apply raises_bind_l, raises_insert_customer; auto; fail).
    apply raises_bind_r. intro cid.
    destruct (items_of c) as [its|e].
    + destruct H as (it & Hin & Hit).
      intro c0. unfold bind at 1. unfold lift at 1.
      apply (raises_for_each its (add_item cid) it Hin).
      apply raises_add_item. exact Hit.
    + apply raises_bind_l, raises_lift.
  - apply raises_bind_l, raises_lift.
Qed.

Lemma raises_add_customers inv data :
  has_failing_entry data -> raises (add_customers inv data).
Proof.
  intros (cs & c & Hcs & Hin & Hc). unfold add_customers.
  rewrite Hcs. intro c0. unfold bind at 1. unfold lift at 1.
  apply (raises_for_each cs (add_customer inv) c Hin).
  apply raises_add_customer. exact Hc.
Qed.

(** A body with a failing entry is a non-empty dict. *)
Lemma failing_entry_truthy data : has_failing_entry data -> truthy data = true.
Proof.
  intros (cs & c & Hcs & Hin & _). unfold customers_of in Hcs.
  destruct data as [| | | | | |kv]; try discriminate Hcs.
  destruct kv as [|p kv]; [|reflexivity].
  simpl in Hcs. injection Hcs as <-. destruct Hin.
Qed.

(** ** The three writers commit or leave the store alone *)

Lemma guarded_create_invoice_try u data : guarded created (create_invoice_try u data).
Proof.
  unfold create_invoice_try.
  destruct (negb (truthy data)); [apply quiet_guarded; auto with quiet|].
  apply guarded_bind; [apply quiet_invoice_number_for|]; intro number.
  do 5 (apply guarded_bind; [auto with quiet|]; intro).
  apply guarded_bind; [apply quiet_insert_invoice|]; intro id.
  apply guarded_bind; [apply quiet_add_customers|]; intros _.
  apply (guarded_commit_ret (B:=unit)). exists number. reflexivity.
Qed.

Lemma guarded_create_invoice u data : guarded created (create_invoice u data).
Proof.
  intro c. unfold create_invoice, try_except.
  pose proof (guarded_create_invoice_try u data c) as G.
  destruct (create_invoice_try u data c) as [[r|e] c1].
  - exact G.
  - simpl. right. exact G.
Qed.

Lemma quiet_delete_steps id :
  quiet (custs <- select_customers id ;;
         for_each (map cust_id custs) delete_items ;;;
         delete_customers id).
Proof.
  unfold select_customers, delete_items, delete_customers. quiet_steps.
Qed.

Lemma guarded_replace_invoice id data : guarded succeeded (replace_invoice id data).
Proof.
  unfold replace_invoice.
  do 5 (apply guarded_bind; [auto with quiet|]; intro).
  apply guarded_bind; [apply quiet_update_invoice|]; intros _.
  apply guarded_bind; [unfold select_customers; auto with quiet|]; intro custs.
  apply guarded_bind; [unfold delete_items; quiet_steps|]; intros _.
  apply guarded_bind; [unfold delete_customers; auto with quiet|]; intros _.
  apply guarded_bind; [apply quiet_add_customers|]; intros _.
  apply (guarded_commit_ret (B:=unit)). reflexivity.
Qed.

Lemma guarded_modify_invoice u number data :
  guarded succeeded (modify_invoice u number data).
Proof.
  unfold modify_invoice.
  destruct (negb (truthy data)); [apply quiet_guarded; auto with quiet|].
  apply guarded_bind; [unfold select_invoice; auto with quiet|]. intros [r|].
  - apply guarded_replace_invoice.
  - apply quiet_guarded; auto with quiet.
Qed.

Lemma guarded_delete_invoice u number : guarded succeeded (delete_invoice u number).
Proof.
  unfold delete_invoice.
  apply guarded_bind; [unfold select_invoice; auto with quiet|]. intros [r|].
  - apply guarded_bind; [unfold select_customers; auto with quiet|]; intro custs.
    apply guarded_bind; [unfold delete_items; quiet_steps|]; intros _.
    apply guarded_bind; [unfold delete_customers; auto with quiet|]; intros _.
    apply guarded_bind; [unfold delete_invoice_row; auto with quiet|]; intros _.
    apply (guarded_commit_ret (B:=unit)). reflexivity.
  - apply quiet_guarded; auto with quiet.
Qed.

(** What [serve] makes of a guarded view. *)
Lemma serve_guarded (ok : response -> Prop) (view : tx response) (st : database) :
  guarded ok view ->
  ok (snd (serve view st)) \/ stored (fst (serve view st)) = stored st.
Proof.
  intro G. unfold serve. specialize (G (get_db st)).
  destruct (view (get_db st)) as [[r|e] c]; simpl.
  - destruct G as [G|G]; [left; exact G | right; exact G].
  - right. exact G.
Qed.

Lemma serve_raises (view : tx response) (st : database) :
  raises view -> snd (serve view st) = unexpected.
Proof.
  intro R. unfold serve. destruct (R (get_db st)) as (e & c & E). rewrite E.
  reflexivity.
Qed.

Lemma raises_create_invoice_try u data :
  has_failing_entry data -> raises (create_invoice_try u data).
Proof.
  intro H. unfold create_invoice_try.
  rewrite (failing_entry_truthy data H). cbn [negb].
  apply raises_bind_r; intro number.
  do 5 (apply raises_bind_r; intro).
  apply raises_bind_r; intro id.
  apply raises_bind_l. apply raises_add_customers. exact H.
Qed.

Lemma create_invoice_fails u data c :
  has_failing_entry data ->
  exists c', create_invoice u data c = (Return create_failed, c').
Proof.
  intro H. unfold create_invoice, try_except.
  destruct (raises_create_invoice_try u data H c) as (e & c1 & E). rewrite E.
  eexists. reflexivity.
Qed.

Lemma raises_replace_invoice id data :
  has_failing_entry data -> raises (replace_invoice id data).
Proof.
  intro H. unfold replace_invoice.
  do 5 (apply raises_bind_r; intro).
  do 4 (apply raises_bind_r; intro).
  apply raises_bind_l. apply raises_add_customers. exact H.
Qed.

Lemma modify_invoice_fails u number data c :
  has_failing_entry data ->
  (exists c', modify_invoice u number data c = (Return not_found, c')) \/
  (exists e c', modify_invoice u number data c = (Raise e, c')).
Proof.
  intro H. unfold modify_invoice.
  rewrite (failing_entry_truthy data H). cbn [negb].
  unfold bind, select_invoice, read.
  destruct (find (owned_by u number) (invoices (work c))) as [r|].
  - right. apply raises_replace_invoice. exact H.
  - left. eexists. reflexivity.
Qed.

Lemma rejects_failing_entry (u number : Z) (data : value) (st : database) :
  has_failing_entry data ->
  (snd (serve (create_invoice u data) st) = create_failed /\
   stored (fst (serve (create_invoice u data) st)) = stored st) /\
  ((snd (serve (modify_invoice u number data) st) = not_found \/
    snd (serve (modify_invoice u number data) st) = unexpected) /\
   stored (fst (serve (modify_invoice u number data) st)) = stored st).
Proof.
  intro H. split.
  - assert (E : snd (serve (create_invoice u data) st) = create_failed).
    { unfold serve.
      destruct (create_invoice_fails u data (get_db st) H) as (c' & ->).
      reflexivity. }
    split; [exact E|].
    destruct (serve_guarded created _ st (guarded_create_invoice u data)) as [[n G]|G];
      [|exact G].
    rewrite E in G. discriminate G.
  - assert (E : snd (serve (modify_invoice u number data) st) = not_found \/
                snd (serve (modify_invoice u number data) st) = unexpected).
    { unfold serve.
      destruct (modify_invoice_fails u number data (get_db st) H)
        as [(c' & ->)|(e & c' & ->)]; [left|right]; reflexivity. }
    split; [exact E|].
    destruct (serve_guarded succeeded _ st (guarded_modify_invoice u number data)) as [G|G];
      [|exact G].
    unfold succeeded in G. destruct E as [E|E]; rewrite E in G; discriminate G.
Qed.

(** C2.  A Create or Replace request whose customer list holds an entry that
    fails (it is no dict, a field is refused by its column, its items cannot
    be iterated, or an item's quantity or unit_price does not parse) is
    answered with an error and leaves the stored tables as they were: no
    header, customer or item row of the request is kept, and the aggregate
    that a Replace addressed is intact. *)
Theorem failing_entry_persists_nothing (u number : Z) (data : value) (st : database) :
  has_failing_entry data ->
  (snd (serve (create_invoice u data) st) = create_failed /\
   stored (fst (serve (create_invoice u data) st)) = stored st) /\
  ((snd (serve (modify_invoice u number data) st) = not_found \/
    snd (serve (modify_invoice u number data) st) = unexpected) /\
   stored (fst (serve (modify_invoice u number data) st)) = stored st).
Proof. apply rejects_failing_entry. Qed.

(** ** Lookups scoped by user *)

Lemma owned_by_spec u n r :
  owned_by u n r = true <-> user_id r = u /\ invoice_number r = n.
Proof.
  unfold owned_by. rewrite andb_true_iff, !Z.eqb_eq. tauto.
Qed.

Lemma find_owned_none tb u n :
  ~ has_invoice tb u n -> find (owned_by u n) (invoices tb) = None.
Proof.
  intro H. destruct (find (owned_by u n) (invoices tb)) as [r|] eqn:E; [|reflexivity].
  exfalso. apply H. apply find_some in E. destruct E as [Hin Ho].
  apply owned_by_spec in Ho. exists r. tauto.
Qed.

Lemma find_owned_some tb u n r :
  find (owned_by u n) (invoices tb) = Some r ->
  In r (invoices tb) /\ user_id r = u /\ invoice_number r = n.
Proof.
  intro E. apply find_some in E. destruct E as [Hin Ho].
  apply owned_by_spec in Ho. tauto.
Qed.

Lemma close_get_db st : close_connection (get_db st) = st.
Proof. destruct st; reflexivity. Qed.


(** ** Numbering *)

Lemma fold_max_opt_some (l : list Z) (m : Z) :
  fold_left max_opt l (Some m) = Some (fold_left Z.max l m).
Proof.
  revert m. induction l as [|x l IH]; intro m; simpl; [reflexivity|apply IH].
Qed.

Lemma fold_max_is_max (l : list Z) (x : Z) : is_max (fold_left Z.max l x) (x :: l).
Proof.
  revert x. induction l as [|y l IH]; intro x; simpl.
  - split; [left; reflexivity|]. intros z [->|[]]. lia.
  - destruct (IH (Z.max x y)) as [Hin Hle]. split.
    + destruct Hin as [Hin|Hin]; [|right; right; exact Hin].
      rewrite <- Hin. destruct (Z.max_spec x y) as [[_ ->]|[_ ->]]; simpl; auto.
    + intros z Hz.
      assert (Z.max x y <= fold_left Z.max l (Z.max x y)) by (apply Hle; left; reflexivity).
      destruct Hz as [->|[->|Hz]]; [lia|lia|].
      apply Hle. right. exact Hz.
Qed.

Lemma is_max_unique (l : list Z) (a b : Z) : is_max a l -> is_max b l -> a = b.
Proof.
  intros [Ha Hla] [Hb Hlb]. specialize (Hla b Hb). specialize (Hlb a Ha). lia.
Qed.

Lemma select_max_none tb u :
  numbers_of tb u = [] -> fold_left max_opt (numbers_of tb u) None = None.
Proof. intros ->. reflexivity. Qed.

Lemma select_max_some tb u m :
  is_max m (numbers_of tb u) -> fold_left max_opt (numbers_of tb u) None = Some m.
Proof.
  intro H. destruct (numbers_of tb u) as [|x l]; [destruct H as [[] _]|].
  simpl. rewrite fold_max_opt_some. f_equal.
  apply (is_max_unique (x :: l)); [apply fold_max_is_max | exact H].
Qed.

Lemma next_invoice_number_none u c :
  numbers_of (work c) u = [] -> next_invoice_number u c = (Return 1000, c).
Proof.
  intro H. unfold next_invoice_number, select_max_invoice_number, bind, read.
  change (map invoice_number (filter (fun r => user_id r =? u) (invoices (work c))))
    with (numbers_of (work c) u).
  rewrite (select_max_none _ _ H). reflexivity.
Qed.

Lemma next_invoice_number_some u c m :
  is_max m (numbers_of (work c) u) ->
  next_invoice_number u c = (Return (if m =? 0 then 1000 else m + 1), c).
Proof.
  intro H. unfold next_invoice_number, select_max_invoice_number, bind, read.
  change (map invoice_number (filter (fun r => user_id r =? u) (invoices (work c))))
    with (numbers_of (work c) u).
  rewrite (select_max_some _ _ _ H). destruct (m =? 0); reflexivity.
Qed.

(** The policy never fails and reads only. *)
Lemma next_invoice_number_total u c :
  exists n, next_invoice_number u c = (Return n, c).
Proof.
  unfold next_invoice_number, select_max_invoice_number, bind, read, ret.
  eexists. reflexivity.
Qed.

(** ** What a successful Create has stored *)

Lemma bind_return {A B : Type} (m : tx A) (k : A -> tx B) c b c' :
  bind m k c = (Return b, c') ->
  exists a c1, m c = (Return a, c1) /\ k a c1 = (Return b, c').
Proof.
  unfold bind. destruct (m c) as [[a|e] c1]; intro H; [eauto|discriminate H].
Qed.

Lemma lift_return {A : Type} (r : py A) c a c' :
  lift r c = (Return a, c') -> r = Return a /\ c' = c.
Proof. unfold lift. intro H. injection H as -> ->. auto. Qed.

Lemma adapt_return {A : Type} (o : option A) c a c' :
  adapt o c = (Return a, c') -> o = Some a /\ c' = c.
Proof.
  destruct o as [x|]; simpl; unfold ret, raise; intro H;
    [injection H as -> ->; auto | discriminate H].
Qed.

Lemma keeps_invoices_bind {A B : Type} (m : tx A) (k : A -> tx B) :
  keeps_invoices m -> (forall a, keeps_invoices (k a)) -> keeps_invoices (bind m k).
Proof.
  intros Hm Hk c. unfold bind.
  specialize (Hm c). destruct (m c) as [[a|e] c1]; simpl in *.
  - rewrite Hk. exact Hm.
  - exact Hm.
Qed.

Lemma keeps_invoices_for_each {A : Type} (l : list A) (body : A -> tx unit) :
  (forall x, keeps_invoices (body x)) -> keeps_invoices (for_each l body).
Proof.
  intro Hb. induction l as [|x l IH]; simpl.
  - intro c; reflexivity.
  - apply keeps_invoices_bind; [apply Hb | intros _; exact IH].
Qed.

Lemma keeps_invoices_lift {A : Type} (r : py A) : keeps_invoices (lift r).
Proof. intro c; reflexivity. Qed.

Lemma keeps_invoices_ret {A : Type} (a : A) : keeps_invoices (ret a).
Proof. intro c; reflexivity. Qed.

Lemma keeps_invoices_adapt {A : Type} (o : option A) : keeps_invoices (adapt o).
Proof. destruct o; intro c; reflexivity. Qed.

Lemma keeps_invoices_insert_item cid desc qty price :
  keeps_invoices (insert_item cid desc qty price).
Proof.
  unfold insert_item.
  repeat (apply keeps_invoices_bind; [apply keeps_invoices_adapt|intro]).
  apply keeps_invoices_bind; [intro c; reflexivity|intro].
  intro c; reflexivity.
Qed.

Lemma keeps_invoices_insert_customer inv name address email :
  keeps_invoices (insert_customer inv name address email).
Proof.
  unfold insert_customer.
  repeat (apply keeps_invoices_bind; [apply keeps_invoices_adapt|intro]).
  apply keeps_invoices_bind; [intro c; reflexivity|intro].
  apply keeps_invoices_bind; [intro c; reflexivity|intro].
  apply keeps_invoices_ret.
Qed.

Lemma keeps_invoices_add_customers inv data : keeps_invoices (add_customers inv data).
Proof.
  unfold add_customers.
  apply keeps_invoices_bind; [apply keeps_invoices_lift|]. intro cs.
  apply keeps_invoices_for_each. intro c. unfold add_customer.
  apply keeps_invoices_bind; [apply keeps_invoices_lift|]. intros [[name address] email].
  apply keeps_invoices_bind; [apply keeps_invoices_insert_customer|]. intro cid.
  apply keeps_invoices_bind; [apply keeps_invoices_lift|]. intro its.
  apply keeps_invoices_for_each. intro it. unfold add_item.
  apply keeps_invoices_bind; [apply keeps_invoices_lift|]. intros [[desc qty] price].
  apply keeps_invoices_insert_item.
Qed.

(** The row that [insert_invoice] appends, when it returns. *)
Lemma insert_invoice_return number cdate cname caddr cemail total u c id c' :
  insert_invoice number cdate cname caddr cemail total u c = (Return id, c') ->
  exists n d cn ca ce t,
    pg_integer number = Some n /\ pg_text cdate = Some d /\ pg_text cname = Some cn /\
    pg_text caddr = Some ca /\ pg_text cemail = Some ce /\ pg_real total = Some t /\
    existsb (owned_by u n) (invoices (work c)) = false /\
    snapshot c' = snapshot c /\
    invoices (work c') = invoices (work c) ++
      [{| inv_id := id; invoice_number := n; creation_date := d;
          company_name := cn; company_address := ca; company_email := ce;
          total_amount := t; user_id := u |}].
Proof.
  unfold insert_invoice. intro H.
  apply bind_return in H. destruct H as (n & c1 & H1 & H).
  apply adapt_return in H1. destruct H1 as [En ->].
  apply bind_return in H. destruct H as (d & c1 & H1 & H).
  apply adapt_return in H1. destruct H1 as [Ed ->].
  apply bind_return in H. destruct H as (cn & c1 & H1 & H).
  apply adapt_return in H1. destruct H1 as [Ecn ->].
  apply bind_return in H. destruct H as (ca & c1 & H1 & H).
  apply adapt_return in H1. destruct H1 as [Eca ->].
  apply bind_return in H. destruct H as (ce & c1 & H1 & H).
  apply adapt_return in H1. destruct H1 as [Ece ->].
  apply bind_return in H. destruct H as (t & c1 & H1 & H).
  apply adapt_return in H1. destruct H1 as [Et ->].
  exists n, d, cn, ca, ce, t.
  unfold bind, nextval_invoices, read in H. cbv beta iota zeta in H.
  cbn [work] in H.
  destruct (existsb (owned_by u n) (invoices (work c))) eqn:Edup.
  - discriminate H.
  - unfold write, ret in H. injection H as <- <-. cbn.
    repeat split; assumption.
Qed.

Lemma invoice_number_for_return u data c number c' :
  invoice_number_for u data c = (Return number, c') ->
  c' = c /\
  exists supplied,
    py_get data "invoice_number" JNull = Return supplied /\
    (if truthy supplied then number = supplied
     else exists k, next_invoice_number u c = (Return k, c) /\ number = JInt k).
Proof.
  unfold invoice_number_for. intro E.
  apply bind_return in E. destruct E as (supplied & c1 & H1 & E).
  apply lift_return in H1. destruct H1 as [Es ->].
  destruct (truthy supplied) eqn:T; cbn [negb] in E.
  - unfold ret in E. injection E as <- <-. split; [reflexivity|].
    exists supplied. rewrite T. auto.
  - destruct (next_invoice_number_total u c) as (k & Ek).
    unfold bind in E. rewrite Ek in E. unfold ret in E.
    injection E as <- <-. split; [reflexivity|].
    exists supplied. rewrite T. split; [exact Es|]. exists k. auto.
Qed.

Lemma create_invoice_created u data c number c' :
  create_invoice u data c = (Return (Jsonify (created_body number) 201), c') ->
  exists total id n d cn ca ce t,
    invoice_number_for u data c = (Return number, c) /\
    parse_total_amount data = Return total /\
    pg_integer number = Some n /\
    pg_real total = Some t /\
    existsb (owned_by u n) (invoices (work c)) = false /\
    invoices (snapshot c') = invoices (work c) ++
      [{| inv_id := id; invoice_number := n; creation_date := d;
          company_name := cn; company_address := ca; company_email := ce;
          total_amount := t; user_id := u |}].
Proof.
  unfold create_invoice, try_except.
  destruct (create_invoice_try u data c) as [[r|e] c1] eqn:E; intro H.
  2:{ unfold bind, rollback, ret in H. discriminate H. }
  injection H as -> ->. unfold create_invoice_try in E.
  destruct (negb (truthy data)); [discriminate E|].
  apply bind_return in E. destruct E as (number' & c1 & H1 & E).
  destruct (invoice_number_for_return _ _ _ _ _ H1) as [-> _].
  apply bind_return in E. destruct E as (total & c1 & H2 & E).
  apply lift_return in H2. destruct H2 as [Et ->].
  apply bind_return in E. destruct E as (cdate & c1 & H2 & E).
  apply lift_return in H2. destruct H2 as [_ ->].
  apply bind_return in E. destruct E as (cname & c1 & H2 & E).
  apply lift_return in H2. destruct H2 as [_ ->].
  apply bind_return in E. destruct E as (caddr & c1 & H2 & E).
  apply lift_return in H2. destruct H2 as [_ ->].
  apply bind_return in E. destruct E as (cemail & c1 & H2 & E).
  apply lift_return in H2. destruct H2 as [_ ->].
  apply bind_return in E. destruct E as (id & c1 & H2 & E).
  apply insert_invoice_return in H2.
  destruct H2 as (n & d & cn & ca & ce & t & En & _ & _ & _ & _ & Er & Edup & _ & Hrow).
  apply bind_return in E. destruct E as ([] & c2 & H2 & E).
  pose proof (keeps_invoices_add_customers id data c1) as K.
  rewrite H2 in K. cbn [snd] in K.
  unfold bind, commit, ret in E. injection E as E1 E2.
  exists total, id, n, d, cn, ca, ce, t.
  assert (number' = number) as ->.
  { unfold created_body in E1. congruence. }
  subst c'. cbn [snapshot].
  repeat split; try assumption. rewrite K. exact Hrow.
Qed.

Lemma serve_created (view : tx response) st st' number :
  serve view st = (st', Jsonify (created_body number) 201) ->
  exists c, view (get_db st) = (Return (Jsonify (created_body number) 201), c) /\
            stored st' = snapshot c.
Proof.
  unfold serve. destruct (view (get_db st)) as [[r|e] c]; intro H.
  - injection H as <- ->. exists c. auto.
  - discriminate H.
Qed.

Lemma invoice_number_for_policy u data supplied c :
  py_get data "invoice_number" JNull = Return supplied ->
  truthy supplied = false ->
  exists k, next_invoice_number u c = (Return k, c) /\
            invoice_number_for u data c = (Return (JInt k), c).
Proof.
  intros Es T. destruct (next_invoice_number_total u c) as (k & Ek).
  exists k. split; [exact Ek|].
  unfold invoice_number_for, bind, lift. rewrite Es, T. cbn [negb].
  rewrite Ek. reflexivity.
Qed.

Lemma created_by_policy u data supplied st st' number :
  py_get data "invoice_number" JNull = Return supplied ->
  truthy supplied = false ->
  serve (create_invoice u data) st = (st', Jsonify (created_body number) 201) ->
  exists k row,
    next_invoice_number u (get_db st) = (Return k, get_db st) /\
    number = JInt k /\
    pg_integer (JInt k) = Some (invoice_number row) /\
    user_id row = u /\
    invoices (stored st') = invoices (stored st) ++ [row].
Proof.
  intros Es T H. apply serve_created in H. destruct H as (c & H & Hst).
  apply create_invoice_created in H.
  destruct H as (total & id & n & d & cn & ca & ce & t & Hn & _ & En & _ & _ & Hrow).
  destruct (invoice_number_for_policy u data supplied (get_db st) Es T) as (k & Ek & Ef).
  rewrite Ef in Hn. injection Hn as <-.
  exists k, {| inv_id := id; invoice_number := n; creation_date := d;
               company_name := cn; company_address := ca; company_email := ce;
               total_amount := t; user_id := u |}.
  split; [exact Ek|]. split; [reflexivity|].
  rewrite Hst, Hrow. cbn. auto.
Qed.

Lemma exists_max (l : list Z) : l = [] \/ exists m, is_max m l.
Proof.
  destruct l as [|x l]; [left; reflexivity|right].
  exists (fold_left Z.max l x). apply fold_max_is_max.
Qed.

(** C5, amended.  The number that the policy gives to an invoice created
    without one is 1000 when the user has no invoice, and max + 1 when the
    largest number of the user's invoices is max and max is not 0; when that
    largest number is 0 the policy gives 1000 again.  A Create whose body has
    no invoice_number takes the policy's number, answers with it and stores
    the header under it. *)
Theorem numbering_policy (u : Z) (st : database) :
  (numbers_of (stored st) u = [] ->
     next_invoice_number u (get_db st) = (Return 1000, get_db st)) /\
  (forall m, is_max m (numbers_of (stored st) u) -> m <> 0 ->
     next_invoice_number u (get_db st) = (Return (m + 1), get_db st)) /\
  (is_max 0 (numbers_of (stored st) u) ->
     next_invoice_number u (get_db st) = (Return 1000, get_db st)) /\
  (forall kv, dict_lookup kv "invoice_number" = None ->
     exists k, next_invoice_number u (get_db st) = (Return k, get_db st) /\
               invoice_number_for u (JObj kv) (get_db st) = (Return (JInt k), get_db st)) /\
  (forall kv st' number, dict_lookup kv "invoice_number" = None ->
     serve (create_invoice u (JObj kv)) st = (st', Jsonify (created_body number) 201) ->
     exists k row,
       next_invoice_number u (get_db st) = (Return k, get_db st) /\
       number = JInt k /\
       pg_integer (JInt k) = Some (invoice_number row) /\
       user_id row = u /\
       invoices (stored st') = invoices (stored st) ++ [row]).
Proof.
  repeat split.
  - intro H. apply next_invoice_number_none. exact H.
  - intros m H Hm. rewrite (next_invoice_number_some u (get_db st) m H).
    apply Z.eqb_neq in Hm. rewrite Hm. reflexivity.
  - intro H. rewrite (next_invoice_number_some u (get_db st) 0 H). reflexivity.
  - intros kv Hkv. apply (invoice_number_for_policy u (JObj kv) JNull).
    + simpl. rewrite Hkv. reflexivity.
    + reflexivity.
  - intros kv st' number Hkv H.
    apply (created_by_policy u (JObj kv) JNull st st' number); auto.
    simpl. rewrite Hkv. reflexivity.
Qed.

(** C10, amended.  A Create whose body carries a falsy invoice_number (0,
    null, false, an empty string, list or dict) numbers the invoice by the
    policy, as if none had been supplied.  The number so given is 0 exactly
    when the largest number of the user's invoices is -1; otherwise the
    invoice stored by that Create has a number other than 0. *)
Theorem falsy_number_is_absent (u : Z) (kv : list (string * value)) (v : value)
    (st : database) :
  dict_lookup kv "invoice_number" = Some v ->
  truthy v = false ->
  exists k,
    next_invoice_number u (get_db st) = (Return k, get_db st) /\
    invoice_number_for u (JObj kv) (get_db st) = (Return (JInt k), get_db st) /\
    (k = 0 <-> is_max (-1) (numbers_of (stored st) u)) /\
    (forall st' number,
       serve (create_invoice u (JObj kv)) st = (st', Jsonify (created_body number) 201) ->
       number = JInt k /\
       exists row, pg_integer (JInt k) = Some (invoice_number row) /\
                   user_id row = u /\
                   invoices (stored st') = invoices (stored st) ++ [row]).
Proof.
  intros Hkv T.
  assert (Es : py_get (JObj kv) "invoice_number" JNull = Return v).
  { simpl. rewrite Hkv. reflexivity. }
  destruct (invoice_number_for_policy u (JObj kv) v (get_db st) Es T) as (k & Ek & Ef).
  exists k. split; [exact Ek|]. split; [exact Ef|]. split.
  - destruct (exists_max (numbers_of (stored st) u)) as [Hn|(m & Hm)].
    + rewrite (next_invoice_number_none u (get_db st) Hn) in Ek.
      injection Ek as <-. split; [discriminate|].
      intros [Hin _]. change (work (get_db st)) with (stored st) in Hn.
      rewrite Hn in Hin. destruct Hin.
    + rewrite (next_invoice_number_some u (get_db st) m Hm) in Ek.
      injection Ek as <-. split.
      * destruct (Z.eqb_spec m 0) as [E0|Hne]; intro H0; [discriminate H0|].
        assert (E1 : m = -1) by lia. rewrite <- E1. exact Hm.
      * intro H1. rewrite (is_max_unique _ _ _ Hm H1). reflexivity.
  - intros st' number H.
    destruct (created_by_policy u (JObj kv) v st st' number Es T H)
      as (k' & row & Ek' & -> & Hrow).
    rewrite Ek in Ek'. injection Ek' as <-.
    split; [reflexivity|]. exists row. exact Hrow.
Qed.

(** ** A number that the user already has *)

Lemma existsb_owned tb u n :
  has_invoice tb u n -> existsb (owned_by u n) (invoices tb) = true.
Proof.
  intros (r & Hin & Hu & Hn). apply existsb_exists. exists r.
  split; [exact Hin|]. apply owned_by_spec. auto.
Qed.

Lemma insert_invoice_duplicate number cdate cname caddr cemail total u c n :
  pg_integer number = Some n ->
  existsb (owned_by u n) (invoices (work c)) = true ->
  exists e c',
    insert_invoice number cdate cname caddr cemail total u c = (Raise e, c') /\
    (pg_text cdate <> None -> pg_text cname <> None -> pg_text caddr <> None ->
     pg_text cemail <> None -> pg_real total <> None ->
     e = DatabaseError UniqueViolation).
Proof.
  intros En Edup.
  unfold insert_invoice, bind, adapt, ret, raise, nextval_invoices, read.
  rewrite En.
  destruct (pg_text cdate), (pg_text cname), (pg_text caddr), (pg_text cemail),
    (pg_real total);
    cbv beta iota zeta; cbn [work]; try rewrite Edup;
    eexists; eexists; (split; [reflexivity|]);
    intros F1 F2 F3 F4 F5; congruence.
Qed.

Lemma raises_create_duplicate u n kv c :
  has_invoice (work c) u n -> n <> 0 ->
  dict_lookup kv "invoice_number" = Some (JInt n) ->
  pg_integer (JInt n) = Some n ->
  exists e c', create_invoice_try u (JObj kv) c = (Raise e, c').
Proof.
  intros Hhas Hn Hkv En.
  assert (T : truthy (JObj kv) = true).
  { destruct kv; [discriminate Hkv|reflexivity]. }
  assert (Tn : truthy (JInt n) = true).
  { simpl. apply Z.eqb_neq in Hn. rewrite Hn. reflexivity. }
  unfold create_invoice_try. rewrite T. cbn [negb].
  unfold bind at 1. unfold invoice_number_for, bind at 1, lift at 1.
  cbn [py_get]. rewrite Hkv, Tn. cbn [negb ret].
  unfold bind at 1, lift at 1.
  destruct (parse_total_amount (JObj kv)) as [total|e]; [|eauto].
  unfold bind at 1, lift at 1. unfold bind at 1, lift at 1.
  unfold bind at 1, lift at 1. unfold bind at 1, lift at 1.
  unfold bind at 1.
  match goal with |- context [insert_invoice ?a ?b ?x ?y ?z ?t ?w c] =>
    destruct (insert_invoice_duplicate a b x y z t w c n En (existsb_owned _ _ _ Hhas))
      as (e & c' & E & _)
  end.
  rewrite E. eauto.
Qed.

(** C4, amended.  When the user [u] already has an invoice numbered [n] and
    [n] is not 0, a Create by [u] that supplies the integer [n] fails: the
    handler answers 500 "Failed to create invoice" and the stored tables are
    left as they were, so the existing invoice is neither overwritten nor
    duplicated.  The header INSERT is what fails, with a unique violation
    when its other parameters are accepted.  (A supplied 0 is not kept as a
    number: the policy numbers the invoice.) *)
Theorem duplicate_number_is_rejected (u n : Z) (kv : list (string * value))
    (st : database) :
  has_invoice (stored st) u n ->
  n <> 0 ->
  dict_lookup kv "invoice_number" = Some (JInt n) ->
  pg_integer (JInt n) = Some n ->
  snd (serve (create_invoice u (JObj kv)) st) = create_failed /\
  stored (fst (serve (create_invoice u (JObj kv)) st)) = stored st /\
  (forall cdate cname caddr cemail total,
     pg_text cdate <> None -> pg_text cname <> None -> pg_text caddr <> None ->
     pg_text cemail <> None -> pg_real total <> None ->
     exists c', insert_invoice (JInt n) cdate cname caddr cemail total u (get_db st)
                = (Raise (DatabaseError UniqueViolation), c')).
Proof.
  intros Hhas Hn Hkv En.
  assert (E : snd (serve (create_invoice u (JObj kv)) st) = create_failed).
  { unfold serve, create_invoice, try_except.
    destruct (raises_create_duplicate u n kv (get_db st) Hhas Hn Hkv En) as (e & c' & ->).
    reflexivity. }
  split; [exact E|]. split.
  - destruct (serve_guarded created _ st (guarded_create_invoice u (JObj kv))) as [[k G]|G];
      [|exact G].
    rewrite E in G. discriminate G.
  - intros cdate cname caddr cemail total H1 H2 H3 H4 H5.
    destruct (insert_invoice_duplicate (JInt n) cdate cname caddr cemail total u
                (get_db st) n En (existsb_owned _ _ _ Hhas)) as (e & c' & E' & He).
    exists c'. rewrite E'. rewrite (He H1 H2 H3 H4 H5). reflexivity.
Qed.

(** ** Values that do not parse *)


Lemma unparsed_quantity_fails ikv v e :
  dict_lookup ikv "quantity" = Some v -> py_int v = Raise e ->
  item_fails (JObj ikv).
Proof.
  intros Hv He. unfold item_fails, item_params. cbn [py_get py_bind].
  rewrite Hv, He. exact I.
Qed.

Lemma failing_item_entry data cs c its it :
  customers_of data = Return cs -> In c cs ->
  items_of c = Return its -> In it its -> item_fails it ->
  has_failing_entry data.
Proof.
  intros Hcs Hc Hits Hit Hf. exists cs, c. split; [exact Hcs|]. split; [exact Hc|].
  unfold customer_fails. destruct (customer_params c) as [[[name address] email]|e];
    [|exact I].
  right. right. right. rewrite Hits. exists it. auto.
Qed.





(** ** The rows of the items of a request *)











Lemma add_item_return cid it c c' :
  add_item cid it c = (Return tt, c') ->
  exists row, items (work c') = items (work c) ++ [row] /\
              customer_id row = cid /\ item_row_of it row.
Proof.
  unfold add_item. intro H.
  apply bind_return in H. destruct H as ([[desc qty] price] & c1 & H1 & H).
  apply lift_return in H1. destruct H1 as [Ep ->].
  unfold insert_item in H.
  apply bind_return in H. destruct H as (d & c1 & H1 & H).
  apply adapt_return in H1. destruct H1 as [Ed ->].
  apply bind_return in H. destruct H as (q & c1 & H1 & H).
  apply adapt_return in H1. destruct H1 as [Eq ->].
  apply bind_return in H. destruct H as (p & c1 & H1 & H).
  apply adapt_return in H1. destruct H1 as [Epr ->].
  unfold bind, nextval_items, write in H. cbv beta iota zeta in H.
  injection H as <-. cbn [work items].
  eexists. split; [reflexivity|]. split; [reflexivity|].
  exists desc, qty, price. cbn. auto.
Qed.










(** ** Buckets *)

Lemma key_eqb_refl k : key_eqb k k = true.
Proof. destruct k as [s|]; simpl; [apply String.eqb_refl|reflexivity]. Qed.

Lemma key_eqb_eq a b : key_eqb a b = true -> a = b.
Proof.
  destruct a as [x|], b as [y|]; simpl; intro H; try discriminate H; [|reflexivity].
  apply String.eqb_eq in H. congruence.
Qed.

Lemma bucket_setdefault_same key inv d :
  bucket key (setdefault_append key inv d) =
  Some (match bucket key d with Some l => l ++ [inv] | None => [inv] end).
Proof.
  induction d as [|[k l] d IH]; simpl.
  - rewrite key_eqb_refl. reflexivity.
  - destruct (key_eqb k key) eqn:E; simpl; rewrite E; [reflexivity|exact IH].
Qed.

Lemma bucket_setdefault_other key key' inv d :
  key_eqb key key' = false ->
  bucket key' (setdefault_append key inv d) = bucket key' d.
Proof.
  intro Hne. induction d as [|[k l] d IH]; simpl.
  - rewrite Hne. reflexivity.
  - destruct (key_eqb k key) eqn:E; simpl.
    + apply key_eqb_eq in E. subst k. rewrite Hne. reflexivity.
    + rewrite IH. reflexivity.
Qed.

Lemma bucket_setdefault_keeps key key' inv x d b :
  bucket key' d = Some b -> In x b ->
  exists b', bucket key' (setdefault_append key inv d) = Some b' /\ In x b'.
Proof.
  intros Hb Hx. destruct (key_eqb key key') eqn:E.
  - apply key_eqb_eq in E. subst key'.
    rewrite bucket_setdefault_same, Hb. eexists. split; [reflexivity|].
    apply in_or_app. left. exact Hx.
  - rewrite (bucket_setdefault_other _ _ _ _ E). eauto.
Qed.

Lemma categorize_rows_keeps period tb rows :
  forall acc key x b,
    bucket key acc = Some b -> In x b ->
    exists b', bucket key
                 (fold_left (fun categorized row =>
                               setdefault_append (bucket_key period (creation_date row))
                                 (invoice_with_names tb row) categorized) rows acc)
               = Some b' /\ In x b'.
Proof.
  induction rows as [|r rows IH]; intros acc key x b Hb Hx; simpl.
  - eauto.
  - destruct (bucket_setdefault_keeps (bucket_key period (creation_date r)) key
                (invoice_with_names tb r) x acc b Hb Hx) as (b' & Hb' & Hx').
    apply (IH _ key x b' Hb' Hx').
Qed.

Lemma categorize_rows_member period tb rows :
  forall acc row, In row rows ->
    exists b, bucket (bucket_key period (creation_date row))
                (fold_left (fun categorized row =>
                              setdefault_append (bucket_key period (creation_date row))
                                (invoice_with_names tb row) categorized) rows acc)
              = Some b /\ In (invoice_with_names tb row) b.
Proof.
  induction rows as [|r rows IH]; intros acc row Hin; [destruct Hin|].
  simpl. destruct Hin as [->|Hin].
  - apply (categorize_rows_keeps period tb rows _ _ _ _
             (bucket_setdefault_same _ _ acc)).
    destruct (bucket _ acc); [apply in_or_app; right|]; left; reflexivity.
  - apply IH. exact Hin.
Qed.

(** ** Dates written as YYYY-MM-DD are read back *)

Lemma list_ascii_app (a b : string) :
  list_ascii_of_string (a ++ b) = list_ascii_of_string a ++ list_ascii_of_string b.
Proof. induction a as [|c a IH]; simpl; [reflexivity|rewrite IH; reflexivity]. Qed.

Lemma year_field_app l v r rest :
  year_field l = Some (v, r) -> year_field (l ++ rest) = Some (v, r ++ rest).
Proof.
  destruct l as [|a [|b [|c [|d [|e l]]]]]; simpl; try discriminate.
  destruct e as [[] [] [] [] [] [] [] []]; try discriminate.
  destruct (digit a), (digit b), (digit c), (digit d); try discriminate.
  intro H. injection H as <- <-. reflexivity.
Qed.

Lemma all_years_read_back :
  forallb year_reads_back (map Z.of_nat (seq 0 (100 * 100))) = true.
Proof. vm_compute. reflexivity. Qed.

Lemma year_field_pad4 y rest :
  0 <= y <= 9999 ->
  year_field (list_ascii_of_string (pad4 y) ++ "-"%char :: rest) = Some (y, rest).
Proof.
  intro Hy.
  assert (Hc : year_reads_back y = true).
  { apply (proj1 (forallb_forall _ _) all_years_read_back).
    apply in_map_iff. exists (Z.to_nat y). split; [lia|]. apply in_seq. lia. }
  unfold year_reads_back in Hc.
  destruct (year_field (list_ascii_of_string (pad4 y) ++ ["-"%char]))
    as [[y' [|]]|] eqn:E; try discriminate Hc.
  apply Z.eqb_eq in Hc. subst y'.
  apply (year_field_app _ _ _ rest) in E. rewrite <- app_assoc in E. exact E.
Qed.

Lemma month_field_pad2 m rest :
  1 <= m <= 12 ->
  month_field (list_ascii_of_string (pad2 m) ++ "-"%char :: rest) = Some (m, rest).
Proof.
  intro Hm.
  assert (H : m = 1 \/ m = 2 \/ m = 3 \/ m = 4 \/ m = 5 \/ m = 6 \/ m = 7 \/
              m = 8 \/ m = 9 \/ m = 10 \/ m = 11 \/ m = 12) by lia.
  repeat (destruct H as [->|H]; [reflexivity|]). subst m. reflexivity.
Qed.

Lemma day_field_pad2 d :
  1 <= d <= 31 -> day_field (list_ascii_of_string (pad2 d)) = Some (d, []).
Proof.
  intro Hd.
  assert (H : In d (map Z.of_nat (seq 1 31))).
  { apply in_map_iff. exists (Z.to_nat d). split; [lia|]. apply in_seq. lia. }
  simpl in H.
  repeat (destruct H as [<-|H]; [reflexivity|]). destruct H.
Qed.

Lemma days_in_month_le y m : days_in_month y m <= 31.
Proof.
  unfold days_in_month.
  destruct (m =? 2); [destruct (is_leap y); lia|].
  destruct ((m =? 4) || (m =? 6) || (m =? 9) || (m =? 11)); lia.
Qed.

Lemma strptime_strftime (d : date) :
  valid_date d ->
  strptime (Some (pad4 (year d) ++ "-" ++ pad2 (month d) ++ "-" ++ pad2 (day d))%string)
    = Return d.
Proof.
  destruct d as [y m dd]. unfold valid_date. cbn [year month day].
  intros (Hy & Hm & Hd). unfold strptime. cbn [year month day].
  rewrite !list_ascii_app. cbn [list_ascii_of_string app].
  rewrite year_field_pad4 by lia.
  rewrite month_field_pad2 by lia.
  pose proof (days_in_month_le y m).
  rewrite day_field_pad2 by lia.
  replace (1 <=? y) with true by (symmetry; apply Z.leb_le; lia).
  replace (dd <=? days_in_month y m) with true by (symmetry; apply Z.leb_le; lia).
  reflexivity.
Qed.

Lemma all_pad4_four : forallb pad4_is_four (map Z.of_nat (seq 0 (100 * 100))) = true.
Proof. vm_compute. reflexivity. Qed.

Lemma all_pad2_two : forallb pad2_is_two (map Z.of_nat (seq 0 100)) = true.
Proof. vm_compute. reflexivity. Qed.

Lemma pad4_length y : 0 <= y <= 9999 -> String.length (pad4 y) = 4%nat.
Proof.
  intro Hy. apply Nat.eqb_eq.
  apply (proj1 (forallb_forall _ _) all_pad4_four).
  apply in_map_iff. exists (Z.to_nat y). split; [lia|]. apply in_seq. lia.
Qed.

Lemma pad2_length m : 0 <= m <= 99 -> String.length (pad2 m) = 2%nat.
Proof.
  intro Hm. apply Nat.eqb_eq.
  apply (proj1 (forallb_forall _ _) all_pad2_two).
  apply in_map_iff. exists (Z.to_nat m). split; [lia|]. apply in_seq. lia.
Qed.

Lemma str_of_int_pad4 y : 1000 <= y -> str_of_int y = pad4 y.
Proof.
  intro Hy. unfold pad4.
  destruct (Z.ltb_spec y 10); [lia|].
  destruct (Z.ltb_spec y 100); [lia|].
  destruct (Z.ltb_spec y 1000); [lia|]. reflexivity.
Qed.

(** C6, amended.  Categorize puts every invoice of the requesting user in
    the bucket whose key comes from its creation_date.  When the date does
    not parse, the key is the stored value itself.  When it parses to the day
    (y, m, d), the key starts with the decimal number y, which has four
    digits from the year 1000 on and fewer before: it is y-m-d with two
    digits for m and d for period=day, y-m for any period other than day and
    year (month is the default), and y for period=year.  A date stored as
    YYYY-MM-DD parses to the day it names, and from the year 1000 on the key
    for period=day is the stored text. *)
Theorem categorize_bucket_keys (u : Z) (period : option string) (st : database) :
  (exists categorized,
     serve (categorize u period) st = (st, JsonifyDict categorized) /\
     forall row, In row (invoices (stored st)) -> user_id row = u ->
       exists b,
         bucket (bucket_key (requested_period period) (creation_date row)) categorized
           = Some b /\
         In (invoice_with_names (stored st) row) b) /\
  requested_period None = "month"%string /\
  (forall p cdate e, strptime cdate = Raise e -> bucket_key p cdate = cdate) /\
  (forall p cdate d, strptime cdate = Return d ->
     bucket_key "day" cdate =
       Some (str_of_int (year d) ++ "-" ++ pad2 (month d) ++ "-" ++ pad2 (day d))%string /\
     (p <> "year"%string -> p <> "day"%string ->
      bucket_key p cdate = Some (str_of_int (year d) ++ "-" ++ pad2 (month d))%string) /\
     bucket_key "year" cdate = Some (str_of_int (year d)) /\
     (1000 <= year d -> str_of_int (year d) = pad4 (year d))) /\
  (forall d, valid_date d ->
     strptime (Some (pad4 (year d) ++ "-" ++ pad2 (month d) ++ "-" ++ pad2 (day d))%string)
       = Return d /\
     String.length (pad4 (year d)) = 4%nat /\
     String.length (pad2 (month d)) = 2%nat /\
     String.length (pad2 (day d)) = 2%nat /\
     (1000 <= year d ->
      bucket_key "day"
        (Some (pad4 (year d) ++ "-" ++ pad2 (month d) ++ "-" ++ pad2 (day d))%string) =
      Some (pad4 (year d) ++ "-" ++ pad2 (month d) ++ "-" ++ pad2 (day d))%string)).
Proof.
  split; [|split; [reflexivity|split; [|split]]].
  - exists (categorize_rows (requested_period period) (stored st)
              (filter (fun r => user_id r =? u) (invoices (stored st)))).
    split.
    + unfold serve, categorize, bind, read, ret. cbv beta iota zeta.
      change (work (get_db st)) with (stored st). rewrite close_get_db. reflexivity.
    + intros row Hin Hu. unfold categorize_rows.
      apply categorize_rows_member. apply filter_In. split; [exact Hin|].
      apply Z.eqb_eq. exact Hu.
  - intros p cdate e H. unfold bucket_key. rewrite H. reflexivity.
  - intros p cdate d H. unfold bucket_key. rewrite H. cbn [String.eqb].
    repeat split.
    + intros Hy Hd.
      destruct (String.eqb_spec p "year") as [->|_]; [contradiction|].
      destruct (String.eqb_spec p "day") as [->|_]; [contradiction|].
      reflexivity.
    + apply str_of_int_pad4.
  - intros d Hd. pose proof (strptime_strftime d Hd) as R.
    destruct Hd as (Hy & Hm & Hday). pose proof (days_in_month_le (year d) (month d)).
    repeat split.
    + exact R.
    + apply pad4_length. lia.
    + apply pad2_length. lia.
    + apply pad2_length. lia.
    + intro H1000. unfold bucket_key. rewrite R. cbn [String.eqb].
      unfold strftime_Ymd. rewrite (str_of_int_pad4 _ H1000). reflexivity.
Qed.

(** ** Rendering *)

Lemma render_item_ok item :
  description item <> None -> float_of_int (quantity item) <> None ->
  exists calls t,
    render_item item = Return (calls, t) /\
    forall d, description item = Some d -> In (description_cell d) calls.
Proof.
  intros Hd Hq. unfold render_item.
  destruct (float_of_int (quantity item)) as [q|]; [|contradiction].
  destruct (description item) as [d|]; [|contradiction].
  cbn [py_bind]. eexists. eexists. split; [reflexivity|].
  intros d' E. injection E as <-. right. left. reflexivity.
Qed.

Lemma render_items_ok its :
  drawable its ->
  forall subtotal, exists calls t,
    render_items its subtotal = Return (calls, t) /\
    forall item d, In item its -> description item = Some d ->
                   In (description_cell d) calls.
Proof.
  induction its as [|item its IH]; intros Hdraw subtotal.
  - exists [], subtotal. split; [reflexivity|]. intros item d [].
  - destruct (Hdraw item (or_introl eq_refl)) as [Hd Hq].
    destruct (render_item_ok item Hd Hq) as (calls1 & t1 & E1 & H1).
    destruct (IH (fun i Hi => Hdraw i (or_intror Hi)) (float_add subtotal t1))
      as (calls2 & t2 & E2 & H2).
    exists (calls1 ++ calls2), t2. cbn [render_items]. rewrite E1. cbn [py_bind snd fst].
    rewrite E2. cbn [py_bind snd fst]. split; [reflexivity|].
    intros i d [<-|Hi] Ed; apply in_or_app; [left; apply H1|right; apply (H2 i)]; auto.
Qed.

Lemma render_table_ok its :
  drawable its ->
  exists calls,
    render_table its = Return calls /\
    forall item d, In item its -> description item = Some d ->
                   In (description_cell d) calls.
Proof.
  intro Hdraw. destruct its as [|item its].
  - exists []. split; [reflexivity|]. intros i d [].
  - destruct (render_items_ok (item :: its) Hdraw float_zero) as (calls & t & E & H).
    unfold render_table. rewrite E. cbn [py_bind fst snd].
    eexists. split; [reflexivity|]. intros i d Hi Ed.
    apply in_or_app. right. apply in_or_app. left. apply (H i d Hi Ed).
Qed.

Lemma render_customer_ok cust its last :
  drawable its ->
  exists calls,
    render_customer cust its last = Return calls /\
    forall item d, In item its -> description item = Some d ->
                   In (description_cell d) calls.
Proof.
  intro Hdraw. destruct (render_table_ok its Hdraw) as (table & E & H).
  unfold render_customer. rewrite E. cbn [py_bind].
  eexists. split; [reflexivity|]. intros i d Hi Ed.
  apply in_or_app. right. apply in_or_app. right. apply in_or_app. right.
  apply in_or_app. right. apply in_or_app. left. apply (H i d Hi Ed).
Qed.

Lemma render_customers_ok custs :
  (forall cust its, In (cust, its) custs -> drawable its) ->
  exists calls,
    render_customers custs = Return calls /\
    forall cust its item d, In (cust, its) custs -> In item its ->
      description item = Some d -> In (description_cell d) calls.
Proof.
  induction custs as [|[cust its] custs IH]; intro Hdraw.
  - exists []. split; [reflexivity|]. intros cust its item d [].
  - destruct (render_customer_ok cust its (match custs with [] => true | _ => false end)
                (Hdraw cust its (or_introl eq_refl))) as (calls1 & E1 & H1).
    destruct (IH (fun c i Hi => Hdraw c i (or_intror Hi))) as (calls2 & E2 & H2).
    exists (calls1 ++ calls2). cbn [render_customers]. rewrite E1. cbn [py_bind].
    rewrite E2. cbn [py_bind]. split; [reflexivity|].
    intros c i item d [Ec|Hc] Hi Ed; apply in_or_app.
    + injection Ec as <- <-. left. apply (H1 item d Hi Ed).
    + right. apply (H2 c i item d Hc Hi Ed).
Qed.

Lemma fetch_items_reads custs c :
  fetch_items custs c =
  (Return (map (fun cu => (cu, filter (fun i => customer_id i =? cust_id cu)
                                      (items (work c)))) custs), c).
Proof.
  induction custs as [|cu custs IH]; [reflexivity|].
  cbn [fetch_items map]. unfold bind at 1. unfold select_items, read.
  unfold bind at 1. rewrite IH. reflexivity.
Qed.

Lemma fetch_customers_reads id c :
  fetch_customers id c = (Return (aggregate (work c) id), c).
Proof.
  unfold fetch_customers, bind, select_customers, read.
  rewrite fetch_items_reads. reflexivity.
Qed.

Lemma serve_ret (r : response) st : serve (ret r) st = (st, r).
Proof. unfold serve, ret. rewrite close_get_db. reflexivity. Qed.

Lemma serve_no_route n (view : tx response) st :
  n < 0 -> serve (routed n view) st = (st, no_route).
Proof.
  intro H. unfold routed. apply Z.ltb_lt in H. rewrite H. apply serve_ret.
Qed.

Lemma routed_to n (view : tx response) : 0 <= n -> routed n view = view.
Proof.
  intro H. unfold routed. destruct (Z.ltb_spec n 0); [lia | reflexivity].
Qed.

Lemma render_header_some invoice name :
  company_name invoice = Some name -> exists header, render_header invoice = Return header.
Proof. intro H. unfold render_header. rewrite H. eauto. Qed.

Lemma generate_pdf_found u n st invoice header body :
  find (owned_by u n) (invoices (stored st)) = Some invoice ->
  render_header invoice = Return header ->
  render_customers (aggregate (stored st) (inv_id invoice)) = Return body ->
  serve (generate_pdf u n) st =
    (st, SendFile (header ++ body ++ [ln 5]
                   ++ render_total invoice ++ render_footer)
                  ("invoice_" ++ str_of_int n ++ ".pdf")%string).
Proof.
  intros Hfind Hheader Hbody.
  unfold serve, generate_pdf, bind, select_invoice, read.
  change (work (get_db st)) with (stored st). rewrite Hfind.
  rewrite fetch_customers_reads.
  change (work (get_db st)) with (stored st).
  unfold lift, render_invoice. rewrite Hheader, Hbody. cbn [py_bind]. unfold ret.
  rewrite close_get_db. reflexivity.
Qed.

Lemma generate_pdf_no_company u n st invoice :
  find (owned_by u n) (invoices (stored st)) = Some invoice ->
  company_name invoice = None ->
  serve (generate_pdf u n) st = (st, unexpected).
Proof.
  intros Hfind Hnone.
  unfold serve, generate_pdf, bind, select_invoice, read.
  change (work (get_db st)) with (stored st). rewrite Hfind.
  rewrite fetch_customers_reads.
  unfold lift, render_invoice, render_header. rewrite Hnone. cbn [py_bind].
  rewrite close_get_db. reflexivity.
Qed.

Lemma in_aggregate tb id cust item :
  In cust (customers tb) -> invoice_id cust = id ->
  In item (items tb) -> customer_id item = cust_id cust ->
  exists its, In (cust, its) (aggregate tb id) /\ In item its.
Proof.
  intros Hc Hid Hi Hcid.
  exists (filter (fun i => customer_id i =? cust_id cust) (items tb)). split.
  - unfold aggregate. apply in_map_iff. exists cust. split; [reflexivity|].
    apply filter_In. split; [exact Hc|]. apply Z.eqb_eq. exact Hid.
  - apply filter_In. split; [exact Hi|]. apply Z.eqb_eq. exact Hcid.
Qed.

Lemma generate_pdf_reads_only u n st : fst (serve (generate_pdf u n) st) = st.
Proof.
  unfold serve, generate_pdf, bind, select_invoice, read.
  destruct (find (owned_by u n) (invoices (work (get_db st)))) as [invoice|].
  - rewrite fetch_customers_reads. unfold lift.
    destruct (render_invoice invoice _) as [calls|e]; apply close_get_db.
  - apply close_get_db.
Qed.

(** C8.  The description shown for an item in the PDF table is the stored
    description when it has at most 45 characters, and its first 42
    characters followed by three dots when it has more; each item of each
    customer of the invoice gets a cell with that text in the customers'
    part, and the file that is sent holds it.  A file is sent when the
    invoice has a company name; without one the header cannot be drawn and
    the export fails before any item is rendered.  The export leaves the
    store as it is, and an item is stored with the description that was
    supplied, whatever its length. *)
Theorem description_is_truncated_for_display (desc : string) :
  ((String.length desc <= 45)%nat -> display_description desc = desc) /\
  ((45 < String.length desc)%nat ->
     display_description desc = (substring 0 42 desc ++ "...")%string /\
     String.length (substring 0 42 desc) = 42%nat /\
     String.length (display_description desc) = 45%nat) /\
  (forall u n st invoice cust item,
     find (owned_by u n) (invoices (stored st)) = Some invoice ->
     (forall cust its, In (cust, its) (aggregate (stored st) (inv_id invoice)) ->
                       drawable its) ->
     In cust (customers (stored st)) -> invoice_id cust = inv_id invoice ->
     In item (items (stored st)) -> customer_id item = cust_id cust ->
     description item = Some desc ->
     (exists body,
        render_customers (aggregate (stored st) (inv_id invoice)) = Return body /\
        In (cell 90 6 (Some (display_description desc)) 1 0 "L" true) body) /\
     (forall company, company_name invoice = Some company ->
        exists calls name,
          serve (generate_pdf u n) st = (st, SendFile calls name) /\
          In (cell 90 6 (Some (display_description desc)) 1 0 "L" true) calls) /\
     (company_name invoice = None ->
        serve (generate_pdf u n) st = (st, unexpected))) /\
  (forall u n st, fst (serve (generate_pdf u n) st) = st) /\
  (forall cid it c c', add_item cid it c = (Return tt, c') ->
     exists row supplied qty price,
       items (work c') = items (work c) ++ [row] /\
       item_params it = Return (supplied, qty, price) /\
       pg_text supplied = Some (description row)).
Proof.
  assert (L : forall s n, (n <= String.length s)%nat ->
                String.length (substring 0 n s) = n).
  { intros s n. revert s. induction n as [|n IH]; intros [|c s] H; simpl in *;
      try reflexivity; try lia. rewrite IH; [reflexivity|lia]. }
  assert (A : forall a b, String.length (a ++ b) = (String.length a + String.length b)%nat).
  { intros a b. induction a as [|c a IH]; simpl; [reflexivity|rewrite IH; reflexivity]. }
  repeat split.
  - intro H. unfold display_description.
    destruct (Z.ltb_spec 45 (Z.of_nat (String.length desc))); [lia|reflexivity].
  - unfold display_description.
    destruct (Z.ltb_spec 45 (Z.of_nat (String.length desc))); [reflexivity|lia].
  - apply L. lia.
  - unfold display_description.
    destruct (Z.ltb_spec 45 (Z.of_nat (String.length desc))); [|lia].
    rewrite A, L by lia. reflexivity.
  - destruct (render_customers_ok _ H0) as (body & Hbody & Hcells).
    destruct (in_aggregate (stored st) (inv_id invoice) cust item H1 H2 H3 H4)
      as (its & Hagg & Hin).
    exists body. split; [exact Hbody|].
    apply (Hcells cust its item desc Hagg Hin H5).
  - intros company Hcompany.
    destruct (render_customers_ok _ H0) as (body & Hbody & Hcells).
    destruct (in_aggregate (stored st) (inv_id invoice) cust item H1 H2 H3 H4)
      as (its & Hagg & Hin).
    destruct (render_header_some invoice company Hcompany) as (header & Hheader).
    eexists. eexists. split.
    + apply (generate_pdf_found u n st invoice header body H Hheader Hbody).
    + apply in_or_app. right. apply in_or_app. left.
      apply (Hcells cust its item desc Hagg Hin H5).
  - intro Hnone. apply (generate_pdf_no_company u n st invoice); assumption.
  - apply generate_pdf_reads_only.
  - intros cid it c c' H. apply add_item_return in H.
    destruct H as (row & Hrow & _ & supplied & qty & price & Ep & Ed & _).
    exists row, supplied, qty, price. auto.
Qed.

End Properties.

(* ================================================================== *)
(** * The grand total of the PDF *)
(* ================================================================== *)

Lemma all_pad2_digits : forallb pad2_is_digits (map Z.of_nat (seq 0 100)) = true.
Proof. vm_compute. reflexivity. Qed.

Lemma pad2_two_digits k :
  0 <= k < 100 ->
  exists a b, pad2 k = String a (String b EmptyString) /\
              digit a <> None /\ digit b <> None.
Proof.
  intro Hk.
  assert (H : pad2_is_digits k = true).
  { apply (proj1 (forallb_forall _ _) all_pad2_digits).
    apply in_map_iff. exists (Z.to_nat k). split; [lia|]. apply in_seq. lia. }
  unfold pad2_is_digits in H.
  destruct (pad2 k) as [|a [|b [|c rest]]]; try discriminate H.
  destruct (digit a) eqn:Ea; [|discriminate H].
  destruct (digit b) eqn:Eb; [|discriminate H].
  exists a, b. repeat split; congruence.
Qed.

Lemma div_half_even_nonneg a b : 0 <= a -> 0 < b -> 0 <= Ref.div_half_even a b.
Proof.
  intros Ha Hb. unfold Ref.div_half_even.
  assert (Hq : 0 <= a / b) by (apply Z.div_pos; lia).
  destruct (2 * (a mod b) ?= b); [destruct (Z.even (a / b))| |]; lia.
Qed.

Lemma hundredths_two_decimals (s : bool) (n : Z) :
  0 <= n ->
  two_decimals ((if s then "-" else EmptyString) ++ str_of_int (n / 100) ++ "."
                ++ pad2 (n mod 100))%string.
Proof.
  intro Hn.
  destruct (pad2_two_digits (n mod 100)) as (a & b & E & Ha & Hb).
  { apply Z.mod_pos_bound. lia. }
  exists (if s then "-" else EmptyString)%string, (n / 100), a, b.
  split; [destruct s; auto|]. split; [apply Z.div_pos; lia|].
  split; [exact Ha|]. split; [exact Hb|]. rewrite E. reflexivity.
Qed.

Lemma format_2f_two_decimals (x : spec_float) :
  match x with
  | S754_nan => Ref.format_2f x = "nan"%string
  | S754_infinity s => Ref.format_2f x = (if s then "-inf" else "inf")%string
  | _ => two_decimals (Ref.format_2f x)
  end.
Proof.
  destruct x as [s|s| |s m e]; try reflexivity.
  - exists (if s then "-" else EmptyString)%string, 0, "0"%char, "0"%char.
    split; [destruct s; auto|]. split; [lia|].
    split; [discriminate|]. split; [discriminate|]. destruct s; reflexivity.
  - unfold Ref.format_2f. apply hundredths_two_decimals.
    destruct (Z.leb_spec 0 e) as [He|He].
    + assert (0 < 2 ^ e) by (apply Z.pow_pos_nonneg; lia).
      apply Z.mul_nonneg_nonneg; [apply Z.mul_nonneg_nonneg|]; lia.
    + apply div_half_even_nonneg; [lia|].
      apply Z.pow_pos_nonneg; lia.
Qed.

(** C7, amended.  When the PDF of an invoice is produced (the route carries
    its number, it has a company name and its items can be drawn), the
    grand-total band shows a dollar sign and the [.2f] text of the
    total_amount stored in the header row.  The band comes after the
    customers' tables, whatever they contain: it is not computed from the
    items.  For a finite total the text is a decimal number with exactly two
    digits behind the point; for a total that is not a number or is infinite
    it is nan, inf or -inf. *)
Theorem grand_total_is_stored_total (u n : Z) (st : database) (invoice : invoice_row)
    (company : string) :
  0 <= n ->
  find (owned_by u n) (invoices (stored st)) = Some invoice ->
  company_name invoice = Some company ->
  (forall cust its, In (cust, its) (aggregate (stored st) (inv_id invoice)) ->
                    drawable its) ->
  (exists header body,
     render_header invoice = Return header /\
     render_customers (aggregate (stored st) (inv_id invoice)) = Return body /\
     serve (routed n (generate_pdf u n)) st =
       (st, SendFile (header ++ body ++
                      [ln 5;
                       set_fill_color 51 51 153;
                       set_text_color 255 255 255;
                       set_font "Arial" "B" 14;
                       cell 140 10 (Some "TOTAL AMOUNT:"%string) 0 0 "R" true;
                       cell 30 10 (Some ("$" ++ format_2f (total_amount invoice))%string)
                            0 1 "R" true]
                      ++ render_footer)
                     ("invoice_" ++ str_of_int n ++ ".pdf")%string)) /\
  match total_amount invoice with
  | S754_nan => format_2f (total_amount invoice) = "nan"%string
  | S754_infinity s =>
      format_2f (total_amount invoice) = (if s then "-inf" else "inf")%string
  | _ => two_decimals (format_2f (total_amount invoice))
  end.
Proof.
  intros Hn Hfind Hcompany Hdraw. split.
  - destruct (render_customers_ok _ Hdraw) as (body & Hbody & _).
    destruct (render_header_some invoice company Hcompany) as (header & Hheader).
    exists header, body. split; [exact Hheader|]. split; [exact Hbody|].
    rewrite (routed_to n _ Hn).
    rewrite (generate_pdf_found u n st invoice header body Hfind Hheader Hbody).
    reflexivity.
  - exact (format_2f_two_decimals (total_amount invoice)).
Qed.

(* ================================================================== *)
(** * More properties of the invoice store *)
(* ================================================================== *)

Section Coverage.
Context {FT : FloatType} {RT : Runtime}.

Notation "x <- m ;; k" := (bind m (fun x => k))
  (at level 61, m at next level, right associativity).
Notation "m ;;; k" := (bind m (fun _ => k))
  (at level 61, right associativity).

(** ** Sequences only grow *)

Lemma seqs_le_refl q : seqs_le q q.
Proof. unfold seqs_le. lia. Qed.

Lemma seqs_le_trans q1 q2 q3 : seqs_le q1 q2 -> seqs_le q2 q3 -> seqs_le q1 q3.
Proof. unfold seqs_le. lia. Qed.

Lemma grows_ret {A : Type} (a : A) : grows (ret a).
Proof. intro c. apply seqs_le_refl. Qed.

Lemma grows_raise {A : Type} (e : pyexc) : grows (@raise _ A e).
Proof. intro c. apply seqs_le_refl. Qed.

Lemma grows_lift {A : Type} (r : py A) : grows (lift r).
Proof. intro c. apply seqs_le_refl. Qed.

Lemma grows_read {A : Type} (q : tables -> A) : grows (read q).
Proof. intro c. apply seqs_le_refl. Qed.

Lemma grows_write (f : tables -> tables) : grows (write f).
Proof. intro c. apply seqs_le_refl. Qed.

Lemma grows_commit : grows commit.
Proof. intro c. apply seqs_le_refl. Qed.

Lemma grows_rollback : grows rollback.
Proof. intro c. apply seqs_le_refl. Qed.

Lemma grows_adapt {A : Type} (o : option A) : grows (adapt o).
Proof. destruct o; intro c; apply seqs_le_refl. Qed.

Lemma grows_nextval_invoices : grows nextval_invoices.
Proof. intro c. unfold seqs_le. cbn. lia. Qed.

Lemma grows_nextval_customers : grows nextval_customers.
Proof. intro c. unfold seqs_le. cbn. lia. Qed.

Lemma grows_nextval_items : grows nextval_items.
Proof. intro c. unfold seqs_le. cbn. lia. Qed.

Lemma grows_bind {A B : Type} (m : tx A) (k : A -> tx B) :
  grows m -> (forall a, grows (k a)) -> grows (bind m k).
Proof.
  intros Hm Hk c. unfold bind.
  specialize (Hm c). destruct (m c) as [[a|e] c1]; cbn [snd] in *.
  - eapply seqs_le_trans; [exact Hm | apply Hk].
  - exact Hm.
Qed.

Lemma grows_for_each {A : Type} (l : list A) (body : A -> tx unit) :
  (forall x, grows (body x)) -> grows (for_each l body).
Proof.
  intro Hb. induction l as [|x l IH]; simpl.
  - apply grows_ret.
  - apply grows_bind; [apply Hb | intros _; exact IH].
Qed.

Lemma grows_try_except {A : Type} (body : tx A) (handler : pyexc -> tx A) :
  grows body -> (forall e, grows (handler e)) -> grows (try_except body handler).
Proof.
  intros Hb Hh c. unfold try_except.
  specialize (Hb c). destruct (body c) as [[a|e] c1]; cbn [snd] in *.
  - exact Hb.
  - eapply seqs_le_trans; [exact Hb | apply Hh].
Qed.

Create HintDb grows.
#[local] Hint Resolve grows_ret grows_raise grows_lift grows_read grows_write
  grows_commit grows_rollback grows_adapt grows_nextval_invoices
  grows_nextval_customers grows_nextval_items : grows.

Ltac grows_steps :=
  repeat first
    [ apply grows_bind; [ | intro ]
    | apply grows_for_each; intro
    | solve [ auto with grows ]
    | match goal with
      | |- grows (if ?b then _ else _) => destruct b
      | |- grows (let '(_, _) := ?p in _) => destruct p
      | |- grows (match ?p with (_, _) => _ end) => destruct p
      | |- grows (match ?o with Some _ => _ | None => _ end) => destruct o
      end ].

Lemma grows_add_customers inv data : grows (add_customers inv data).
Proof.
  unfold add_customers, add_customer, add_item, insert_customer, insert_item.
  grows_steps.
Qed.

Lemma grows_delete_steps id :
  grows (custs <- select_customers id ;;
         for_each (map cust_id custs) delete_items ;;;
         delete_customers id).
Proof. unfold select_customers, delete_items, delete_customers. grows_steps. Qed.

Lemma grows_create_invoice u data : grows (create_invoice u data).
Proof.
  unfold create_invoice. apply grows_try_except; [|intro; grows_steps].
  unfold create_invoice_try, invoice_number_for, next_invoice_number,
    select_max_invoice_number, insert_invoice.
  destruct (negb (truthy data)); [auto with grows|].
  grows_steps; apply grows_add_customers.
Qed.

Lemma grows_modify_invoice u number data : grows (modify_invoice u number data).
Proof.
  unfold modify_invoice, select_invoice, replace_invoice, update_invoice,
    select_customers, delete_items, delete_customers.
  destruct (negb (truthy data)); [auto with grows|].
  grows_steps; apply grows_add_customers.
Qed.

Lemma grows_delete_invoice u number : grows (delete_invoice u number).
Proof.
  unfold delete_invoice, select_invoice, select_customers, delete_items,
    delete_customers, delete_invoice_row.
  grows_steps.
Qed.

Lemma serve_grows (view : tx response) st :
  grows view -> seqs_le (seqs st) (seqs (fst (serve view st))).
Proof.
  intro H. unfold serve. specialize (H (get_db st)).
  destruct (view (get_db st)) as [[r|e] c]; exact H.
Qed.

(** ** What the insertion loops leave *)

Lemma handed_out_shift (lo : Z) (n : nat) (a m : nat) :
  map (fun k => lo + Z.of_nat k) (seq (a + n) m) =
  map (fun k => lo + Z.of_nat n + Z.of_nat k) (seq a m).
Proof.
  revert a. induction m as [|m IH]; intro a; [reflexivity|].
  cbn [seq map]. f_equal; [lia|]. exact (IH (S a)).
Qed.

Lemma handed_out_app (lo : Z) (n m : nat) :
  handed_out lo (n + m) = handed_out lo n ++ handed_out (lo + Z.of_nat n) m.
Proof.
  unfold handed_out. rewrite seq_app, map_app. f_equal.
  apply handed_out_shift.
Qed.

Lemma handed_out_in (lo : Z) (n : nat) (x : Z) :
  In x (handed_out lo n) <-> lo < x <= lo + Z.of_nat n.
Proof.
  unfold handed_out. rewrite in_map_iff. split.
  - intros (k & <- & Hk). apply in_seq in Hk. lia.
  - intro H. exists (Z.to_nat (x - lo)). split; [lia|]. apply in_seq. lia.
Qed.

Lemma handed_out_nodup (lo : Z) (n : nat) : NoDup (handed_out lo n).
Proof.
  unfold handed_out. apply Finite.Injective_map_NoDup; [|apply seq_NoDup].
  intros a b H. lia.
Qed.

Lemma appended_refl c : appended [] [] c c.
Proof.
  constructor; cbn; try reflexivity; try (rewrite app_nil_r; reflexivity); lia.
Qed.

Lemma appended_trans cs1 is1 cs2 is2 c c1 c2 :
  appended cs1 is1 c c1 -> appended cs2 is2 c1 c2 ->
  appended (cs1 ++ cs2) (is1 ++ is2) c c2.
Proof.
  intros [A1 A2 A3 A4 A5 A6 A7 A8 A9] [B1 B2 B3 B4 B5 B6 B7 B8 B9].
  constructor.
  - congruence.
  - congruence.
  - rewrite B3, A3, app_assoc. reflexivity.
  - rewrite B4, A4, app_assoc. reflexivity.
  - congruence.
  - rewrite B6, A6, length_app. lia.
  - rewrite B7, A7, length_app. lia.
  - rewrite map_app, length_app, handed_out_app, A8, B8, A6. reflexivity.
  - rewrite map_app, length_app, handed_out_app, A9, B9, A7. reflexivity.
Qed.

Lemma insert_item_effect cid desc qty price c c' :
  insert_item cid desc qty price c = (Return tt, c') ->
  exists row, appended [] [row] c c' /\ customer_id row = cid /\
    pg_text desc = Some (description row) /\
    pg_integer (JInt qty) = Some (quantity row) /\
    pg_real price = Some (unit_price row).
Proof.
  unfold insert_item. intro H.
  apply bind_return in H. destruct H as (d & c1 & H1 & H).
  apply adapt_return in H1. destruct H1 as [Ed ->].
  apply bind_return in H. destruct H as (q & c1 & H1 & H).
  apply adapt_return in H1. destruct H1 as [Eq ->].
  apply bind_return in H. destruct H as (p & c1 & H1 & H).
  apply adapt_return in H1. destruct H1 as [Epr ->].
  unfold bind, nextval_items, write in H. cbv beta iota zeta in H.
  injection H as <-.
  eexists {| item_id := _; customer_id := cid; description := d;
             quantity := q; unit_price := p |}.
  split; [|cbn; auto].
  constructor; cbn; try reflexivity; try (rewrite app_nil_r; reflexivity); try lia.
Qed.

Lemma add_item_effect cid it c c' :
  add_item cid it c = (Return tt, c') ->
  exists row, appended [] [row] c c' /\ customer_id row = cid /\ item_row_of it row.
Proof.
  unfold add_item. intro H.
  apply bind_return in H. destruct H as ([[desc qty] price] & c1 & H1 & H).
  apply lift_return in H1. destruct H1 as [Ep ->].
  apply insert_item_effect in H.
  destruct H as (row & Happ & Hc & Hd & Hq & Hp).
  exists row. split; [exact Happ|]. split; [exact Hc|].
  exists desc, qty, price. auto.
Qed.

Lemma add_items_effect cid its c c' :
  for_each its (add_item cid) c = (Return tt, c') ->
  exists rows, appended [] rows c c' /\
    Forall2 (fun it row => item_row_of it row /\ customer_id row = cid) its rows.
Proof.
  revert c. induction its as [|it its IH]; intros c H.
  - cbn in H. unfold ret in H. injection H as <-.
    exists []. split; [apply appended_refl | constructor].
  - cbn [for_each] in H.
    apply bind_return in H. destruct H as ([] & c1 & H1 & H).
    apply add_item_effect in H1. destruct H1 as (row & A1 & Hc & Hof).
    apply IH in H. destruct H as (rows & A2 & Hall).
    exists (row :: rows). split.
    + exact (appended_trans [] [row] [] rows c c1 c' A1 A2).
    + constructor; auto.
Qed.

Lemma insert_customer_effect inv name address email c cid c' :
  insert_customer inv name address email c = (Return cid, c') ->
  exists row, appended [row] [] c c' /\ cust_id row = cid /\ invoice_id row = inv /\
    pg_text name = Some (cust_name row) /\
    pg_text address = Some (cust_address row) /\
    pg_text email = Some (cust_email row).
Proof.
  unfold insert_customer. intro H.
  apply bind_return in H. destruct H as (n & c1 & H1 & H).
  apply adapt_return in H1. destruct H1 as [En ->].
  apply bind_return in H. destruct H as (a & c1 & H1 & H).
  apply adapt_return in H1. destruct H1 as [Ea ->].
  apply bind_return in H. destruct H as (e & c1 & H1 & H).
  apply adapt_return in H1. destruct H1 as [Ee ->].
  unfold bind, nextval_customers, write, ret in H. cbv beta iota zeta in H.
  injection H as <- <-.
  eexists {| cust_id := _; invoice_id := inv; cust_name := n;
             cust_address := a; cust_email := e |}.
  split; [|cbn; auto 6].
  constructor; cbn; try reflexivity; try (rewrite app_nil_r; reflexivity); try lia.
Qed.

Lemma add_customer_effect inv cu c c' :
  add_customer inv cu c = (Return tt, c') ->
  exists b, appended [fst b] (snd b) c c' /\ block_of inv cu b.
Proof.
  unfold add_customer. intro H.
  apply bind_return in H. destruct H as ([[name address] email] & c1 & H1 & H).
  apply lift_return in H1. destruct H1 as [Ep ->].
  apply bind_return in H. destruct H as (cid & c1 & H1 & H).
  apply insert_customer_effect in H1.
  destruct H1 as (row & A1 & Hid & Hinv & Hn & Ha & He).
  apply bind_return in H. destruct H as (its & c2 & H2 & H).
  apply lift_return in H2. destruct H2 as [Eits ->].
  apply add_items_effect in H. destruct H as (rows & A2 & Hall).
  exists (row, rows). cbn [fst snd]. split.
  - exact (appended_trans [row] [] [] rows c c1 c' A1 A2).
  - split.
    + split; [exact Hinv|]. exists name, address, email. auto.
    + exists its. split; [exact Eits|]. subst cid. exact Hall.
Qed.

Lemma add_customer_loop_effect inv cs c c' :
  for_each cs (add_customer inv) c = (Return tt, c') ->
  exists bs, appended (map fst bs) (List.concat (map snd bs)) c c' /\
             Forall2 (block_of inv) cs bs.
Proof.
  revert c. induction cs as [|cu cs IH]; intros c H.
  - cbn in H. unfold ret in H. injection H as <-.
    exists []. split; [apply appended_refl | constructor].
  - cbn [for_each] in H.
    apply bind_return in H. destruct H as ([] & c1 & H1 & H).
    apply add_customer_effect in H1. destruct H1 as (b & A1 & Hb).
    apply IH in H. destruct H as (bs & A2 & Hall).
    exists (b :: bs). split.
    + cbn [map List.concat].
      exact (appended_trans [fst b] (snd b) _ _ c c1 c' A1 A2).
    + constructor; auto.
Qed.

Lemma add_customers_effect inv data c c' :
  add_customers inv data c = (Return tt, c') ->
  exists bs, appended (map fst bs) (List.concat (map snd bs)) c c' /\
             blocks_of inv data bs.
Proof.
  unfold add_customers. intro H.
  apply bind_return in H. destruct H as (cs & c1 & H1 & H).
  apply lift_return in H1. destruct H1 as [Ecs ->].
  apply add_customer_loop_effect in H. destruct H as (bs & A & Hall).
  exists bs. split; [exact A|]. exists cs. auto.
Qed.

(** ** Well-formed tables *)

Lemma well_formed_grows tb q q' :
  well_formed tb q -> seqs_le q q' -> well_formed tb q'.
Proof.
  intros [W1 W2 W3 W4 W5 W6 W7 W8 W9] (L1 & L2 & L3).
  constructor; auto.
  - intros r Hr. specialize (W2 r Hr). lia.
  - intros c Hc. specialize (W4 c Hc). lia.
  - intros i Hi. specialize (W6 i Hi). lia.
Qed.

(** Rows that are kept by a filter still have distinct keys. *)
Lemma distinct_keys_kept {Row Key : Type} (key : Row -> Key) (keep : Row -> bool)
    (rows : list Row) :
  NoDup (map key rows) -> NoDup (map key (filter keep rows)).
Proof.
  induction rows as [|row rows IH]; cbn; intro Hrows; [constructor|].
  apply NoDup_cons_iff in Hrows. destruct Hrows as [Hrow Hrest].
  destruct (keep row); cbn; [|exact (IH Hrest)].
  apply NoDup_cons; [|exact (IH Hrest)].
  intro K. apply Hrow. apply in_map_iff in K. destruct K as (other & E & Hother).
  apply filter_In in Hother. apply in_map_iff. exists other. tauto.
Qed.

Lemma nodup_fresh_app (old new : list Z) (lo : Z) :
  NoDup old -> NoDup new ->
  (forall x, In x old -> x <= lo) -> (forall x, In x new -> lo < x) ->
  NoDup (old ++ new).
Proof.
  intros H1 H2 Hold Hnew. apply NoDup_app; auto.
  intros a Ha Hb. specialize (Hold a Ha). specialize (Hnew a Hb). lia.
Qed.

Lemma in_map_bound {A : Type} (f : A -> Z) (l : list A) (hi : Z) :
  (forall x, In x l -> f x <= hi) -> forall y, In y (map f l) -> y <= hi.
Proof.
  intros H y Hy. apply in_map_iff in Hy. destruct Hy as (x & <- & Hx). auto.
Qed.

Lemma blocks_invoice inv cs bs :
  Forall2 (block_of inv) cs bs ->
  forall cu, In cu (map fst bs) -> invoice_id cu = inv.
Proof.
  induction 1 as [|c b cs bs Hb _ IH]; cbn; intros cu Hin; [destruct Hin|].
  destruct Hin as [<-|Hin]; [|auto].
  destruct Hb as [[Hinv _] _]. exact Hinv.
Qed.

Lemma block_items_customer (cid : Z) (its : list value) (rows : list item_row) :
  Forall2 (fun it row => item_row_of it row /\ customer_id row = cid) its rows ->
  forall i, In i rows -> customer_id i = cid.
Proof.
  induction 1 as [|it row its rows [_ Hc] _ IH]; cbn; intros i Hin; [destruct Hin|].
  destruct Hin as [<-|Hin]; auto.
Qed.

Lemma blocks_customer inv cs bs :
  Forall2 (block_of inv) cs bs ->
  forall b i, In b bs -> In i (snd b) -> customer_id i = cust_id (fst b).
Proof.
  induction 1 as [|c b0 cs bs Hb _ IH]; cbn; intros b i Hin Hi; [destruct Hin|].
  destruct Hin as [<-|Hin]; [|eauto].
  destruct Hb as [_ (its & _ & Hall)].
  exact (block_items_customer _ _ _ Hall i Hi).
Qed.

Lemma blocks_item_ref inv cs bs :
  Forall2 (block_of inv) cs bs ->
  forall i, In i (List.concat (map snd bs)) ->
  In (customer_id i) (map cust_id (map fst bs)).
Proof.
  intros H i Hi. apply in_concat in Hi. destruct Hi as (rows & Hrows & Hi).
  apply in_map_iff in Hrows. destruct Hrows as (b & <- & Hb).
  rewrite (blocks_customer inv cs bs H b i Hb Hi).
  apply in_map. apply in_map. exact Hb.
Qed.

Lemma well_formed_appended custs its c c' :
  well_formed (work c) (conn_seqs c) ->
  appended custs its c c' ->
  (forall cu, In cu custs -> In (invoice_id cu) (map inv_id (invoices (work c)))) ->
  (forall i, In i its -> In (customer_id i) (map cust_id custs)) ->
  well_formed (work c') (conn_seqs c').
Proof.
  intros [W1 W2 W3 W4 W5 W6 W7 W8 W9] [A1 A2 A3 A4 A5 A6 A7 A8 A9] Hc Hi.
  constructor.
  - rewrite A2. exact W1.
  - rewrite A2, A5. exact W2.
  - rewrite A3, map_app, A8.
    apply (nodup_fresh_app _ _ (customers_id_seq (conn_seqs c))); auto.
    + apply handed_out_nodup.
    + apply in_map_bound. exact W4.
    + intros x Hx. apply handed_out_in in Hx. lia.
  - rewrite A3, A6. intros cu Hcu. apply in_app_or in Hcu. destruct Hcu as [Hcu|Hcu].
    + specialize (W4 cu Hcu). lia.
    + assert (K : In (cust_id cu) (map cust_id custs)) by (apply in_map; exact Hcu).
      rewrite A8 in K. apply handed_out_in in K. lia.
  - rewrite A4, map_app, A9.
    apply (nodup_fresh_app _ _ (items_id_seq (conn_seqs c))); auto.
    + apply handed_out_nodup.
    + apply in_map_bound. exact W6.
    + intros x Hx. apply handed_out_in in Hx. lia.
  - rewrite A4, A7. intros i Hin. apply in_app_or in Hin. destruct Hin as [Hin|Hin].
    + specialize (W6 i Hin). lia.
    + assert (K : In (item_id i) (map item_id its)) by (apply in_map; exact Hin).
      rewrite A9 in K. apply handed_out_in in K. lia.
  - rewrite A2. exact W7.
  - rewrite A3, A2. intros cu Hcu. apply in_app_or in Hcu. destruct Hcu; auto.
  - rewrite A4, A3, map_app. intros i Hin. apply in_or_app.
    apply in_app_or in Hin. destruct Hin; auto.
Qed.

Lemma well_formed_blocks inv cs bs c c' :
  well_formed (work c) (conn_seqs c) ->
  In inv (map inv_id (invoices (work c))) ->
  Forall2 (block_of inv) cs bs ->
  appended (map fst bs) (List.concat (map snd bs)) c c' ->
  well_formed (work c') (conn_seqs c').
Proof.
  intros W Hinv Hbs A.
  apply (well_formed_appended _ _ c c' W A).
  - intros cu Hcu. rewrite (blocks_invoice inv cs bs Hbs cu Hcu). exact Hinv.
  - apply (blocks_item_ref inv cs bs Hbs).
Qed.

Lemma existsb_owned_false tb u n :
  existsb (owned_by u n) (invoices tb) = false ->
  ~ In (u, n) (map (fun r => (user_id r, invoice_number r)) (invoices tb)).
Proof.
  intros H K. apply in_map_iff in K. destruct K as (r & E & Hr).
  injection E as Eu En.
  assert (X : existsb (owned_by u n) (invoices tb) = true).
  { apply existsb_exists. exists r. split; [exact Hr|].
    apply owned_by_spec. auto. }
  congruence.
Qed.

Lemma well_formed_insert_invoice tb q row :
  well_formed tb q ->
  inv_id row = invoices_id_seq q + 1 ->
  existsb (owned_by (user_id row) (invoice_number row)) (invoices tb) = false ->
  well_formed
    {| invoices := invoices tb ++ [row]; customers := customers tb; items := items tb |}
    {| invoices_id_seq := invoices_id_seq q + 1;
       customers_id_seq := customers_id_seq q;
       items_id_seq := items_id_seq q |}.
Proof.
  intros [W1 W2 W3 W4 W5 W6 W7 W8 W9] Hid Hdup.
  constructor; cbn [invoices customers items invoices_id_seq customers_id_seq items_id_seq];
    auto.
  - rewrite map_app. cbn [map].
    apply (nodup_fresh_app _ _ (invoices_id_seq q)); auto.
    + repeat constructor. intros [].
    + apply in_map_bound. exact W2.
    + intros x [<-|[]]. lia.
  - intros r Hr. apply in_app_or in Hr. destruct Hr as [Hr|[<-|[]]].
    + specialize (W2 r Hr). lia.
    + lia.
  - rewrite map_app. cbn [map]. apply NoDup_app; auto.
    + repeat constructor. intros [].
    + intros a Ha [<-|[]]. revert Ha. apply existsb_owned_false. exact Hdup.
  - intros cu Hcu. rewrite map_app. apply in_or_app. left. auto.
Qed.

Lemma well_formed_update_invoice tb q (f : invoice_row -> invoice_row) :
  (forall r, inv_id (f r) = inv_id r /\ user_id (f r) = user_id r /\
             invoice_number (f r) = invoice_number r) ->
  well_formed tb q ->
  well_formed
    {| invoices := map f (invoices tb); customers := customers tb; items := items tb |} q.
Proof.
  intros Hf [W1 W2 W3 W4 W5 W6 W7 W8 W9].
  assert (E1 : map inv_id (map f (invoices tb)) = map inv_id (invoices tb)).
  { rewrite map_map. apply map_ext. intro r. apply Hf. }
  assert (E2 : map (fun r => (user_id r, invoice_number r)) (map f (invoices tb)) =
               map (fun r => (user_id r, invoice_number r)) (invoices tb)).
  { rewrite map_map. apply map_ext. intro r.
    destruct (Hf r) as (_ & -> & ->). reflexivity. }
  constructor; cbn [invoices customers items]; auto.
  - rewrite E1. exact W1.
  - intros r Hr. apply in_map_iff in Hr. destruct Hr as (r0 & <- & Hr0).
    destruct (Hf r0) as (-> & _). auto.
  - rewrite E2. exact W7.
  - rewrite E1. exact W8.
Qed.

Lemma mem_in (x : Z) (l : list Z) : mem x l = true <-> In x l.
Proof.
  unfold mem. rewrite existsb_exists. split.
  - intros (y & Hy & E). apply Z.eqb_eq in E. subst. exact Hy.
  - intro H. exists x. split; [exact H | apply Z.eqb_refl].
Qed.

Lemma in_children tb inv x :
  In x (children tb inv) <->
  exists c, In c (customers tb) /\ invoice_id c = inv /\ cust_id c = x.
Proof.
  unfold children. rewrite in_map_iff. split.
  - intros (c & E & Hc). apply filter_In in Hc. destruct Hc as [Hc Hinv].
    apply Z.eqb_eq in Hinv. eauto.
  - intros (c & Hc & Hinv & E). exists c. split; [exact E|].
    apply filter_In. split; [exact Hc | apply Z.eqb_eq; exact Hinv].
Qed.

Lemma well_formed_without_children inv tb q :
  well_formed tb q -> well_formed (without_children inv tb) q.
Proof.
  intros [W1 W2 W3 W4 W5 W6 W7 W8 W9].
  constructor; cbn [without_children invoices customers items]; auto.
  - apply distinct_keys_kept. exact W3.
  - intros c Hc. apply filter_In in Hc. apply W4. tauto.
  - apply distinct_keys_kept. exact W5.
  - intros i Hi. apply filter_In in Hi. apply W6. tauto.
  - intros c Hc. apply filter_In in Hc. apply W8. tauto.
  - intros i Hi. apply filter_In in Hi. destruct Hi as [Hi Hmem].
    specialize (W9 i Hi). apply in_map_iff in W9. destruct W9 as (c & E & Hc).
    apply in_map_iff. exists c. split; [exact E|].
    apply filter_In. split; [exact Hc|].
    destruct (invoice_id c =? inv) eqn:Einv; [|reflexivity].
    apply Z.eqb_eq in Einv.
    assert (K : mem (customer_id i) (children tb inv) = true).
    { apply mem_in. apply in_children. exists c. auto. }
    rewrite K in Hmem. discriminate Hmem.
Qed.

Lemma well_formed_without_invoice id tb q :
  well_formed tb q -> well_formed (without_invoice id tb) q.
Proof.
  intro W. pose proof (well_formed_without_children id tb q W) as
    [W1 W2 W3 W4 W5 W6 W7 W8 W9].
  constructor; cbn [without_invoice invoices customers items]; auto.
  - apply distinct_keys_kept. exact W1.
  - intros r Hr. apply filter_In in Hr. apply W2. tauto.
  - apply distinct_keys_kept. exact W7.
  - intros c Hc. pose proof (W8 c Hc) as K.
    cbn [without_children invoices customers] in K, Hc.
    apply filter_In in Hc. destruct Hc as [Hc Hne].
    apply in_map_iff in K. destruct K as (r & E & Hr).
    apply in_map_iff. exists r. split; [exact E|].
    apply filter_In. split; [exact Hr|]. rewrite E. exact Hne.
Qed.

(** ** What the statements of a request leave *)

Lemma filter_all {A : Type} (p : A -> bool) (l : list A) :
  (forall x, In x l -> p x = true) -> filter p l = l.
Proof.
  induction l as [|x l IH]; cbn; intro H; [reflexivity|].
  rewrite (H x (or_introl eq_refl)). f_equal. apply IH. intros y Hy. apply H. right. exact Hy.
Qed.

Lemma filter_none {A : Type} (p : A -> bool) (l : list A) :
  (forall x, In x l -> p x = false) -> filter p l = [].
Proof.
  induction l as [|x l IH]; cbn; intro H; [reflexivity|].
  rewrite (H x (or_introl eq_refl)). apply IH. intros y Hy. apply H. right. exact Hy.
Qed.

Lemma filter_twice {A : Type} (p q : A -> bool) (l : list A) :
  filter p (filter q l) = filter (fun x => q x && p x) l.
Proof.
  induction l as [|x l IH]; cbn; [reflexivity|].
  destruct (q x); cbn; [destruct (p x)|]; rewrite ?IH; reflexivity.
Qed.

Lemma filter_same {A : Type} (p : A -> bool) (l : list A) :
  filter p (filter p l) = filter p l.
Proof.
  rewrite filter_twice. apply filter_ext. intro x. destruct (p x); reflexivity.
Qed.

Lemma delete_items_loop ids c :
  for_each ids delete_items c =
  (Return tt,
   {| snapshot := snapshot c;
      work := {| invoices := invoices (work c);
                 customers := customers (work c);
                 items := filter (fun i => negb (mem (customer_id i) ids))
                                 (items (work c)) |};
      conn_seqs := conn_seqs c |}).
Proof.
  revert c. induction ids as [|x ids IH]; intro c.
  - destruct c as [s [i cu it] q]. cbn. unfold ret. rewrite filter_all; auto.
  - cbn [for_each]. unfold bind at 1. unfold delete_items at 1. unfold write.
    rewrite IH. cbn [snapshot work conn_seqs invoices customers items].
    rewrite filter_twice.
    rewrite (filter_ext
               (fun i => negb (customer_id i =? x) && negb (mem (customer_id i) ids))
               (fun i => negb (mem (customer_id i) (x :: ids)))); [reflexivity|].
    intro i. cbn. rewrite negb_orb. reflexivity.
Qed.

Lemma delete_steps_effect id c :
  (custs <- select_customers id ;;
   for_each (map cust_id custs) delete_items ;;;
   delete_customers id) c =
  (Return tt,
   {| snapshot := snapshot c; work := without_children id (work c);
      conn_seqs := conn_seqs c |}).
Proof.
  unfold bind at 1. unfold select_customers, read.
  unfold bind. rewrite delete_items_loop.
  unfold delete_customers, write, without_children, children.
  cbn [snapshot work conn_seqs invoices customers items].
  rewrite filter_same. reflexivity.
Qed.

Lemma children_without_children id tb : children (without_children id tb) id = [].
Proof.
  unfold children, without_children. cbn [customers].
  rewrite filter_twice, filter_none; [reflexivity|].
  intros c _. destruct (invoice_id c =? id); reflexivity.
Qed.

Lemma delete_invoice_row_effect id c :
  delete_invoice_row id
    {| snapshot := snapshot c; work := without_children id (work c);
       conn_seqs := conn_seqs c |} =
  (Return tt,
   {| snapshot := snapshot c; work := without_invoice id (work c);
      conn_seqs := conn_seqs c |}).
Proof.
  unfold delete_invoice_row, write. cbn [snapshot work conn_seqs].
  fold (children (without_children id (work c)) id).
  rewrite children_without_children.
  unfold without_invoice. do 3 f_equal.
  - cbn [without_children customers]. apply filter_same.
  - apply filter_all. intros i _. reflexivity.
Qed.

Lemma delete_invoice_effect u n c r :
  find (owned_by u n) (invoices (work c)) = Some r ->
  delete_invoice u n c =
  (Return (Jsonify success_body 200),
   {| snapshot := without_invoice (inv_id r) (work c);
      work := without_invoice (inv_id r) (work c);
      conn_seqs := conn_seqs c |}).
Proof.
  intro Hfind. unfold delete_invoice.
  unfold bind at 1. unfold select_invoice, read. rewrite Hfind.
  change (custs <- select_customers (inv_id r) ;;
          for_each (map cust_id custs) delete_items ;;;
          delete_customers (inv_id r) ;;;
          delete_invoice_row (inv_id r) ;;; commit ;;;
          ret (Jsonify success_body 200))
    with (custs <- select_customers (inv_id r) ;;
          for_each (map cust_id custs) delete_items ;;;
          (delete_customers (inv_id r) ;;;
           (delete_invoice_row (inv_id r) ;;; commit ;;;
            ret (Jsonify success_body 200)))).
  pose proof (delete_steps_effect (inv_id r) c) as E.
  unfold bind in E |- *. unfold select_customers, read in E |- *.
  destruct (for_each (map cust_id (filter (fun c0 => invoice_id c0 =? inv_id r)
                                          (customers (work c)))) delete_items c)
    as [[[]|e] c1]; [|discriminate E].
  destruct (delete_customers (inv_id r) c1) as [[[]|e] c2]; [|discriminate E].
  injection E as ->.
  rewrite delete_invoice_row_effect. reflexivity.
Qed.

Lemma serve_delete_invoice u n st r :
  find (owned_by u n) (invoices (stored st)) = Some r ->
  serve (delete_invoice u n) st =
  ({| stored := without_invoice (inv_id r) (stored st); seqs := seqs st |},
   Jsonify success_body 200).
Proof.
  intro Hfind. unfold serve.
  rewrite (delete_invoice_effect u n (get_db st) r Hfind). reflexivity.
Qed.

Ltac conjs := repeat match goal with |- _ /\ _ => split end.

Lemma insert_invoice_effect number cdate cname caddr cemail total u c id c' :
  insert_invoice number cdate cname caddr cemail total u c = (Return id, c') ->
  exists row,
    inv_id row = id /\ id = invoices_id_seq (conn_seqs c) + 1 /\ user_id row = u /\
    pg_integer number = Some (invoice_number row) /\
    pg_text cdate = Some (creation_date row) /\
    pg_text cname = Some (company_name row) /\
    pg_text caddr = Some (company_address row) /\
    pg_text cemail = Some (company_email row) /\
    pg_real total = Some (total_amount row) /\
    existsb (owned_by u (invoice_number row)) (invoices (work c)) = false /\
    c' = {| snapshot := snapshot c;
            work := {| invoices := invoices (work c) ++ [row];
                       customers := customers (work c);
                       items := items (work c) |};
            conn_seqs := {| invoices_id_seq := invoices_id_seq (conn_seqs c) + 1;
                            customers_id_seq := customers_id_seq (conn_seqs c);
                            items_id_seq := items_id_seq (conn_seqs c) |} |}.
Proof.
  unfold insert_invoice. intro H.
  apply bind_return in H. destruct H as (n & c1 & H1 & H).
  apply adapt_return in H1. destruct H1 as [En ->].
  apply bind_return in H. destruct H as (d & c1 & H1 & H).
  apply adapt_return in H1. destruct H1 as [Ed ->].
  apply bind_return in H. destruct H as (cn & c1 & H1 & H).
  apply adapt_return in H1. destruct H1 as [Ecn ->].
  apply bind_return in H. destruct H as (ca & c1 & H1 & H).
  apply adapt_return in H1. destruct H1 as [Eca ->].
  apply bind_return in H. destruct H as (ce & c1 & H1 & H).
  apply adapt_return in H1. destruct H1 as [Ece ->].
  apply bind_return in H. destruct H as (t & c1 & H1 & H).
  apply adapt_return in H1. destruct H1 as [Et ->].
  unfold bind, nextval_invoices, read in H. cbv beta iota zeta in H.
  cbn [work] in H.
  destruct (existsb (owned_by u n) (invoices (work c))) eqn:Edup.
  - discriminate H.
  - unfold write, ret in H. injection H as <- <-.
    eexists {| inv_id := _; invoice_number := n; creation_date := d;
               company_name := cn; company_address := ca; company_email := ce;
               total_amount := t; user_id := u |}.
    cbn. repeat split; assumption.
Qed.

Lemma create_invoice_effect u data c number c' :
  create_invoice u data c = (Return (Jsonify (created_body number) 201), c') ->
  exists total row bs c2,
    parse_total_amount data = Return total /\
    header_of data total row /\
    user_id row = u /\
    pg_integer number = Some (invoice_number row) /\
    inv_id row = invoices_id_seq (conn_seqs c) + 1 /\
    existsb (owned_by u (invoice_number row)) (invoices (work c)) = false /\
    blocks_of (inv_id row) data bs /\
    appended (map fst bs) (List.concat (map snd bs))
      {| snapshot := snapshot c;
         work := {| invoices := invoices (work c) ++ [row];
                    customers := customers (work c);
                    items := items (work c) |};
         conn_seqs := {| invoices_id_seq := invoices_id_seq (conn_seqs c) + 1;
                         customers_id_seq := customers_id_seq (conn_seqs c);
                         items_id_seq := items_id_seq (conn_seqs c) |} |} c2 /\
    snapshot c' = work c2 /\ conn_seqs c' = conn_seqs c2.
Proof.
  unfold create_invoice, try_except.
  destruct (create_invoice_try u data c) as [[r|e] c1] eqn:E; intro H.
  2:{ unfold bind, rollback, ret in H. discriminate H. }
  injection H as -> ->. unfold create_invoice_try in E.
  destruct (negb (truthy data)); [discriminate E|].
  apply bind_return in E. destruct E as (number' & c1 & H1 & E).
  destruct (invoice_number_for_return _ _ _ _ _ H1) as [-> _].
  apply bind_return in E. destruct E as (total & c1 & H2 & E).
  apply lift_return in H2. destruct H2 as [Et ->].
  apply bind_return in E. destruct E as (cdate & c1 & H2 & E).
  apply lift_return in H2. destruct H2 as [Ecdate ->].
  apply bind_return in E. destruct E as (cname & c1 & H2 & E).
  apply lift_return in H2. destruct H2 as [Ecname ->].
  apply bind_return in E. destruct E as (caddr & c1 & H2 & E).
  apply lift_return in H2. destruct H2 as [Ecaddr ->].
  apply bind_return in E. destruct E as (cemail & c1 & H2 & E).
  apply lift_return in H2. destruct H2 as [Ecemail ->].
  apply bind_return in E. destruct E as (id & c1 & H2 & E).
  apply insert_invoice_effect in H2.
  destruct H2 as (row & Hid & Hseq & Hu & Hn & Hd & Hcn & Hca & Hce & Ht & Hdup & ->).
  apply bind_return in E. destruct E as ([] & c2 & H2 & E).
  apply add_customers_effect in H2. destruct H2 as (bs & A & Hbs).
  unfold bind, commit, ret in E. injection E as E1 E2.
  assert (number' = number) as ->.
  { unfold created_body in E1. congruence. }
  exists total, row, bs, c2. subst c' id.
  conjs; try assumption; try reflexivity.
  exists cdate, cname, caddr, cemail. conjs; assumption.
Qed.

Lemma update_invoice_effect cdate cname caddr cemail total id c c' :
  update_invoice cdate cname caddr cemail total id c = (Return tt, c') ->
  exists d cn ca ce t,
    pg_text cdate = Some d /\ pg_text cname = Some cn /\ pg_text caddr = Some ca /\
    pg_text cemail = Some ce /\ pg_real total = Some t /\
    c' = {| snapshot := snapshot c;
            work := {| invoices :=
                         map (fun r => if inv_id r =? id
                                       then with_header d cn ca ce t r else r)
                             (invoices (work c));
                       customers := customers (work c);
                       items := items (work c) |};
            conn_seqs := conn_seqs c |}.
Proof.
  unfold update_invoice. intro H.
  apply bind_return in H. destruct H as (d & c1 & H1 & H).
  apply adapt_return in H1. destruct H1 as [Ed ->].
  apply bind_return in H. destruct H as (cn & c1 & H1 & H).
  apply adapt_return in H1. destruct H1 as [Ecn ->].
  apply bind_return in H. destruct H as (ca & c1 & H1 & H).
  apply adapt_return in H1. destruct H1 as [Eca ->].
  apply bind_return in H. destruct H as (ce & c1 & H1 & H).
  apply adapt_return in H1. destruct H1 as [Ece ->].
  apply bind_return in H. destruct H as (t & c1 & H1 & H).
  apply adapt_return in H1. destruct H1 as [Et ->].
  unfold write in H. injection H as <-.
  exists d, cn, ca, ce, t. repeat split; assumption.
Qed.

Lemma replace_invoice_effect id data c c' :
  replace_invoice id data c = (Return (Jsonify success_body 200), c') ->
  exists cdate cname caddr cemail total d cn ca ce t bs c2,
    py_get data "creation_date" JNull = Return cdate /\
    py_get data "company_name" JNull = Return cname /\
    py_get data "company_address" JNull = Return caddr /\
    py_get data "company_email" JNull = Return cemail /\
    py_bind (py_get data "total_amount" (JInt 0)) py_float = Return total /\
    pg_text cdate = Some d /\ pg_text cname = Some cn /\ pg_text caddr = Some ca /\
    pg_text cemail = Some ce /\ pg_real total = Some t /\
    blocks_of id data bs /\
    appended (map fst bs) (List.concat (map snd bs))
      {| snapshot := snapshot c;
         work := without_children id
                   {| invoices :=
                        map (fun r => if inv_id r =? id
                                      then with_header d cn ca ce t r else r)
                            (invoices (work c));
                      customers := customers (work c);
                      items := items (work c) |};
         conn_seqs := conn_seqs c |} c2 /\
    snapshot c' = work c2 /\ conn_seqs c' = conn_seqs c2.
Proof.
  unfold replace_invoice. intro E.
  apply bind_return in E. destruct E as (cdate & c1 & H2 & E).
  apply lift_return in H2. destruct H2 as [Ecdate ->].
  apply bind_return in E. destruct E as (cname & c1 & H2 & E).
  apply lift_return in H2. destruct H2 as [Ecname ->].
  apply bind_return in E. destruct E as (caddr & c1 & H2 & E).
  apply lift_return in H2. destruct H2 as [Ecaddr ->].
  apply bind_return in E. destruct E as (cemail & c1 & H2 & E).
  apply lift_return in H2. destruct H2 as [Ecemail ->].
  apply bind_return in E. destruct E as (total & c1 & H2 & E).
  apply lift_return in H2. destruct H2 as [Etotal ->].
  apply bind_return in E. destruct E as ([] & c1 & H2 & E).
  apply update_invoice_effect in H2.
  destruct H2 as (d & cn & ca & ce & t & Hd & Hcn & Hca & Hce & Ht & ->).
  change (custs <- select_customers id ;;
          for_each (map cust_id custs) delete_items ;;;
          delete_customers id ;;;
          add_customers id data ;;; commit ;;; ret (Jsonify success_body 200))
    with (custs <- select_customers id ;;
          for_each (map cust_id custs) delete_items ;;;
          (delete_customers id ;;;
           (add_customers id data ;;; commit ;;; ret (Jsonify success_body 200))))
    in E.
  match type of E with _ ?k = _ => pose proof (delete_steps_effect id k) as D end.
  unfold bind in D, E. unfold select_customers, read in D, E.
  match type of D with
  | match for_each ?l ?b ?k with _ => _ end = _ =>
      destruct (for_each l b k) as [[[]|e] c1]; [|discriminate D]
  end.
  destruct (delete_customers id c1) as [[[]|e] c2]; [|discriminate D].
  injection D as ->.
  cbn [snapshot work conn_seqs] in E.
  match type of E with
  | match add_customers id data ?k with _ => _ end = _ =>
      destruct (add_customers id data k) as [[[]|e] c3] eqn:A; [|discriminate E]
  end.
  apply add_customers_effect in A. destruct A as (bs & A & Hbs).
  unfold commit, ret in E. injection E as <-.
  exists cdate, cname, caddr, cemail, total, d, cn, ca, ce, t, bs, c3.
  cbn [snapshot conn_seqs]. conjs; try assumption; reflexivity.
Qed.

(** ** Views that only read *)

Lemma reads_ret {A : Type} (a : A) : reads (ret a).
Proof. intro c; reflexivity. Qed.

Lemma reads_lift {A : Type} (r : py A) : reads (lift r).
Proof. intro c; reflexivity. Qed.

Lemma reads_read {A : Type} (q : tables -> A) : reads (read q).
Proof. intro c; reflexivity. Qed.

Lemma reads_bind {A B : Type} (m : tx A) (k : A -> tx B) :
  reads m -> (forall a, reads (k a)) -> reads (bind m k).
Proof.
  intros Hm Hk c. unfold bind.
  specialize (Hm c). destruct (m c) as [[a|e] c1]; cbn [snd] in *; subst c1.
  - apply Hk.
  - reflexivity.
Qed.

Lemma reads_try_except {A : Type} (body : tx A) (handler : pyexc -> tx A) :
  reads body -> (forall e, reads (handler e)) -> reads (try_except body handler).
Proof.
  intros Hb Hh c. unfold try_except.
  specialize (Hb c). destruct (body c) as [[a|e] c1]; cbn [snd] in *; subst c1.
  - reflexivity.
  - apply Hh.
Qed.

Lemma reads_fetch_customers id : reads (fetch_customers id).
Proof. intro c. rewrite fetch_customers_reads. reflexivity. Qed.

Lemma reads_attach_customers rows : reads (attach_customers rows).
Proof.
  induction rows as [|row rows IH]; cbn [attach_customers].
  - apply reads_ret.
  - apply reads_bind; [apply reads_fetch_customers|]. intro custs.
    apply reads_bind; [exact IH|]. intro more. apply reads_ret.
Qed.

Lemma reads_list_invoices order u : reads (list_invoices order u).
Proof.
  unfold list_invoices. apply reads_try_except.
  - apply reads_bind; [apply reads_read|]. intro rows.
    apply reads_bind; [apply reads_attach_customers|]. intro l. apply reads_ret.
  - intro e. apply reads_ret.
Qed.

Lemma reads_categorize u period : reads (categorize u period).
Proof.
  unfold categorize. apply reads_bind; [apply reads_read|]. intro tb. apply reads_ret.
Qed.

Lemma reads_reset_invoice_number u : reads (reset_invoice_number u).
Proof.
  unfold reset_invoice_number, select_max_invoice_number.
  apply reads_bind; [apply reads_read|]. intro r. apply reads_ret.
Qed.

Lemma reads_generate_pdf u n : reads (generate_pdf u n).
Proof.
  unfold generate_pdf, select_invoice.
  apply reads_bind; [apply reads_read|]. intros [invoice|]; [|apply reads_ret].
  apply reads_bind; [apply reads_fetch_customers|]. intro custs.
  apply reads_bind; [apply reads_lift|]. intro calls. apply reads_ret.
Qed.

Lemma serve_reads (view : tx response) st : reads view -> fst (serve view st) = st.
Proof.
  intro H. unfold serve. specialize (H (get_db st)).
  destruct (view (get_db st)) as [[r|e] c]; cbn [snd fst] in *; subst c;
    apply close_get_db.
Qed.

(** ** Every request keeps the tables well formed *)

Lemma serve_returned (view : tx response) st st' r :
  serve view st = (st', r) -> r <> unexpected ->
  exists c, view (get_db st) = (Return r, c) /\ st' = close_connection c.
Proof.
  unfold serve. destruct (view (get_db st)) as [[r0|e] c]; intros H Hr.
  - injection H as <- <-. eauto.
  - injection H as _ <-. exfalso. apply Hr. reflexivity.
Qed.

Lemma consistent_unchanged st st' :
  consistent st -> stored st' = stored st -> seqs_le (seqs st) (seqs st') ->
  consistent st'.
Proof.
  unfold consistent. intros W E L. rewrite E. exact (well_formed_grows _ _ _ W L).
Qed.

Lemma create_invoice_well_formed u data c number c' :
  well_formed (work c) (conn_seqs c) ->
  create_invoice u data c = (Return (Jsonify (created_body number) 201), c') ->
  well_formed (snapshot c') (conn_seqs c').
Proof.
  intros W H. apply create_invoice_effect in H.
  destruct H as (total & row & bs & c2 & _ & _ & Hu & _ & Hid & Hdup & (cs & _ & Hbs)
                 & A & -> & ->).
  refine (well_formed_blocks (inv_id row) cs bs _ c2 _ _ Hbs A); cbn [work conn_seqs].
  - apply well_formed_insert_invoice; [exact W | exact Hid | rewrite Hu; exact Hdup].
  - cbn [invoices]. rewrite map_app. apply in_or_app. right. left. reflexivity.
Qed.

Lemma create_invoice_consistent u data st :
  consistent st -> consistent (fst (serve (create_invoice u data) st)).
Proof.
  intro W.
  pose proof (serve_grows (create_invoice u data) st (grows_create_invoice u data)) as G.
  destruct (serve_guarded created _ st (guarded_create_invoice u data)) as [[number Hc]|Hs].
  - destruct (serve (create_invoice u data) st) as [st' r] eqn:E.
    cbn [fst snd] in *. subst r.
    apply serve_returned in E; [|discriminate].
    destruct E as (c & E & ->). unfold consistent. cbn [stored seqs close_connection].
    exact (create_invoice_well_formed u data (get_db st) number c W E).
  - exact (consistent_unchanged _ _ W Hs G).
Qed.

Lemma replace_invoice_well_formed id data c c' :
  well_formed (work c) (conn_seqs c) ->
  In id (map inv_id (invoices (work c))) ->
  replace_invoice id data c = (Return (Jsonify success_body 200), c') ->
  well_formed (snapshot c') (conn_seqs c').
Proof.
  intros W Hid H. apply replace_invoice_effect in H.
  destruct H as (cdate & cname & caddr & cemail & total & d & cn & ca & ce & t & bs & c2
                 & _ & _ & _ & _ & _ & _ & _ & _ & _ & _ & (cs & _ & Hbs) & A & -> & ->).
  refine (well_formed_blocks id cs bs _ c2 _ _ Hbs A); cbn [work conn_seqs].
  - apply well_formed_without_children.
    apply (well_formed_update_invoice (work c) (conn_seqs c)
             (fun r => if inv_id r =? id then with_header d cn ca ce t r else r)).
    + intro r. destruct (inv_id r =? id); cbn; auto.
    + exact W.
  - cbn [without_children invoices]. rewrite map_map.
    apply in_map_iff in Hid. destruct Hid as (r & E & Hr).
    apply in_map_iff. exists r. split; [|exact Hr].
    destruct (inv_id r =? id); cbn; exact E.
Qed.

Lemma modify_invoice_consistent u number data st :
  consistent st -> consistent (fst (serve (modify_invoice u number data) st)).
Proof.
  intro W.
  pose proof (serve_grows _ st (grows_modify_invoice u number data)) as G.
  destruct (serve_guarded succeeded _ st (guarded_modify_invoice u number data))
    as [Hc|Hs].
  - destruct (serve (modify_invoice u number data) st) as [st' r] eqn:E.
    cbn [fst snd] in *. unfold succeeded in Hc. subst r.
    apply serve_returned in E; [|discriminate].
    destruct E as (c & E & ->). unfold consistent. cbn [stored seqs close_connection].
    unfold modify_invoice in E.
    destruct (negb (truthy data)); [discriminate E|].
    apply bind_return in E. destruct E as (row & c1 & H1 & E).
    unfold select_invoice, read in H1. cbv beta in H1. injection H1 as <- <-.
    destruct (find (owned_by u number) (invoices (stored st))) as [r|] eqn:F;
      [|unfold ret in E; discriminate E].
    apply find_some in F. destruct F as [F _].
    refine (replace_invoice_well_formed (inv_id r) data (get_db st) c W _ E).
    apply in_map. exact F.
  - exact (consistent_unchanged _ _ W Hs G).
Qed.

Lemma delete_invoice_consistent u number st :
  consistent st -> consistent (fst (serve (delete_invoice u number) st)).
Proof.
  intro W.
  destruct (find (owned_by u number) (invoices (stored st))) as [r|] eqn:F.
  - rewrite (serve_delete_invoice u number st r F). unfold consistent.
    cbn [fst stored seqs]. apply well_formed_without_invoice. exact W.
  - unfold serve, delete_invoice, bind, select_invoice, read.
    cbn [work get_db]. rewrite F. unfold ret. cbn [fst].
    rewrite close_get_db. exact W.
Qed.

Lemma handle_consistent order rq st :
  consistent st -> consistent (fst (handle order rq st)).
Proof.
  intro W. unfold handle. destruct rq as [u|u data|u n data|u n|u p|u|u n]; cbn [view_of].
  - rewrite serve_reads; [exact W | apply reads_list_invoices].
  - apply create_invoice_consistent. exact W.
  - destruct (Z.ltb_spec n 0) as [Hn|Hn].
    + rewrite (serve_no_route n _ st Hn). exact W.
    + rewrite (routed_to n _ Hn). apply modify_invoice_consistent. exact W.
  - destruct (Z.ltb_spec n 0) as [Hn|Hn].
    + rewrite (serve_no_route n _ st Hn). exact W.
    + rewrite (routed_to n _ Hn). apply delete_invoice_consistent. exact W.
  - rewrite serve_reads; [exact W | apply reads_categorize].
  - rewrite serve_reads; [exact W | apply reads_reset_invoice_number].
  - destruct (Z.ltb_spec n 0) as [Hn|Hn].
    + rewrite (serve_no_route n _ st Hn). exact W.
    + rewrite (routed_to n _ Hn).
      rewrite serve_reads; [exact W | apply reads_generate_pdf].
Qed.

Lemma init_db_consistent : consistent init_db.
Proof.
  unfold consistent, init_db. cbn [stored seqs].
  constructor; cbn; try constructor; intros ? [].
Qed.

(** X3.  A request of the API keeps the stored tables well formed: ids stay
    unique and below their sequences, no user gets two invoices with one
    number, and no customer or item is left without its parent row.  This
    holds whatever the request answers. *)
Theorem requests_keep_tables_well_formed
    (order : list invoice_row -> list invoice_row) (rq : request) (st : database) :
  consistent st -> consistent (fst (handle order rq st)).
Proof. apply handle_consistent. Qed.

(** X4.  Starting from the empty tables of [init_db], the tables are well
    formed after any sequence of requests. *)
Theorem tables_are_always_well_formed
    (order : list invoice_row -> list invoice_row) (rqs : list request) :
  consistent (run order rqs init_db).
Proof.
  unfold run. generalize init_db_consistent. generalize init_db.
  induction rqs as [|rq rqs IH]; intros st W; cbn [fold_left]; [exact W|].
  apply IH. apply handle_consistent. exact W.
Qed.

(** ** Reading the customers of an invoice back *)

Lemma nodup_map_injective {A B : Type} (f : A -> B) (l : list A) (a b : A) :
  NoDup (map f l) -> In a l -> In b l -> f a = f b -> a = b.
Proof.
  induction l as [|x l IH]; cbn; intros H Ha Hb E; [destruct Ha|].
  inversion H as [|? ? Hx Hl]; subst.
  destruct Ha as [->|Ha], Hb as [->|Hb]; auto.
  - exfalso. apply Hx. rewrite E. apply in_map. exact Hb.
  - exfalso. apply Hx. rewrite <- E. apply in_map. exact Ha.
Qed.

Lemma tables_eq (a b : tables) :
  invoices a = invoices b -> customers a = customers b -> items a = items b -> a = b.
Proof. destruct a, b. cbn. intros -> -> ->. reflexivity. Qed.

Lemma aggregate_ext tb1 tb2 id :
  customers tb1 = customers tb2 -> items tb1 = items tb2 ->
  aggregate tb1 id = aggregate tb2 id.
Proof. unfold aggregate. intros -> ->. reflexivity. Qed.

Lemma filter_block (b : customer_row * list item_row)
    (bs : list (customer_row * list item_row)) :
  (forall b' i, In b' bs -> In i (snd b') -> customer_id i = cust_id (fst b')) ->
  NoDup (map cust_id (map fst bs)) ->
  In b bs ->
  filter (fun i => customer_id i =? cust_id (fst b)) (List.concat (map snd bs)) = snd b.
Proof.
  induction bs as [|b0 bs IH]; intros Hc Hnd Hin; [destruct Hin|].
  cbn [map List.concat]. rewrite filter_app.
  cbn [map] in Hnd. inversion Hnd as [|? ? Hx Hl]; subst.
  destruct Hin as [->|Hin].
  - rewrite filter_all.
    2:{ intros i Hi. apply Z.eqb_eq. apply (Hc b i); [left; reflexivity | exact Hi]. }
    rewrite filter_none; [apply app_nil_r|].
    intros i Hi. apply in_concat in Hi. destruct Hi as (rows & Hrows & Hi).
    apply in_map_iff in Hrows. destruct Hrows as (b' & <- & Hb').
    apply Z.eqb_neq. rewrite (Hc b' i (or_intror Hb') Hi). intro E.
    apply Hx. rewrite <- E. apply in_map. apply in_map. exact Hb'.
  - rewrite filter_none.
    2:{ intros i Hi. apply Z.eqb_neq. rewrite (Hc b0 i (or_introl eq_refl) Hi).
        intro E. apply Hx. rewrite E. apply in_map. apply in_map. exact Hin. }
    cbn [app]. apply IH; auto. intros b' i Hb'. apply Hc. right. exact Hb'.
Qed.

Lemma aggregate_blocks tb inv old_c old_i bs :
  customers tb = old_c ++ map fst bs ->
  items tb = old_i ++ List.concat (map snd bs) ->
  (forall c, In c old_c -> invoice_id c <> inv) ->
  (forall c, In c (map fst bs) -> invoice_id c = inv) ->
  (forall i, In i old_i -> ~ In (customer_id i) (map cust_id (map fst bs))) ->
  (forall b i, In b bs -> In i (snd b) -> customer_id i = cust_id (fst b)) ->
  NoDup (map cust_id (map fst bs)) ->
  aggregate tb inv = bs.
Proof.
  intros Ec Ei Hold Hnew Hitems Hblock Hnd.
  unfold aggregate. rewrite Ec, Ei, filter_app.
  rewrite (filter_none _ old_c).
  2:{ intros c Hc. apply Z.eqb_neq. apply Hold. exact Hc. }
  rewrite (filter_all _ (map fst bs)).
  2:{ intros c Hc. apply Z.eqb_eq. apply Hnew. exact Hc. }
  cbn [app]. rewrite map_map.
  rewrite <- (map_id bs) at 2. apply map_ext_in.
  intros b Hb. rewrite filter_app.
  rewrite (filter_none _ old_i).
  2:{ intros i Hi. apply Z.eqb_neq. intro E. apply (Hitems i Hi).
      rewrite E. apply in_map. apply in_map. exact Hb. }
  cbn [app]. rewrite (filter_block b bs Hblock Hnd Hb). destruct b; reflexivity.
Qed.

Lemma aggregate_app_other tb tb' inv newc newi :
  customers tb' = customers tb ++ newc ->
  items tb' = items tb ++ newi ->
  (forall c, In c newc -> invoice_id c <> inv) ->
  (forall i c, In i newi -> In c (customers tb) -> customer_id i <> cust_id c) ->
  aggregate tb' inv = aggregate tb inv.
Proof.
  intros Ec Ei Hc Hi. unfold aggregate. rewrite Ec, Ei, filter_app.
  rewrite (filter_none _ newc).
  2:{ intros c Hin. apply Z.eqb_neq. apply Hc. exact Hin. }
  rewrite app_nil_r. apply map_ext_in. intros c Hin.
  apply filter_In in Hin. destruct Hin as [Hin _].
  rewrite filter_app, (filter_none _ newi); [rewrite app_nil_r; reflexivity|].
  intros i Hn. apply Z.eqb_neq. apply Hi; assumption.
Qed.

Lemma aggregate_without_children tb inv other :
  NoDup (map cust_id (customers tb)) -> other <> inv ->
  aggregate (without_children inv tb) other = aggregate tb other.
Proof.
  intros Hnd Hne. unfold aggregate, without_children. cbn [customers items].
  rewrite filter_twice.
  rewrite (filter_ext (fun c => negb (invoice_id c =? inv) && (invoice_id c =? other))
                      (fun c => invoice_id c =? other)).
  2:{ intro c. destruct (Z.eqb_spec (invoice_id c) other) as [E|E];
        [|apply andb_false_r].
      rewrite andb_true_r. apply negb_true_iff. apply Z.eqb_neq. congruence. }
  apply map_ext_in. intros c Hc. apply filter_In in Hc. destruct Hc as [Hc Hinv].
  apply Z.eqb_eq in Hinv. f_equal.
  rewrite filter_twice. apply filter_ext_in. intros i _.
  destruct (Z.eqb_spec (customer_id i) (cust_id c)) as [E|E]; [|apply andb_false_r].
  rewrite andb_true_r. apply negb_true_iff.
  destruct (mem (customer_id i) (children tb inv)) eqn:M; [|reflexivity].
  exfalso. apply mem_in in M. apply in_children in M.
  destruct M as (c2 & Hc2 & Hinv2 & Hid2).
  assert (c2 = c) as ->.
  { apply (nodup_map_injective cust_id (customers tb)); auto. congruence. }
  congruence.
Qed.

Lemma aggregate_without_own_children tb inv : aggregate (without_children inv tb) inv = [].
Proof.
  unfold aggregate, without_children. cbn [customers].
  rewrite filter_twice.
  rewrite (filter_none (fun c => negb (invoice_id c =? inv) && (invoice_id c =? inv)));
    [reflexivity|].
  intros c _. destruct (invoice_id c =? inv); reflexivity.
Qed.

Lemma find_app_fresh {A : Type} (p : A -> bool) (l : list A) (x : A) :
  existsb p l = false -> p x = true -> find p (l ++ [x]) = Some x.
Proof.
  induction l as [|y l IH]; cbn; intros H Hx.
  - rewrite Hx. reflexivity.
  - apply orb_false_iff in H. destruct H as [-> H]. auto.
Qed.

Lemma find_map_owned u n (f : invoice_row -> invoice_row) (l : list invoice_row) :
  (forall r, user_id (f r) = user_id r /\ invoice_number (f r) = invoice_number r) ->
  find (owned_by u n) (map f l) = option_map f (find (owned_by u n) l).
Proof.
  intro Hf. induction l as [|x l IH]; cbn; [reflexivity|].
  unfold owned_by at 1 3. destruct (Hf x) as [-> ->].
  destruct ((invoice_number x =? n) && (user_id x =? u)); [reflexivity | exact IH].
Qed.

Lemma old_customers_elsewhere tb q inv :
  well_formed tb q -> invoices_id_seq q < inv ->
  forall c, In c (customers tb) -> invoice_id c <> inv.
Proof.
  intros W Hlt c Hc E. pose proof (wf_customer_ref tb q W c Hc) as K.
  apply in_map_iff in K. destruct K as (r & Er & Hr).
  pose proof (wf_invoice_seq tb q W r Hr). lia.
Qed.

Lemma old_items_elsewhere tb q lo n :
  well_formed tb q -> customers_id_seq q <= lo ->
  forall i, In i (items tb) -> ~ In (customer_id i) (handed_out lo n).
Proof.
  intros W Hle i Hi K. apply handed_out_in in K.
  pose proof (wf_item_ref tb q W i Hi) as R.
  apply in_map_iff in R. destruct R as (c & Ec & Hc).
  pose proof (wf_customer_seq tb q W c Hc). lia.
Qed.

Lemma aggregate_appended inv cs bs c c2 :
  well_formed (work c) (conn_seqs c) ->
  (forall cu, In cu (customers (work c)) -> invoice_id cu <> inv) ->
  Forall2 (block_of inv) cs bs ->
  appended (map fst bs) (List.concat (map snd bs)) c c2 ->
  aggregate (work c2) inv = bs.
Proof.
  intros W Hold Hbs A.
  apply (aggregate_blocks (work c2) inv (customers (work c)) (items (work c)) bs).
  - exact (app_customers _ _ _ _ A).
  - exact (app_items _ _ _ _ A).
  - exact Hold.
  - exact (blocks_invoice inv cs bs Hbs).
  - rewrite (app_customer_ids _ _ _ _ A).
    apply (old_items_elsewhere (work c) (conn_seqs c)); [exact W | lia].
  - exact (blocks_customer inv cs bs Hbs).
  - rewrite (app_customer_ids _ _ _ _ A). apply handed_out_nodup.
Qed.

Lemma aggregate_appended_other inv other cs bs c c2 :
  well_formed (work c) (conn_seqs c) ->
  other <> inv ->
  Forall2 (block_of inv) cs bs ->
  appended (map fst bs) (List.concat (map snd bs)) c c2 ->
  aggregate (work c2) other = aggregate (work c) other.
Proof.
  intros W Hne Hbs A.
  apply (aggregate_app_other (work c) (work c2) other
           (map fst bs) (List.concat (map snd bs))).
  - exact (app_customers _ _ _ _ A).
  - exact (app_items _ _ _ _ A).
  - intros cu Hcu. rewrite (blocks_invoice inv cs bs Hbs cu Hcu). congruence.
  - intros i cu Hi Hcu E.
    pose proof (blocks_item_ref inv cs bs Hbs i Hi) as K.
    rewrite (app_customer_ids _ _ _ _ A) in K. apply handed_out_in in K.
    pose proof (wf_customer_seq _ _ W cu Hcu). lia.
Qed.

(** ** Create *)

Lemma serve_create_effect u data st st' number :
  serve (create_invoice u data) st = (st', Jsonify (created_body number) 201) ->
  exists total row bs c2,
    parse_total_amount data = Return total /\
    header_of data total row /\
    user_id row = u /\
    pg_integer number = Some (invoice_number row) /\
    inv_id row = invoices_id_seq (seqs st) + 1 /\
    existsb (owned_by u (invoice_number row)) (invoices (stored st)) = false /\
    blocks_of (inv_id row) data bs /\
    appended (map fst bs) (List.concat (map snd bs))
      {| snapshot := stored st;
         work := {| invoices := invoices (stored st) ++ [row];
                    customers := customers (stored st);
                    items := items (stored st) |};
         conn_seqs := {| invoices_id_seq := invoices_id_seq (seqs st) + 1;
                         customers_id_seq := customers_id_seq (seqs st);
                         items_id_seq := items_id_seq (seqs st) |} |} c2 /\
    stored st' = work c2 /\ seqs st' = conn_seqs c2.
Proof.
  intro H. apply serve_returned in H; [|discriminate].
  destruct H as (c & H & ->). apply create_invoice_effect in H.
  destruct H as (total & row & bs & c2 & H1 & H2 & H3 & H4 & H5 & H6 & H7 & H8 & H9 & H10).
  exists total, row, bs, c2. cbn [stored seqs close_connection].
  conjs; assumption.
Qed.

(** X5.  A Create that answers 201 only appends: the stored tables are the
    tables of before followed by one invoice row of the user, which holds
    the header fields of the request and the number of the answer, by one
    customer row for each customer entry of the request and by one item row
    for each item, in the order of the request. *)
Theorem create_appends_the_request (u : Z) (data number : value) (st st' : database) :
  serve (create_invoice u data) st = (st', Jsonify (created_body number) 201) ->
  exists total row bs,
    parse_total_amount data = Return total /\
    header_of data total row /\
    user_id row = u /\
    pg_integer number = Some (invoice_number row) /\
    blocks_of (inv_id row) data bs /\
    invoices (stored st') = invoices (stored st) ++ [row] /\
    customers (stored st') = customers (stored st) ++ map fst bs /\
    items (stored st') = items (stored st) ++ List.concat (map snd bs).
Proof.
  intro H. apply serve_create_effect in H.
  destruct H as (total & row & bs & c2 & H1 & H2 & H3 & H4 & _ & _ & H7 & A & E & _).
  exists total, row, bs. rewrite E.
  conjs; try assumption.
  - exact (app_invoices _ _ _ _ A).
  - exact (app_customers _ _ _ _ A).
  - exact (app_items _ _ _ _ A).
Qed.

Lemma create_then_find u data st st' number :
  consistent st ->
  serve (create_invoice u data) st = (st', Jsonify (created_body number) 201) ->
  exists total row bs,
    parse_total_amount data = Return total /\
    header_of data total row /\
    pg_integer number = Some (invoice_number row) /\
    inv_id row = invoices_id_seq (seqs st) + 1 /\
    blocks_of (inv_id row) data bs /\
    find (owned_by u (invoice_number row)) (invoices (stored st')) = Some row /\
    aggregate (stored st') (inv_id row) = bs /\
    invoices (stored st') = invoices (stored st) ++ [row] /\
    customers (stored st') = customers (stored st) ++ map fst bs /\
    items (stored st') = items (stored st) ++ List.concat (map snd bs) /\
    seqs_le (seqs st) (seqs st') /\
    map cust_id (map fst bs) =
      handed_out (customers_id_seq (seqs st)) (List.length (map fst bs)) /\
    (forall other, other <> inv_id row ->
       aggregate (stored st') other = aggregate (stored st) other).
Proof.
  intros W H. apply serve_create_effect in H.
  destruct H as (total & row & bs & c2 & H1 & H2 & H3 & H4 & H5 & H6 & H7 & A & E & Eq).
  exists total, row, bs. rewrite E.
  pose proof (app_invoices _ _ _ _ A) as Ai. cbn [work invoices] in Ai.
  pose proof (app_customers _ _ _ _ A) as Ac. cbn [work customers] in Ac.
  pose proof (app_items _ _ _ _ A) as At. cbn [work items] in At.
  conjs; try assumption.
  - rewrite Ai. apply find_app_fresh; [exact H6|].
    apply owned_by_spec. auto.
  - destruct H7 as (cs & _ & Hbs).
    refine (aggregate_appended (inv_id row) cs bs _ c2 _ _ Hbs A); cbn [work conn_seqs].
    + apply well_formed_insert_invoice; [exact W | exact H5 | rewrite H3; exact H6].
    + cbn [customers]. apply (old_customers_elsewhere (stored st) (seqs st)); [exact W | lia].
  - rewrite Eq. unfold seqs_le.
    rewrite (app_invoice_seq _ _ _ _ A), (app_customer_seq _ _ _ _ A),
      (app_item_seq _ _ _ _ A). cbn [conn_seqs invoices_id_seq customers_id_seq items_id_seq].
    lia.
  - exact (app_customer_ids _ _ _ _ A).
  - intros other Hne. destruct H7 as (cs & _ & Hbs).
    match type of A with
    | appended _ _ ?k _ =>
        rewrite (aggregate_appended_other (inv_id row) other cs bs k c2)
    end; auto.
    cbn [work conn_seqs].
    apply well_formed_insert_invoice; [exact W | exact H5 | rewrite H3; exact H6].
Qed.

(** X6.  Create then fetch: on well-formed tables, after a Create that
    answers 201 the lookup by the user and the number finds the new row, and
    the customers fetched for it, each with its items, are exactly the
    customer entries and items of the request, in order. *)
Theorem create_then_fetch (u : Z) (data number : value) (st st' : database) :
  consistent st ->
  serve (create_invoice u data) st = (st', Jsonify (created_body number) 201) ->
  exists total row bs,
    parse_total_amount data = Return total /\
    header_of data total row /\
    pg_integer number = Some (invoice_number row) /\
    blocks_of (inv_id row) data bs /\
    find (owned_by u (invoice_number row)) (invoices (stored st')) = Some row /\
    aggregate (stored st') (inv_id row) = bs.
Proof.
  intros W H. destruct (create_then_find u data st st' number W H)
    as (total & row & bs & H1 & H2 & H3 & _ & H5 & H6 & H7 & _).
  exists total, row, bs. conjs; assumption.
Qed.

(** ** Replace *)

Lemma serve_modify_effect u n data st st' :
  serve (modify_invoice u n data) st = (st', Jsonify success_body 200) ->
  exists r c,
    find (owned_by u n) (invoices (stored st)) = Some r /\
    replace_invoice (inv_id r) data (get_db st) = (Return (Jsonify success_body 200), c) /\
    st' = close_connection c.
Proof.
  intro H. apply serve_returned in H; [|discriminate].
  destruct H as (c & E & ->). unfold modify_invoice in E.
  destruct (negb (truthy data)); [discriminate E|].
  apply bind_return in E. destruct E as (row & c1 & H1 & E).
  unfold select_invoice, read in H1. cbv beta in H1. injection H1 as <- <-.
  destruct (find (owned_by u n) (invoices (stored st))) as [r|] eqn:F;
    [|unfold ret in E; discriminate E].
  exists r, c. auto.
Qed.

Lemma replace_then_find u n data st st' :
  consistent st ->
  serve (modify_invoice u n data) st = (st', Jsonify success_body 200) ->
  exists r d cn ca ce t total bs,
    find (owned_by u n) (invoices (stored st)) = Some r /\
    py_bind (py_get data "total_amount" (JInt 0)) py_float = Return total /\
    header_of data total (with_header d cn ca ce t r) /\
    blocks_of (inv_id r) data bs /\
    invoices (stored st') =
      map (fun x => if inv_id x =? inv_id r then with_header d cn ca ce t x else x)
          (invoices (stored st)) /\
    customers (stored st') =
      customers (without_children (inv_id r) (stored st)) ++ map fst bs /\
    items (stored st') =
      items (without_children (inv_id r) (stored st)) ++ List.concat (map snd bs) /\
    aggregate (stored st') (inv_id r) = bs /\
    (forall other, other <> inv_id r ->
       aggregate (stored st') other = aggregate (stored st) other).
Proof.
  intros W H. apply serve_modify_effect in H. destruct H as (r & c & F & H & ->).
  apply replace_invoice_effect in H.
  destruct H as (cdate & cname & caddr & cemail & total & d & cn & ca & ce & t & bs & c2
                 & G1 & G2 & G3 & G4 & G5 & P1 & P2 & P3 & P4 & P5 & Hbs & A & E & Eq).
  exists r, d, cn, ca, ce, t, total, bs. cbn [stored close_connection]. rewrite E.
  pose proof (app_invoices _ _ _ _ A) as Ai. cbn [work without_children invoices] in Ai.
  pose proof (app_customers _ _ _ _ A) as Ac. cbn [work without_children customers] in Ac.
  pose proof (app_items _ _ _ _ A) as At. cbn [work without_children items customers] in At.
  assert (W1 : well_formed
                 (without_children (inv_id r)
                    {| invoices :=
                         map (fun x => if inv_id x =? inv_id r
                                       then with_header d cn ca ce t x else x)
                             (invoices (stored st));
                       customers := customers (stored st);
                       items := items (stored st) |}) (seqs st)).
  { apply well_formed_without_children.
    apply (well_formed_update_invoice (stored st) (seqs st)
             (fun x => if inv_id x =? inv_id r then with_header d cn ca ce t x else x)).
    - intro x. destruct (inv_id x =? inv_id r); cbn; auto.
    - exact W. }
  destruct Hbs as (cs & Hcs & Hbs).
  conjs; try assumption.
  - exists cdate, cname, caddr, cemail. cbn. conjs; assumption.
  - exists cs. auto.
  - match type of A with
    | appended _ _ ?k _ => refine (aggregate_appended (inv_id r) cs bs k c2 W1 _ Hbs A)
    end.
    cbn [work without_children customers]. intros cu Hcu.
    apply filter_In in Hcu. destruct Hcu as [_ Hne].
    apply negb_true_iff in Hne. apply Z.eqb_neq in Hne. exact Hne.
  - intros other Hne.
    match type of A with
    | appended _ _ ?k _ =>
        rewrite (aggregate_appended_other (inv_id r) other cs bs k c2 W1 Hne Hbs A)
    end.
    cbn [work].
    rewrite <- (aggregate_without_children (stored st) (inv_id r) other
                  (wf_customer_ids _ _ W) Hne).
    apply aggregate_ext; reflexivity.
Qed.

(** X7.  Replace then fetch: on well-formed tables, after a Replace that
    answers 200 the invoice keeps its id, its number and its owner (an
    [invoice_number] in the body is not looked at), its row holds the header
    fields of the request, and the customers fetched for it are exactly
    those of the request: none of the old ones is left.  No invoice row is
    added or removed. *)
Theorem replace_then_fetch (u n : Z) (data : value) (st st' : database) :
  consistent st ->
  serve (modify_invoice u n data) st = (st', Jsonify success_body 200) ->
  exists r row total bs,
    find (owned_by u n) (invoices (stored st)) = Some r /\
    find (owned_by u n) (invoices (stored st')) = Some row /\
    inv_id row = inv_id r /\
    py_bind (py_get data "total_amount" (JInt 0)) py_float = Return total /\
    header_of data total row /\
    blocks_of (inv_id r) data bs /\
    aggregate (stored st') (inv_id r) = bs /\
    map inv_id (invoices (stored st')) = map inv_id (invoices (stored st)).
Proof.
  intros W H. destruct (replace_then_find u n data st st' W H)
    as (r & d & cn & ca & ce & t & total & bs & F & Ht & Hh & Hbs & Ei & _ & _ & Ha & _).
  exists r, (with_header d cn ca ce t r), total, bs.
  conjs; try assumption; try reflexivity.
  - rewrite Ei, find_map_owned, F.
    + cbn [option_map]. rewrite Z.eqb_refl. reflexivity.
    + intro x. destruct (inv_id x =? inv_id r); cbn; auto.
  - rewrite Ei, map_map. apply map_ext. intro x.
    destruct (inv_id x =? inv_id r); reflexivity.
Qed.

(** ** Delete *)

Lemma has_invoice_find tb u n :
  has_invoice tb u n -> exists r, find (owned_by u n) (invoices tb) = Some r.
Proof.
  intros (r & Hr & Hu & Hn).
  destruct (find (owned_by u n) (invoices tb)) as [r0|] eqn:F; [eauto|].
  exfalso. pose proof (find_none _ _ F r Hr) as K.
  assert (X : owned_by u n r = true) by (apply owned_by_spec; auto).
  congruence.
Qed.

Lemma serve_delete_missing u n st :
  find (owned_by u n) (invoices (stored st)) = None ->
  serve (delete_invoice u n) st = (st, not_found).
Proof.
  intro F. unfold serve, delete_invoice, bind, select_invoice, read.
  cbn [work get_db]. rewrite F. unfold ret. rewrite close_get_db. reflexivity.
Qed.

Lemma without_invoice_has_not tb q u n r :
  well_formed tb q ->
  find (owned_by u n) (invoices tb) = Some r ->
  ~ has_invoice (without_invoice (inv_id r) tb) u n.
Proof.
  intros W F (x & Hx & Hu & Hn).
  cbn [without_invoice invoices] in Hx. apply filter_In in Hx. destruct Hx as [Hx Hne].
  apply find_owned_some in F. destruct F as (Hr & Hru & Hrn).
  assert (x = r) as ->.
  { apply (nodup_map_injective (fun r => (user_id r, invoice_number r)) (invoices tb));
      auto.
    - exact (wf_numbers _ _ W).
    - congruence. }
  rewrite Z.eqb_refl in Hne. discriminate Hne.
Qed.

(** X9.  Delete of an invoice that the user has, through the route: on
    well-formed tables, when the number is one that the route carries (it is
    not negative), Delete answers 200 and leaves the tables without that
    invoice row, without its customers and without their items, every other
    row staying in place; the user then has no invoice with that number, so
    that a second Delete answers 404 and changes nothing.  An invoice with a
    negative number, which Create accepts, cannot be deleted: the path
    matches no route, the 404 handler answers and nothing changes. *)
Theorem delete_removes_the_invoice (u n : Z) (st : database) :
  consistent st ->
  has_invoice (stored st) u n ->
  (0 <= n ->
   exists r st',
     find (owned_by u n) (invoices (stored st)) = Some r /\
     st' = {| stored := without_invoice (inv_id r) (stored st); seqs := seqs st |} /\
     serve (routed n (delete_invoice u n)) st = (st', Jsonify success_body 200) /\
     ~ has_invoice (stored st') u n /\
     aggregate (stored st') (inv_id r) = [] /\
     serve (routed n (delete_invoice u n)) st' = (st', not_found)) /\
  (n < 0 -> serve (routed n (delete_invoice u n)) st = (st, no_route)).
Proof.
  intros W H. split; [|intro Hn; exact (serve_no_route n _ st Hn)].
  intro Hn. rewrite (routed_to n _ Hn).
  destruct (has_invoice_find _ _ _ H) as (r & F).
  exists r, {| stored := without_invoice (inv_id r) (stored st); seqs := seqs st |}.
  pose proof (without_invoice_has_not (stored st) (seqs st) u n r W F) as N.
  conjs; auto.
  - apply serve_delete_invoice. exact F.
  - cbn [stored].
    rewrite (aggregate_ext (without_invoice (inv_id r) (stored st))
               (without_children (inv_id r) (stored st))); try reflexivity.
    apply aggregate_without_own_children.
  - apply serve_delete_missing. cbn [stored]. apply find_owned_none. exact N.
Qed.

(** ** Requests leave the other invoices alone *)

Lemma other_invoice_id tb q u n r0 r :
  well_formed tb q ->
  find (owned_by u n) (invoices tb) = Some r0 ->
  In r (invoices tb) ->
  ~ (user_id r = u /\ invoice_number r = n) ->
  inv_id r <> inv_id r0.
Proof.
  intros W F Hr Hna E. apply Hna.
  apply find_owned_some in F. destruct F as (Hr0 & Hu & Hn).
  assert (r = r0) as ->; [|auto].
  apply (nodup_map_injective inv_id (invoices tb)); auto.
  exact (wf_invoice_ids _ _ W).
Qed.

Lemma create_keeps_others u data st r :
  consistent st -> In r (invoices (stored st)) ->
  In r (invoices (stored (fst (serve (create_invoice u data) st)))) /\
  aggregate (stored (fst (serve (create_invoice u data) st))) (inv_id r) =
  aggregate (stored st) (inv_id r).
Proof.
  intros W Hr.
  destruct (serve_guarded created _ st (guarded_create_invoice u data)) as [[number Hc]|Hs].
  - destruct (serve (create_invoice u data) st) as [st' resp] eqn:E.
    cbn [fst snd] in *. subst resp.
    destruct (create_then_find u data st st' number W E)
      as (total & row & bs & _ & _ & _ & Hid & _ & _ & _ & Ei & _ & _ & _ & _ & Ho).
    split.
    + rewrite Ei. apply in_or_app. left. exact Hr.
    + apply Ho. pose proof (wf_invoice_seq _ _ W r Hr). lia.
  - rewrite Hs. auto.
Qed.

Lemma modify_keeps_others u n data st r :
  consistent st -> In r (invoices (stored st)) ->
  ~ (user_id r = u /\ invoice_number r = n) ->
  In r (invoices (stored (fst (serve (modify_invoice u n data) st)))) /\
  aggregate (stored (fst (serve (modify_invoice u n data) st))) (inv_id r) =
  aggregate (stored st) (inv_id r).
Proof.
  intros W Hr Hna.
  destruct (serve_guarded succeeded _ st (guarded_modify_invoice u n data)) as [Hc|Hs].
  - destruct (serve (modify_invoice u n data) st) as [st' resp] eqn:E.
    cbn [fst snd] in *. unfold succeeded in Hc. subst resp.
    destruct (replace_then_find u n data st st' W E)
      as (r0 & d & cn & ca & ce & t & total & bs & F & _ & _ & _ & Ei & _ & _ & _ & Ho).
    pose proof (other_invoice_id _ _ u n r0 r W F Hr Hna) as Hne.
    split.
    + rewrite Ei. apply in_map_iff. exists r. split; [|exact Hr].
      apply Z.eqb_neq in Hne. rewrite Hne. reflexivity.
    + apply Ho. exact Hne.
  - rewrite Hs. auto.
Qed.

Lemma delete_keeps_others u n st r :
  consistent st -> In r (invoices (stored st)) ->
  ~ (user_id r = u /\ invoice_number r = n) ->
  In r (invoices (stored (fst (serve (delete_invoice u n) st)))) /\
  aggregate (stored (fst (serve (delete_invoice u n) st))) (inv_id r) =
  aggregate (stored st) (inv_id r).
Proof.
  intros W Hr Hna.
  destruct (find (owned_by u n) (invoices (stored st))) as [r0|] eqn:F.
  - rewrite (serve_delete_invoice u n st r0 F). cbn [fst stored].
    pose proof (other_invoice_id _ _ u n r0 r W F Hr Hna) as Hne.
    split.
    + cbn [without_invoice invoices]. apply filter_In. split; [exact Hr|].
      apply negb_true_iff. apply Z.eqb_neq. exact Hne.
    + rewrite (aggregate_ext (without_invoice (inv_id r0) (stored st))
                 (without_children (inv_id r0) (stored st))); try reflexivity.
      apply aggregate_without_children; [exact (wf_customer_ids _ _ W) | exact Hne].
  - rewrite (serve_delete_missing u n st F). auto.
Qed.

(** X8.  A request leaves every invoice that it does not name as it was: on
    well-formed tables, an invoice row other than the one a Replace or a
    Delete names by user and number is still stored after the request, with
    the same customers and items.  A request of one user thus never changes
    an invoice of another user. *)
Theorem other_invoices_are_untouched
    (order : list invoice_row -> list invoice_row) (rq : request) (st : database)
    (r : invoice_row) :
  consistent st ->
  In r (invoices (stored st)) ->
  ~ addressed rq r ->
  In r (invoices (stored (fst (handle order rq st)))) /\
  aggregate (stored (fst (handle order rq st))) (inv_id r) =
  aggregate (stored st) (inv_id r).
Proof.
  intros W Hr Hna. unfold handle.
  destruct rq as [u|u data|u n data|u n|u p|u|u n]; cbn [view_of addressed] in *.
  - rewrite serve_reads; [auto | apply reads_list_invoices].
  - apply create_keeps_others; assumption.
  - destruct (Z.ltb_spec n 0) as [Hn|Hn].
    + rewrite (serve_no_route n _ st Hn). auto.
    + rewrite (routed_to n _ Hn). apply modify_keeps_others; assumption.
  - destruct (Z.ltb_spec n 0) as [Hn|Hn].
    + rewrite (serve_no_route n _ st Hn). auto.
    + rewrite (routed_to n _ Hn). apply delete_keeps_others; assumption.
  - rewrite serve_reads; [auto | apply reads_categorize].
  - rewrite serve_reads; [auto | apply reads_reset_invoice_number].
  - destruct (Z.ltb_spec n 0) as [Hn|Hn].
    + rewrite (serve_no_route n _ st Hn). auto.
    + rewrite (routed_to n _ Hn).
      rewrite serve_reads; [auto | apply reads_generate_pdf].
Qed.

(** ** Create followed by Delete *)

(** X10.  Create followed by Delete of the number that Create answered
    undoes the Create when the route carries that number: on well-formed
    tables the stored tables are again those of before the Create, row for
    row, and only the sequences have moved on.  After a Create with a
    negative number the Delete matches no route: the 404 handler answers
    and the new invoice stays. *)
Theorem create_then_delete_restores (u n : Z) (data number : value)
    (st st1 : database) :
  consistent st ->
  serve (create_invoice u data) st = (st1, Jsonify (created_body number) 201) ->
  pg_integer number = Some n ->
  serve (routed n (delete_invoice u n)) st1 =
    if n <? 0 then (st1, no_route)
    else ({| stored := stored st; seqs := seqs st1 |}, Jsonify success_body 200).
Proof.
  intros W H Hn.
  destruct (Z.ltb_spec n 0) as [Hneg|Hpos]; [exact (serve_no_route n _ st1 Hneg)|].
  rewrite (routed_to n _ Hpos).
  destruct (create_then_find u data st st1 number W H)
    as (total & row & bs & _ & _ & Hnum & Hid & (cs & _ & Hbs) & F & _ & Ei & Ec & Et
        & _ & Hids & _).
  assert (n = invoice_number row) as -> by congruence.
  rewrite (serve_delete_invoice u (invoice_number row) st1 row F).
  f_equal. f_equal.
  assert (Hch : children (stored st1) (inv_id row) = map cust_id (map fst bs)).
  { unfold children. rewrite Ec, filter_app.
    rewrite (filter_none _ (customers (stored st))).
    2:{ intros c Hc. apply Z.eqb_neq.
        apply (old_customers_elsewhere (stored st) (seqs st)); [exact W | lia | exact Hc]. }
    rewrite filter_all; [reflexivity|].
    intros c Hc. apply Z.eqb_eq. exact (blocks_invoice _ cs bs Hbs c Hc). }
  apply tables_eq; cbn [without_invoice without_children invoices customers items].
  - rewrite Ei, filter_app. cbn [filter]. rewrite Z.eqb_refl. cbn [negb].
    rewrite app_nil_r. apply filter_all. intros x Hx.
    apply negb_true_iff. apply Z.eqb_neq.
    pose proof (wf_invoice_seq _ _ W x Hx). lia.
  - rewrite Ec, filter_app.
    rewrite (filter_none _ (map fst bs)).
    2:{ intros c Hc. apply negb_false_iff. apply Z.eqb_eq.
        exact (blocks_invoice _ cs bs Hbs c Hc). }
    rewrite app_nil_r. apply filter_all. intros c Hc.
    apply negb_true_iff. apply Z.eqb_neq.
    apply (old_customers_elsewhere (stored st) (seqs st)); [exact W | lia | exact Hc].
  - rewrite Hch, Et, filter_app.
    rewrite (filter_none _ (List.concat (map snd bs))).
    2:{ intros i Hi. apply negb_false_iff. apply mem_in.
        exact (blocks_item_ref _ cs bs Hbs i Hi). }
    rewrite app_nil_r. apply filter_all. intros i Hi.
    apply negb_true_iff. destruct (mem (customer_id i) (map cust_id (map fst bs))) eqn:M;
      [|reflexivity].
    exfalso. apply mem_in in M. rewrite Hids in M. revert M.
    apply (old_items_elsewhere (stored st) (seqs st)); [exact W | lia | exact Hi].
Qed.

(** ** The listing *)

Lemma attach_customers_reads rows c :
  attach_customers rows c =
  (Return (map (fun r => invoice_dict r (aggregate (work c) (inv_id r))) rows), c).
Proof.
  induction rows as [|row rows IH]; cbn [attach_customers map]; [reflexivity|].
  unfold bind. rewrite fetch_customers_reads, IH. reflexivity.
Qed.

(** X1.  The listing of a user never fails and never writes.  It holds the
    invoices of that user and no other: each of them once, as the dict of
    its row with its customers and their items, whatever order the database
    returns the rows in. *)
Theorem list_invoices_lists_own_invoices
    (order : list invoice_row -> list invoice_row) (u : Z) (st : database) :
  (forall l, Permutation (order l) l) ->
  exists listed,
    serve (list_invoices order u) st = (st, Jsonify (JArr listed) 200) /\
    Permutation listed
      (map (fun r => invoice_dict r (aggregate (stored st) (inv_id r)))
           (filter (fun r => user_id r =? u) (invoices (stored st)))).
Proof.
  intro Hperm.
  exists (map (fun r => invoice_dict r (aggregate (stored st) (inv_id r)))
              (order (filter (fun r => user_id r =? u) (invoices (stored st))))).
  split.
  - unfold serve, list_invoices, try_except, bind, read.
    rewrite attach_customers_reads. unfold ret. cbn [work get_db].
    rewrite close_get_db. reflexivity.
  - apply Permutation_map. apply Hperm.
Qed.

(** ** The counter *)

Lemma reset_next u c :
  exists mx,
    reset_invoice_number u c =
      (Return (Jsonify (JObj [("success"%string, JBool true);
                              ("lastInvoiceNumber"%string, JInt mx)]) 200), c) /\
    next_invoice_number u c = (Return (mx + 1), c).
Proof.
  unfold reset_invoice_number, next_invoice_number, bind, select_max_invoice_number, read, ret.
  eexists. split; reflexivity.
Qed.

(** X2.  The counter route only reads: it answers 200 with the number
    [lastInvoiceNumber] and leaves the database as it is.  A Create without
    a number that follows it and answers 201 gets [lastInvoiceNumber + 1]. *)
Theorem reset_reports_the_last_number (u : Z) (st st' : database)
    (data supplied number : value) :
  py_get data "invoice_number" JNull = Return supplied ->
  truthy supplied = false ->
  serve (create_invoice u data) st = (st', Jsonify (created_body number) 201) ->
  exists mx,
    serve (reset_invoice_number u) st =
      (st, Jsonify (JObj [("success"%string, JBool true);
                          ("lastInvoiceNumber"%string, JInt mx)]) 200) /\
    number = JInt (mx + 1).
Proof.
  intros Hs Ht H.
  destruct (reset_next u (get_db st)) as (mx & Hr & Hn).
  exists mx. split.
  - unfold serve. rewrite Hr. rewrite close_get_db. reflexivity.
  - destruct (created_by_policy u data supplied st st' number Hs Ht H)
      as (k & row & Hk & -> & _).
    rewrite Hn in Hk. injection Hk as <-. reflexivity.
Qed.

(** X14.  The number that Create picks when the request gives none is not
    in use: the user has no invoice with it. *)
Theorem next_number_is_free (u : Z) (st : database) :
  exists k,
    next_invoice_number u (get_db st) = (Return k, get_db st) /\
    ~ has_invoice (stored st) u k.
Proof.
  assert (Hin : forall r, In r (invoices (stored st)) -> user_id r = u ->
                  In (invoice_number r) (numbers_of (stored st) u)).
  { intros r Hr Hu. unfold numbers_of. apply in_map. apply filter_In.
    split; [exact Hr | apply Z.eqb_eq; exact Hu]. }
  destruct (exists_max (numbers_of (stored st) u)) as [E|(m & Hm)].
  - exists 1000. split.
    + apply next_invoice_number_none. exact E.
    + intros (r & Hr & Hu & _). specialize (Hin r Hr Hu).
      cbn [work get_db] in E. rewrite E in Hin. destruct Hin.
  - exists (if m =? 0 then 1000 else m + 1). split.
    + apply next_invoice_number_some. exact Hm.
    + intros (r & Hr & Hu & Hn). specialize (Hin r Hr Hu).
      destruct Hm as [_ Hmax]. specialize (Hmax _ Hin). rewrite Hn in Hmax.
      destruct (Z.eqb_spec m 0); lia.
Qed.

(** ** Bodies that are no JSON object *)

(** X13.  A body that is no JSON object, or an empty one, creates nothing.
    A falsy body is answered 400 and any other body that is no object 500;
    both leave the database, its sequences included, as it was. *)
Theorem create_needs_an_object (u : Z) (data : value) (st : database) :
  truthy data = false \/ (forall kv, data <> JObj kv) ->
  serve (create_invoice u data) st =
    (st, if truthy data then create_failed
         else Jsonify (error_body "No JSON body") 400).
Proof.
  intro H. unfold serve, create_invoice, try_except, create_invoice_try.
  destruct (truthy data) eqn:T; cbn [negb].
  - destruct H as [H|H]; [discriminate H|].
    assert (E : invoice_number_for u data (get_db st) = (Raise AttributeError, get_db st)).
    { unfold invoice_number_for, bind, lift.
      destruct data; try reflexivity. exfalso. eapply H. reflexivity. }
    unfold bind at 1. rewrite E.
    unfold bind, rollback, ret. cbn [snapshot get_db conn_seqs close_connection].
    destruct st; reflexivity.
  - unfold ret. rewrite close_get_db. reflexivity.
Qed.

(** ** Items that the PDF cannot show *)

Lemma render_item_cases item :
  (exists r, render_item item = Return r /\ ~ undrawable item) \/
  (exists e, render_item item = Raise e /\ undrawable item).
Proof.
  unfold render_item, undrawable.
  destruct (float_of_int (quantity item)) as [q|]; cbn [py_bind].
  - destruct (description item) as [d|]; cbn [py_bind].
    + left. eexists. split; [reflexivity|]. intros [H|H]; discriminate H.
    + right. eexists. split; [reflexivity|]. left. reflexivity.
  - right. eexists. split; [reflexivity|]. right. reflexivity.
Qed.

Lemma render_items_cases its :
  forall subtotal,
  (exists r, render_items its subtotal = Return r /\
             forall i, In i its -> ~ undrawable i) \/
  (exists e, render_items its subtotal = Raise e /\
             exists i, In i its /\ undrawable i).
Proof.
  induction its as [|item its IH]; intro subtotal; cbn [render_items].
  - left. eexists. split; [reflexivity|]. intros i [].
  - destruct (render_item_cases item) as [(r & -> & Hr)|(e & -> & He)]; cbn [py_bind].
    + destruct (IH (float_add subtotal (snd r))) as [(rs & -> & Hrs)|(e & -> & i & Hi & Hu)];
        cbn [py_bind].
      * left. eexists. split; [reflexivity|]. intros i [<-|Hi]; auto.
      * right. eexists. split; [reflexivity|]. exists i. split; [right|]; assumption.
    + right. eexists. split; [reflexivity|]. exists item. split; [left; reflexivity|exact He].
Qed.

Lemma render_table_cases its :
  (exists r, render_table its = Return r /\ forall i, In i its -> ~ undrawable i) \/
  (exists e, render_table its = Raise e /\ exists i, In i its /\ undrawable i).
Proof.
  unfold render_table. destruct its as [|item its].
  - left. eexists. split; [reflexivity|]. intros i [].
  - destruct (render_items_cases (item :: its) float_zero)
      as [(r & -> & Hr)|(e & -> & Hu)]; cbn [py_bind].
    + left. eexists. split; [reflexivity | exact Hr].
    + right. eexists. split; [reflexivity | exact Hu].
Qed.

Lemma render_customer_cases cust its last :
  (exists calls, render_customer cust its last = Return calls /\
                 forall i, In i its -> ~ undrawable i) \/
  (exists e, render_customer cust its last = Raise e /\
             exists i, In i its /\ undrawable i).
Proof.
  unfold render_customer.
  destruct (render_table_cases its) as [(r & -> & Hr)|(e & -> & Hu)]; cbn [py_bind].
  - left. eexists. split; [reflexivity | exact Hr].
  - right. eexists. split; [reflexivity | exact Hu].
Qed.

Lemma render_customers_cases custs :
  (exists calls, render_customers custs = Return calls /\
                 forall cust its i, In (cust, its) custs -> In i its -> ~ undrawable i) \/
  (exists e, render_customers custs = Raise e /\
             exists cust its i, In (cust, its) custs /\ In i its /\ undrawable i).
Proof.
  induction custs as [|[cust its] custs IH]; cbn [render_customers].
  - left. eexists. split; [reflexivity|]. intros ? ? ? [].
  - destruct (render_customer_cases cust its
                (match custs with [] => true | _ :: _ => false end))
      as [(r & -> & Hr)|(e & -> & i & Hi & Hu)]; cbn [py_bind].
    + destruct IH as [(calls & -> & Hc)|(e & -> & cu & its' & i & Hin & Hi & Hu)];
        cbn [py_bind].
      * left. eexists. split; [reflexivity|].
        intros cu its' i [E|Hin] Hi; [injection E as <- <-; auto | eauto].
      * right. eexists. split; [reflexivity|].
        exists cu, its', i. split; [right|]; auto.
    + right. eexists. split; [reflexivity|].
      exists cust, its, i. split; [left; reflexivity | auto].
Qed.

Lemma generate_pdf_run u n st invoice :
  find (owned_by u n) (invoices (stored st)) = Some invoice ->
  serve (generate_pdf u n) st =
  (st, match render_invoice invoice (aggregate (stored st) (inv_id invoice)) with
       | Return calls => SendFile calls ("invoice_" ++ str_of_int n ++ ".pdf")%string
       | Raise _ => unexpected
       end).
Proof.
  intro F. unfold serve, generate_pdf.
  unfold bind at 1. unfold select_invoice, read. cbn [work get_db]. rewrite F.
  unfold bind at 1. rewrite fetch_customers_reads. cbn [work get_db].
  unfold bind, lift.
  destruct (render_invoice invoice (aggregate (stored st) (inv_id invoice))) as [calls|e];
    unfold ret; cbv beta iota; rewrite close_get_db; reflexivity.
Qed.

Lemma render_invoice_cases invoice custs :
  (exists calls, render_invoice invoice custs = Return calls /\
     company_name invoice <> None /\
     forall cust its i, In (cust, its) custs -> In i its -> ~ undrawable i) \/
  (exists e, render_invoice invoice custs = Raise e /\
     (company_name invoice = None \/
      exists cust its i, In (cust, its) custs /\ In i its /\ undrawable i)).
Proof.
  unfold render_invoice, render_header.
  destruct (company_name invoice) as [name|]; cbn [py_bind].
  - destruct (render_customers_cases custs) as [(body & -> & H)|(e & -> & H)];
      cbn [py_bind].
    + left. eexists. split; [reflexivity|]. split; [discriminate | exact H].
    + right. eexists. split; [reflexivity|]. right. exact H.
  - right. eexists. split; [reflexivity|]. left. reflexivity.
Qed.

Lemma generate_pdf_cases u n st invoice :
  find (owned_by u n) (invoices (stored st)) = Some invoice ->
  (exists calls name, serve (generate_pdf u n) st = (st, SendFile calls name) /\
     company_name invoice <> None /\
     forall cust its i, In (cust, its) (aggregate (stored st) (inv_id invoice)) ->
                        In i its -> ~ undrawable i) \/
  (serve (generate_pdf u n) st = (st, unexpected) /\
   (company_name invoice = None \/
    exists cust its i, In (cust, its) (aggregate (stored st) (inv_id invoice)) /\
                       In i its /\ undrawable i)).
Proof.
  intro F. rewrite (generate_pdf_run u n st invoice F).
  destruct (render_invoice_cases invoice (aggregate (stored st) (inv_id invoice)))
    as [(calls & -> & H)|(e & -> & H)].
  - left. do 2 eexists. split; [reflexivity | exact H].
  - right. split; [reflexivity | exact H].
Qed.


Lemma forall2_in_left {A B : Type} (R : A -> B -> Prop) (l : list A) (l' : list B) (a : A) :
  Forall2 R l l' -> In a l -> exists b, In b l' /\ R a b.
Proof.
  induction 1 as [|x y l l' Hxy _ IH]; intro Hin; [destruct Hin|].
  destruct Hin as [<-|Hin].
  - exists y. split; [left; reflexivity | exact Hxy].
  - destruct (IH Hin) as (b & Hb & Hr). exists b. split; [right|]; assumption.
Qed.

(** X12.  Create stores an item that has no description, and the PDF of
    that invoice then cannot be made: on well-formed tables, when a Create
    whose body lists an item without a [description] answers 201 with a
    number that the route carries, the PDF route answers 500 for the new
    invoice.  With a negative number the path matches no route and the
    answer is the 404 of the handler. *)
Theorem item_without_description_breaks_the_pdf (u n : Z) (data number : value)
    (st st' : database) (cs its : list value) (cu it : value) :
  consistent st ->
  pg_text JNull = Some None ->
  serve (create_invoice u data) st = (st', Jsonify (created_body number) 201) ->
  pg_integer number = Some n ->
  customers_of data = Return cs -> In cu cs ->
  items_of cu = Return its -> In it its ->
  py_get it "description" JNull = Return JNull ->
  serve (routed n (generate_pdf u n)) st' =
    (st', if n <? 0 then no_route else unexpected).
Proof.
  intros W Hnull H Hn Hcs Hcu Hits Hit Hdesc.
  destruct (Z.ltb_spec n 0) as [Hneg|Hpos]; [exact (serve_no_route n _ st' Hneg)|].
  rewrite (routed_to n _ Hpos).
  destruct (create_then_find u data st st' number W H)
    as (total & row & bs & _ & _ & Hnum & _ & (cs' & Hcs' & Hbs) & F & Ha & _).
  assert (n = invoice_number row) as -> by congruence.
  assert (cs' = cs) as -> by congruence.
  destruct (forall2_in_left _ _ _ cu Hbs Hcu) as (b & Hb & _ & its' & Hits' & Hrows).
  assert (its' = its) as -> by congruence.
  destruct (forall2_in_left _ _ _ it Hrows Hit)
    as (irow & Hirow & (desc & qty & price & Hp & Hd & _) & _).
  assert (desc = JNull) as ->.
  { unfold item_params in Hp. rewrite Hdesc in Hp. cbn [py_bind] in Hp.
    destruct (py_bind (py_get it "quantity" (JInt 1)) py_int); [|discriminate Hp].
    cbn [py_bind] in Hp.
    destruct (py_bind (py_get it "unit_price" (JInt 0)) py_float); [|discriminate Hp].
    cbn [py_bind] in Hp. congruence. }
  destruct (generate_pdf_cases u (invoice_number row) st' row F)
    as [(calls & name & _ & _ & K)|[K _]]; [|exact K].
  exfalso. apply (K (fst b) (snd b) irow).
  - rewrite Ha. destruct b; exact Hb.
  - exact Hirow.
  - left. congruence.
Qed.

(** ** The buckets partition the invoices of the user *)

Lemma key_eqb_neq a b : key_eqb a b = false -> a <> b.
Proof. intros H ->. rewrite key_eqb_refl in H. discriminate H. Qed.

Lemma setdefault_keys key inv d k :
  In k (map fst (setdefault_append key inv d)) -> In k (map fst d) \/ k = key.
Proof.
  induction d as [|[k0 l0] d IH]; cbn.
  - intros [<-|[]]. right. reflexivity.
  - destruct (key_eqb k0 key); cbn; intros [<-|H]; auto.
    destruct (IH H); auto.
Qed.

Lemma setdefault_nodup key inv d :
  NoDup (map fst d) -> NoDup (map fst (setdefault_append key inv d)).
Proof.
  induction d as [|[k0 l0] d IH]; cbn; intro H.
  - repeat constructor. intros [].
  - inversion H as [|? ? Hk Hd]; subst.
    destruct (key_eqb k0 key) eqn:E; cbn; constructor; auto.
    intro K. apply setdefault_keys in K. destruct K as [K|K]; [auto|].
    apply key_eqb_neq in E. congruence.
Qed.

Lemma setdefault_permutation key inv d :
  Permutation (List.concat (map snd (setdefault_append key inv d)))
              (List.concat (map snd d) ++ [inv]).
Proof.
  induction d as [|[k0 l0] d IH]; cbn; [reflexivity|].
  destruct (key_eqb k0 key); cbn.
  - rewrite <- !app_assoc. apply Permutation_app_head. apply Permutation_app_comm.
  - rewrite <- app_assoc. apply Permutation_app_head. exact IH.
Qed.

Lemma setdefault_member key inv d k l x :
  In (k, l) (setdefault_append key inv d) -> In x l ->
  (exists l', In (k, l') d /\ In x l') \/ (k = key /\ x = inv).
Proof.
  induction d as [|[k0 l0] d IH]; cbn.
  - intros [E|[]] Hx. injection E as <- <-. destruct Hx as [<-|[]]. auto.
  - destruct (key_eqb k0 key) eqn:E; cbn.
    + intros [K|K] Hx.
      * injection K as <- <-. apply in_app_or in Hx. destruct Hx as [Hx|[<-|[]]].
        -- left. exists l0. auto.
        -- right. apply key_eqb_eq in E. auto.
      * left. exists l. auto.
    + intros [K|K] Hx.
      * left. exists l. auto.
      * destruct (IH K Hx) as [(l' & Hl' & Hx')|R]; [|auto].
        left. exists l'. auto.
Qed.

Lemma categorize_rows_partition period tb rows :
  forall acc done,
    NoDup (map fst acc) ->
    Permutation (List.concat (map snd acc)) (map (invoice_with_names tb) done) ->
    (forall k l x, In (k, l) acc -> In x l ->
       exists row, In row done /\ x = invoice_with_names tb row /\
                   bucket_key period (creation_date row) = k) ->
    let result :=
      fold_left (fun categorized row =>
                   setdefault_append (bucket_key period (creation_date row))
                     (invoice_with_names tb row) categorized) rows acc in
    NoDup (map fst result) /\
    Permutation (List.concat (map snd result)) (map (invoice_with_names tb) (done ++ rows)) /\
    (forall k l x, In (k, l) result -> In x l ->
       exists row, In row (done ++ rows) /\ x = invoice_with_names tb row /\
                   bucket_key period (creation_date row) = k).
Proof.
  induction rows as [|r rows IH]; intros acc done Hnd Hperm Hmem; cbn [fold_left].
  - rewrite app_nil_r. auto.
  - replace (done ++ r :: rows) with ((done ++ [r]) ++ rows)
      by (rewrite <- app_assoc; reflexivity).
    apply IH.
    + apply setdefault_nodup. exact Hnd.
    + rewrite setdefault_permutation, map_app. cbn [map].
      apply Permutation_app_tail. exact Hperm.
    + intros k l x Hin Hx.
      destruct (setdefault_member _ _ _ _ _ _ Hin Hx) as [(l' & Hl' & Hx')|[-> ->]].
      * destruct (Hmem k l' x Hl' Hx') as (row & Hrow & E1 & E2).
        exists row. split; [apply in_or_app; left; exact Hrow | auto].
      * exists r. split; [apply in_or_app; right; left; reflexivity | auto].
Qed.

(** X15.  The categorize view only reads, and its buckets partition the
    invoices of the user: the keys are distinct, every invoice of the user
    is in the buckets once and nothing else is, and an invoice in the bucket
    of a key is an invoice of the user whose date gives that key. *)
Theorem categorize_partitions_own_invoices (u : Z) (period : option string)
    (st : database) :
  exists cat,
    serve (categorize u period) st = (st, JsonifyDict cat) /\
    NoDup (map fst cat) /\
    Permutation (List.concat (map snd cat))
      (map (invoice_with_names (stored st))
           (filter (fun r => user_id r =? u) (invoices (stored st)))) /\
    (forall k l x, In (k, l) cat -> In x l ->
       exists row, In row (invoices (stored st)) /\ user_id row = u /\
                   x = invoice_with_names (stored st) row /\
                   bucket_key (requested_period period) (creation_date row) = k).
Proof.
  exists (categorize_rows (requested_period period) (stored st)
            (filter (fun r => user_id r =? u) (invoices (stored st)))).
  split.
  - unfold serve, categorize, bind, read, ret. cbn [work get_db].
    rewrite close_get_db. reflexivity.
  - destruct (categorize_rows_partition (requested_period period) (stored st)
                (filter (fun r => user_id r =? u) (invoices (stored st))) [] [])
      as (H1 & H2 & H3).
    + constructor.
    + reflexivity.
    + intros k l x [].
    + cbn [app] in H2, H3. split; [exact H1|]. split; [exact H2|].
      intros k l x Hin Hx. destruct (H3 k l x Hin Hx) as (row & Hrow & E1 & E2).
      apply filter_In in Hrow. destruct Hrow as [Hrow Hu]. apply Z.eqb_eq in Hu.
      exists row. auto.
Qed.

(** ** Requests that do not succeed *)

(** X19.  A request changes the stored tables only when it succeeds: unless
    it is answered 201 with an invoice number (Create) or 200 with the bare
    success body (Replace, Delete), the tables are those of before, whatever
    went wrong and however far the request got. *)
Theorem failed_requests_change_nothing
    (order : list invoice_row -> list invoice_row) (rq : request) (st : database) :
  (forall number, snd (handle order rq st) <> Jsonify (created_body number) 201) ->
  snd (handle order rq st) <> Jsonify success_body 200 ->
  stored (fst (handle order rq st)) = stored st.
Proof.
  unfold handle. intros Hc Hs.
  destruct rq as [u|u data|u n data|u n|u p|u|u n]; cbn [view_of] in *.
  - rewrite serve_reads; [reflexivity | apply reads_list_invoices].
  - destruct (serve_guarded created _ st (guarded_create_invoice u data))
      as [[number K]|K]; [|exact K].
    exfalso. exact (Hc number K).
  - destruct (Z.ltb_spec n 0) as [Hn|Hn].
    + rewrite (serve_no_route n _ st Hn). reflexivity.
    + rewrite (routed_to n _ Hn) in *.
      destruct (serve_guarded succeeded _ st (guarded_modify_invoice u n data))
        as [K|K]; [|exact K].
      exfalso. exact (Hs K).
  - destruct (Z.ltb_spec n 0) as [Hn|Hn].
    + rewrite (serve_no_route n _ st Hn). reflexivity.
    + rewrite (routed_to n _ Hn) in *.
      destruct (serve_guarded succeeded _ st (guarded_delete_invoice u n))
        as [K|K]; [|exact K].
      exfalso. exact (Hs K).
  - rewrite serve_reads; [reflexivity | apply reads_categorize].
  - rewrite serve_reads; [reflexivity | apply reads_reset_invoice_number].
  - destruct (Z.ltb_spec n 0) as [Hn|Hn].
    + rewrite (serve_no_route n _ st Hn). reflexivity.
    + rewrite (routed_to n _ Hn).
      rewrite serve_reads; [reflexivity | apply reads_generate_pdf].
Qed.

End Coverage.

(* ================================================================== *)
(** * Properties of the accounts *)
(* ================================================================== *)

Section AccountProperties.
Context {FT : FloatType} {RT : Runtime}.
Variable strip : string -> string.
Variable generate_password_hash : string -> value -> py string.
Variable check_password_hash : string -> value -> py bool.



Lemma register_effect salt data a a' :
  Auth.register strip generate_password_hash salt data a =
    (a', Jsonify Auth.registered_body 201) ->
  exists name mail password n m hash h f c p,
    truthy data = true /\
    Auth.stripped strip data "username" = Return name /\
    Auth.stripped strip data "email" = Return mail /\
    py_get data "password" (JStr EmptyString) = Return password /\
    Auth.blank name = false /\ Auth.blank mail = false /\ truthy password = true /\
    Auth.text_param name = Return n /\
    Auth.text_param mail = Return m /\
    existsb (fun r => String.eqb (Auth.username r) n || String.eqb (Auth.email r) m)
            (Auth.users a) = false /\
    generate_password_hash salt password = Return hash /\
    Auth.text_param hash = Return h /\
    a' = {| Auth.users := Auth.users a ++
              [{| Auth.uid := Auth.users_id_seq a + 1; Auth.username := n;
                  Auth.email := m; Auth.password_hash := h; Auth.full_name := f;
                  Auth.company_name := c; Auth.phone_number := p |}];
            Auth.users_id_seq := Auth.users_id_seq a + 1 |}.
Proof.
  unfold Auth.register, Auth.register_try.
  destruct (truthy data) eqn:T; cbn [negb]; [|discriminate].
  destruct (Auth.stripped strip data "username") as [name|] eqn:E1; cbn [py_bind];
    [|discriminate].
  destruct (Auth.stripped strip data "email") as [mail|] eqn:E2; cbn [py_bind];
    [|discriminate].
  destruct (py_get data "password" (JStr EmptyString)) as [password|] eqn:E3;
    cbn [py_bind]; [|discriminate].
  destruct (Auth.stripped strip data "full_name") as [full|]; cbn [py_bind];
    [|discriminate].
  destruct (Auth.stripped strip data "company_name") as [company|]; cbn [py_bind];
    [|discriminate].
  destruct (Auth.stripped strip data "phone_number") as [phone|]; cbn [py_bind];
    [|discriminate].
  destruct (Auth.blank name) eqn:B1; cbn [orb]; [discriminate|].
  destruct (Auth.blank mail) eqn:B2; cbn [orb]; [discriminate|].
  destruct (truthy password) eqn:B3; cbn [negb]; [|discriminate].
  destruct (Auth.text_param name) as [n|] eqn:P1; cbn [py_bind]; [|discriminate].
  destruct (Auth.text_param mail) as [m|] eqn:P2; cbn [py_bind]; [|discriminate].
  destruct (existsb _ (Auth.users a)) eqn:Ex; [discriminate|].
  destruct (generate_password_hash salt password) as [hash|] eqn:G; cbn [py_bind];
    [|discriminate].
  destruct (Auth.text_param hash) as [h|] eqn:P3; cbn [py_bind]; [|discriminate].
  destruct (Auth.nullable_param full) as [f|]; cbn [py_bind]; [|discriminate].
  destruct (Auth.nullable_param company) as [c|]; cbn [py_bind]; [|discriminate].
  destruct (Auth.nullable_param phone) as [p|]; cbn [py_bind]; [|discriminate].
  intro H. injection H as <-.
  exists name, mail, password, n, m, hash, h, f, c, p.
  repeat split; assumption.
Qed.


Lemma existsb_or_false {A : Type} (p q : A -> bool) (l : list A) :
  existsb (fun r => p r || q r) l = false ->
  existsb p l = false /\ existsb q l = false.
Proof.
  induction l as [|x l IH]; cbn; [auto|].
  intro H. apply orb_false_iff in H. destruct H as [H1 H2].
  apply orb_false_iff in H1. destruct H1 as [-> ->]. cbn. auto.
Qed.


(** X17.  The body that registered logs in: when checking a stored hash
    against its password succeeds, a login with the body of a registration
    that answered 201 answers 200 and hands the user that the registration
    added to [login_user]. *)
Theorem registered_body_logs_in (salt : string) (data : value)
    (a a' : Auth.accounts) :
  Auth.hash_checks generate_password_hash check_password_hash ->
  Auth.register strip generate_password_hash salt data a =
    (a', Jsonify Auth.registered_body 201) ->
  exists row,
    Auth.users a' = Auth.users a ++ [row] /\
    Auth.login strip check_password_hash data a' =
      (Jsonify (Auth.logged_in_body row) 200, Some row).
Proof.
  intros Law H.
  destruct (register_effect salt data a a' H)
    as (name & mail & password & n & m & hash & h & f & c & p & T & E1 & _ & E3 & B1 & _
        & B3 & P1 & _ & Ex & G & P3 & ->).
  eexists. split; [reflexivity|].
  unfold Auth.login, Auth.login_try. rewrite T. cbn [negb].
  rewrite E1. cbn [py_bind]. rewrite E3. cbn [py_bind].
  rewrite B1, B3. cbn [orb negb]. rewrite P1. cbn [py_bind Auth.users].
  apply existsb_or_false in Ex. destruct Ex as [Ex1 _].
  rewrite (find_app_fresh _ _ _ Ex1); [|cbn; apply String.eqb_refl].
  cbn [Auth.password_hash]. rewrite (Law salt password hash h G P3).
  reflexivity.
Qed.

(** X18.  Nobody is logged in without the password: when a login hands a
    user to [login_user], that user is stored, its name is the stripped
    [username] of the body, and the check of its stored hash against the
    [password] of the body has succeeded; the answer is then 200, and every
    other answer logs nobody in. *)
Theorem login_needs_the_password (data : value) (a : Auth.accounts)
    (resp : response) (row : Auth.user_row) :
  Auth.login strip check_password_hash data a = (resp, Some row) ->
  In row (Auth.users a) /\
  resp = Jsonify (Auth.logged_in_body row) 200 /\
  exists name password,
    Auth.stripped strip data "username" = Return name /\
    Auth.text_param name = Return (Auth.username row) /\
    py_get data "password" (JStr EmptyString) = Return password /\
    check_password_hash (Auth.password_hash row) password = Return true.
Proof.
  unfold Auth.login, Auth.login_try.
  destruct (negb (truthy data)); [discriminate|].
  destruct (Auth.stripped strip data "username") as [name|] eqn:E1; cbn [py_bind];
    [|discriminate].
  destruct (py_get data "password" (JStr EmptyString)) as [password|] eqn:E2;
    cbn [py_bind]; [|discriminate].
  destruct (Auth.blank name || negb (truthy password)); [discriminate|].
  destruct (Auth.text_param name) as [n|] eqn:P; cbn [py_bind]; [|discriminate].
  destruct (find _ (Auth.users a)) as [r|] eqn:F; [|discriminate].
  destruct (check_password_hash (Auth.password_hash r) password) as [ok|] eqn:C;
    cbn [py_bind]; [|discriminate].
  destruct ok; cbn [negb]; [|discriminate].
  intro H. injection H as <- <-.
  apply find_some in F. destruct F as [Hin Heq]. apply String.eqb_eq in Heq.
  split; [exact Hin|]. split; [reflexivity|].
  exists name, password. subst n. auto.
Qed.

End AccountProperties.

(* ================================================================== *)
(** * When Create and Replace succeed *)
(* ================================================================== *)

Section Acceptance.
Context {FT : FloatType} {RT : Runtime}.

Notation "x <- m ;; k" := (bind m (fun x => k))
  (at level 61, m at next level, right associativity).
Notation "m ;;; k" := (bind m (fun _ => k))
  (at level 61, right associativity).

Lemma insert_item_succeeds cid desc qty price c :
  pg_text desc <> None -> pg_integer (JInt qty) <> None -> pg_real price <> None ->
  exists c', insert_item cid desc qty price c = (Return tt, c').
Proof.
  intros H1 H2 H3. unfold insert_item, bind, adapt.
  destruct (pg_text desc); [|contradiction].
  destruct (pg_integer (JInt qty)); [|contradiction].
  destruct (pg_real price); [|contradiction].
  eexists. reflexivity.
Qed.

Lemma add_item_succeeds cid it c :
  ~ item_fails it -> exists c', add_item cid it c = (Return tt, c').
Proof.
  unfold item_fails, add_item. intro H.
  destruct (item_params it) as [[[desc qty] price]|e]; [|exfalso; exact (H I)].
  unfold bind, lift. apply insert_item_succeeds; intro K; apply H; auto.
Qed.

Lemma for_each_succeeds {A : Type} (body : A -> tx unit) (l : list A) :
  (forall x, In x l -> forall c, exists c', body x c = (Return tt, c')) ->
  forall c, exists c', for_each l body c = (Return tt, c').
Proof.
  induction l as [|x l IH]; intros H c; cbn [for_each].
  - unfold ret. eauto.
  - destruct (H x (or_introl eq_refl) c) as (c1 & E1).
    unfold bind. rewrite E1. apply IH. intros y Hy. apply H. right. exact Hy.
Qed.

Lemma insert_customer_succeeds inv name address email c :
  pg_text name <> None -> pg_text address <> None -> pg_text email <> None ->
  exists cid c', insert_customer inv name address email c = (Return cid, c').
Proof.
  intros H1 H2 H3. unfold insert_customer, bind, adapt.
  destruct (pg_text name); [|contradiction].
  destruct (pg_text address); [|contradiction].
  destruct (pg_text email); [|contradiction].
  do 2 eexists. reflexivity.
Qed.

Lemma add_customer_succeeds inv cu c :
  ~ customer_fails cu -> exists c', add_customer inv cu c = (Return tt, c').
Proof.
  unfold customer_fails, add_customer. intro H.
  destruct (customer_params cu) as [[[name address] email]|e]; [|exfalso; exact (H I)].
  unfold bind at 1. unfold lift at 1.
  destruct (insert_customer_succeeds inv name address email c) as (cid & c1 & E1);
    try (intro K; apply H; auto).
  unfold bind at 1. rewrite E1.
  destruct (items_of cu) as [its|e]; [|exfalso; apply H; auto].
  unfold bind at 1. unfold lift at 1.
  apply for_each_succeeds. intros it Hit c0. apply add_item_succeeds.
  intro K. apply H. right. right. right. exists it. auto.
Qed.

Lemma add_customers_succeeds inv data c :
  customers_accepted data -> exists c', add_customers inv data c = (Return tt, c').
Proof.
  intros (cs & Ecs & H). unfold add_customers, bind, lift. rewrite Ecs.
  apply for_each_succeeds. intros cu Hcu c0. apply add_customer_succeeds. auto.
Qed.

Lemma no_invoice_no_duplicate tb u n :
  ~ has_invoice tb u n <-> existsb (owned_by u n) (invoices tb) = false.
Proof.
  split.
  - intro H. destruct (existsb (owned_by u n) (invoices tb)) eqn:E; [|reflexivity].
    exfalso. apply H. apply existsb_exists in E. destruct E as (r & Hr & Ho).
    apply owned_by_spec in Ho. exists r. tauto.
  - intros E H. apply existsb_owned in H. congruence.
Qed.

Lemma insert_invoice_succeeds number cdate cname caddr cemail total u c n :
  pg_integer number = Some n ->
  pg_text cdate <> None -> pg_text cname <> None -> pg_text caddr <> None ->
  pg_text cemail <> None -> pg_real total <> None ->
  existsb (owned_by u n) (invoices (work c)) = false ->
  exists id c', insert_invoice number cdate cname caddr cemail total u c = (Return id, c').
Proof.
  intros Hn H1 H2 H3 H4 H5 Hdup. unfold insert_invoice, bind, adapt. rewrite Hn.
  destruct (pg_text cdate); [|contradiction].
  destruct (pg_text cname); [|contradiction].
  destruct (pg_text caddr); [|contradiction].
  destruct (pg_text cemail); [|contradiction].
  destruct (pg_real total); [|contradiction].
  unfold ret, nextval_invoices, read. cbv beta iota zeta. cbn [work].
  rewrite Hdup. do 2 eexists. reflexivity.
Qed.

Lemma blocks_accepted inv data bs : blocks_of inv data bs -> customers_accepted data.
Proof.
  intros (cs & Ecs & Hbs). exists cs. split; [exact Ecs|].
  intros cu Hcu. destruct (forall2_in_left _ _ _ cu Hbs Hcu)
    as (b & _ & (_ & name & address & email & Ep & Hn & Ha & He) & its & Eits & Hrows).
  unfold customer_fails. rewrite Ep, Eits.
  intros [K|[K|[K|(it & Hit & K)]]]; try congruence.
  destruct (forall2_in_left _ _ _ it Hrows Hit)
    as (row & _ & (desc & qty & price & Ei & Hd & Hq & Hp) & _).
  unfold item_fails in K. rewrite Ei in K. destruct K as [K|[K|K]]; congruence.
Qed.

Lemma header_of_storable data total row :
  header_of data total row ->
  exists cdate cname caddr cemail,
    py_get data "creation_date" JNull = Return cdate /\
    py_get data "company_name" JNull = Return cname /\
    py_get data "company_address" JNull = Return caddr /\
    py_get data "company_email" JNull = Return cemail /\
    pg_text cdate <> None /\ pg_text cname <> None /\ pg_text caddr <> None /\
    pg_text cemail <> None /\ pg_real total <> None.
Proof.
  intros (cdate & cname & caddr & cemail & G1 & G2 & G3 & G4 & P1 & P2 & P3 & P4 & P5).
  exists cdate, cname, caddr, cemail. repeat split; congruence.
Qed.

(** X20.  Create answers 201 with the number [number] exactly when the body
    is truthy, [number] is the number obtained for it (the supplied one, or
    the next one of the user), the total parses, the header fields are
    taken by their columns, the user has no invoice with that number yet,
    and every customer entry with its items can be stored. *)
Theorem create_succeeds_exactly_when (u : Z) (data number : value) (st : database) :
  (exists st', serve (create_invoice u data) st = (st', Jsonify (created_body number) 201))
  <-> creatable u data number st.
Proof.
  split.
  - intros (st' & H).
    assert (T : truthy data = true).
    { destruct (truthy data) eqn:T; [reflexivity|].
      rewrite (create_needs_an_object u data st (or_introl T)) in H.
      rewrite T in H. discriminate H. }
    destruct (serve_created _ _ _ _ H) as (c & Hc & _).
    destruct (create_invoice_created u data (get_db st) number c Hc)
      as (? & ? & ? & ? & ? & ? & ? & ? & Hnum & _).
    destruct (serve_create_effect u data st st' number H)
      as (total & row & bs & c2 & H1 & H2 & _ & H4 & _ & H6 & H7 & _).
    split; [exact T|]. split; [exact Hnum|]. split.
    + exists total, row. repeat split; try assumption.
      apply no_invoice_no_duplicate. exact H6.
    + exact (blocks_accepted _ _ _ H7).
  - intros (T & Hnum & (total & row & Ht & Hh & Hn & Hfree) & Hacc).
    destruct (header_of_storable _ _ _ Hh)
      as (cdate & cname & caddr & cemail & G1 & G2 & G3 & G4 & P1 & P2 & P3 & P4 & P5).
    apply no_invoice_no_duplicate in Hfree.
    destruct (insert_invoice_succeeds number cdate cname caddr cemail total u (get_db st)
                (invoice_number row) Hn P1 P2 P3 P4 P5 Hfree) as (id & c1 & E1).
    destruct (add_customers_succeeds id data c1 Hacc) as (c2 & E2).
    eexists. unfold serve, create_invoice, try_except, create_invoice_try.
    rewrite T. cbn [negb].
    unfold bind at 1. rewrite Hnum.
    unfold bind at 1. unfold lift at 1. rewrite Ht.
    unfold bind at 1. unfold lift at 1. rewrite G1.
    unfold bind at 1. unfold lift at 1. rewrite G2.
    unfold bind at 1. unfold lift at 1. rewrite G3.
    unfold bind at 1. unfold lift at 1. rewrite G4.
    unfold bind at 1. rewrite E1.
    unfold bind at 1. rewrite E2.
    unfold bind, commit, ret. reflexivity.
Qed.

(** X21.  Replace answers 200 with the success body exactly when the body is
    truthy, the user has an invoice with the number of the route, the total
    converts with [float], the header fields are taken by their columns and
    every customer entry with its items can be stored. *)
Theorem replace_succeeds_exactly_when (u n : Z) (data : value) (st : database) :
  (exists st', serve (modify_invoice u n data) st = (st', Jsonify success_body 200))
  <-> replaceable u n data st.
Proof.
  split.
  - intros (st' & H).
    destruct (serve_modify_effect u n data st st' H) as (r & c & F & Hr & _).
    assert (T : truthy data = true).
    { destruct (truthy data) eqn:T; [reflexivity|].
      apply serve_returned in H; [|discriminate]. destruct H as (c0 & H & _).
      unfold modify_invoice in H. rewrite T in H. discriminate H. }
    apply replace_invoice_effect in Hr.
    destruct Hr as (cdate & cname & caddr & cemail & total & d & cn & ca & ce & t & bs & c2
                    & G1 & G2 & G3 & G4 & G5 & P1 & P2 & P3 & P4 & P5 & Hbs & _).
    split; [exact T|]. split.
    { apply find_owned_some in F. destruct F as (Hin & Hu & Hn). exists r. auto. }
    split.
    + exists total, (with_header d cn ca ce t r).
      split; [exact G5|]. exists cdate, cname, caddr, cemail. cbn. repeat split; assumption.
    + exact (blocks_accepted _ _ _ Hbs).
  - intros (T & Hhas & (total & row & Ht & Hh) & Hacc).
    destruct (has_invoice_find _ _ _ Hhas) as (r & F).
    destruct (header_of_storable _ _ _ Hh)
      as (cdate & cname & caddr & cemail & G1 & G2 & G3 & G4 & P1 & P2 & P3 & P4 & P5).
    assert (K : snd (serve (modify_invoice u n data) st) = Jsonify success_body 200);
      [|exists (fst (serve (modify_invoice u n data) st));
        destruct (serve (modify_invoice u n data) st); cbn [snd] in K; subst;
        reflexivity].
    unfold serve, modify_invoice. rewrite T. cbn [negb].
    unfold bind at 1. unfold select_invoice, read. cbn [work get_db]. rewrite F.
    unfold replace_invoice.
    unfold bind at 1. unfold lift at 1. rewrite G1.
    unfold bind at 1. unfold lift at 1. rewrite G2.
    unfold bind at 1. unfold lift at 1. rewrite G3.
    unfold bind at 1. unfold lift at 1. rewrite G4.
    unfold bind at 1. unfold lift at 1. rewrite Ht.
    unfold bind at 1. unfold update_invoice, bind, adapt.
    destruct (pg_text cdate) as [d|]; [|contradiction].
    destruct (pg_text cname) as [cn|]; [|contradiction].
    destruct (pg_text caddr) as [ca|]; [|contradiction].
    destruct (pg_text cemail) as [ce|]; [|contradiction].
    destruct (pg_real total) as [t|]; [|contradiction].
    cbn [ret write]. unfold select_customers, read.
    rewrite delete_items_loop. unfold delete_customers, write.
    match goal with
    | |- context [add_customers ?id data ?k] =>
        destruct (add_customers_succeeds id data k Hacc) as (c2 & E2); rewrite E2
    end.
    unfold commit, ret. reflexivity.
Qed.

End Acceptance.

(* ================================================================== *)
(** * The theorems at concrete requests *)
(* ================================================================== *)

Import Demo.
Import Sample.
Local Open Scope string_scope.

Lemma acme_created :
  serve (create_invoice alice acme_request) empty_db =
  (acme_db, Jsonify (created_body (JInt 1000)) 201).
Proof. vm_compute. reflexivity. Qed.

Lemma acme_aggregate :
  aggregate (stored acme_db) (inv_id acme_row) = [(acme_customer, [widget_item; long_item])].
Proof. vm_compute. reflexivity. Qed.

Lemma acme_stored : stored acme_db = acme_tables.
Proof. vm_compute. reflexivity. Qed.

Lemma acme_has_1000 : has_invoice (stored acme_db) alice 1000.
Proof.
  rewrite acme_stored. exists acme_row.
  split; [left; reflexivity|]. split; reflexivity.
Qed.

Lemma acme_drawable :
  forall cust its, In (cust, its) (aggregate (stored acme_db) (inv_id acme_row)) ->
                   drawable its.
Proof.
  intros cust its H. rewrite acme_aggregate in H.
  destruct H as [H|[]]. injection H as _ <-.
  intros i [<-|[<-|[]]]; split; discriminate.
Qed.



Lemma bad_quantity_fails : has_failing_entry bad_quantity_request.
Proof.
  eapply failing_item_entry;
    [reflexivity | left; reflexivity | reflexivity | left; reflexivity | ].
  apply (unparsed_quantity_fails _ (JStr "three") ValueError); reflexivity.
Qed.

Lemma failing_entry_witness :
  has_failing_entry bad_quantity_request /\
  (snd (serve (create_invoice alice bad_quantity_request) acme_db) = create_failed /\
   stored (fst (serve (create_invoice alice bad_quantity_request) acme_db))
     = stored acme_db) /\
  ((snd (serve (modify_invoice alice 1000 bad_quantity_request) acme_db) = not_found \/
    snd (serve (modify_invoice alice 1000 bad_quantity_request) acme_db) = unexpected) /\
   stored (fst (serve (modify_invoice alice 1000 bad_quantity_request) acme_db))
     = stored acme_db).
Proof.
  split; [exact bad_quantity_fails|].
  apply (failing_entry_persists_nothing alice 1000 bad_quantity_request acme_db).
  exact bad_quantity_fails.
Defined.





Lemma duplicate_number_witness :
  has_invoice (stored acme_db) alice 1000 /\
  snd (serve (create_invoice alice (numbered 1000)) acme_db) = create_failed /\
  stored (fst (serve (create_invoice alice (numbered 1000)) acme_db)) = stored acme_db.
Proof.
  split; [exact acme_has_1000|].
  destruct (duplicate_number_is_rejected alice 1000 [("invoice_number", JInt 1000)] acme_db)
    as (Hr & Hs & _);
    [exact acme_has_1000 | discriminate | reflexivity | reflexivity | ].
  split; assumption.
Defined.

Lemma zero_numbers : numbers_of (stored zero_db) alice = [-1; 0].
Proof. vm_compute. reflexivity. Qed.

Lemma zero_stored : stored zero_db = zero_tables.
Proof. vm_compute. reflexivity. Qed.

Lemma zero_has_0 : has_invoice (stored zero_db) alice 0.
Proof.
  rewrite zero_stored. exists (blank_row 2 0).
  split; [right; left; reflexivity|]. split; reflexivity.
Qed.

(** C4 as stated fails at the number 0: Alice has the invoice 0, and her
    Create that supplies 0 succeeds, with the number 1000. *)
Lemma zero_is_not_a_duplicate :
  has_invoice (stored zero_db) alice 0 /\
  snd (serve (create_invoice alice (numbered 0)) zero_db)
    = Jsonify (created_body (JInt 1000)) 201.
Proof. split; [exact zero_has_0|]. vm_compute. reflexivity. Qed.

Lemma zero_is_max : is_max 0 (numbers_of (stored zero_db) alice).
Proof.
  rewrite zero_numbers. split; [right; left; reflexivity|].
  intros x [<-|[<-|[]]]; lia.
Qed.

(** C5 as stated fails when the largest number is 0: the next number is
    1000, not 1. *)
Lemma max_zero_restarts_at_1000 :
  is_max 0 (numbers_of (stored zero_db) alice) /\
  next_invoice_number alice (get_db zero_db) = (Return 1000, get_db zero_db) /\
  1000 <> 0 + 1.
Proof.
  split; [exact zero_is_max|]. split; [|discriminate].
  vm_compute. reflexivity.
Qed.

Lemma fifty_numbers : numbers_of (stored fifty_db) alice = [1000; 1050].
Proof. vm_compute. reflexivity. Qed.

Lemma numbering_policy_witness :
  next_invoice_number alice (get_db empty_db) = (Return 1000, get_db empty_db) /\
  next_invoice_number alice (get_db fifty_db) = (Return 1051, get_db fifty_db) /\
  invoice_number_for alice acme_request (get_db fifty_db)
    = (Return (JInt 1051), get_db fifty_db).
Proof.
  destruct (numbering_policy alice empty_db) as (H0 & _).
  destruct (numbering_policy alice fifty_db) as (_ & Hmax & _ & Hfor & _).
  assert (M : is_max 1050 (numbers_of (stored fifty_db) alice)).
  { rewrite fifty_numbers. split; [right; left; reflexivity|].
    intros x [<-|[<-|[]]]; lia. }
  assert (E : next_invoice_number alice (get_db fifty_db)
              = (Return 1051, get_db fifty_db)).
  { apply (Hmax 1050 M). discriminate. }
  split; [apply H0; reflexivity|]. split; [exact E|].
  destruct (Hfor [("creation_date", JStr "2024-01-05");
                  ("company_name", JStr "Acme");
                  ("total_amount", jfloat "99.5");
                  ("customers",
                   JArr [JObj [("name", JStr "Globex");
                     ("items",
                      JArr [JObj [("description", JStr "Widget");
                                  ("unit_price", jfloat "12.5")];
                            JObj [("description", JStr long_description);
                                  ("quantity", JInt 2);
                                  ("unit_price", JInt 10)]])]])] eq_refl)
    as (k & Ek & Ef).
  rewrite E in Ek.
  assert (K : @Return Z 1051 = Return k) by exact (f_equal fst Ek).
  injection K as <-. exact Ef.
Defined.

Lemma three_first : hd_error (invoices (stored three_db)) = Some january_row.
Proof. vm_compute. reflexivity. Qed.

Lemma hd_error_in {A : Type} (l : list A) (x : A) : hd_error l = Some x -> In x l.
Proof. destruct l as [|y l]; simpl; intro H; [discriminate H|injection H as ->; auto]. Qed.

Lemma january_key :
  bucket_key (requested_period None) (creation_date january_row) = Some "2024-01".
Proof. vm_compute. reflexivity. Qed.

Lemma categorize_witness :
  exists categorized b,
    serve (categorize alice None) three_db = (three_db, JsonifyDict categorized) /\
    bucket (Some "2024-01") categorized = Some b /\
    In (invoice_with_names (stored three_db) january_row) b.
Proof.
  destruct (categorize_bucket_keys alice None three_db) as ((cat & Hs & Hrows) & _).
  destruct (Hrows january_row (hd_error_in _ _ three_first) eq_refl) as (b & Hb & Hin).
  rewrite january_key in Hb. exists cat, b. auto.
Defined.

(** Invoices dated 2024-01-05, 2024-01-20 and 2024-02-01, by month. *)
Lemma three_invoices_two_buckets :
  match snd (serve (categorize alice None) three_db) with
  | JsonifyDict d =>
      map (fun p => (fst p, List.length (snd p))) d
      = [(Some "2024-01", 2%nat); (Some "2024-02", 1%nat)]
  | _ => False
  end.
Proof. vm_compute. reflexivity. Qed.

(** C6 as stated fails for a year below 1000: the date parses, and the keys
    have a year of three digits, for every period. *)
Lemma year_key_below_1000 :
  strptime (Some "0999-01-05") = Return {| year := 999; month := 1; day := 5 |} /\
  bucket_key "year" (Some "0999-01-05") = Some "999" /\
  bucket_key "month" (Some "0999-01-05") = Some "999-01" /\
  bucket_key "day" (Some "0999-01-05") = Some "999-01-05".
Proof. vm_compute. repeat split; reflexivity. Qed.

Lemma acme_found :
  find (owned_by alice 1000) (invoices (stored acme_db)) = Some acme_row.
Proof. rewrite acme_stored. reflexivity. Qed.

Lemma acme_total_text : ("$" ++ format_2f (total_amount acme_row)) = "$99.50".
Proof. vm_compute. reflexivity. Qed.

(** The lines of the only customer add up to 32.50. *)
Lemma acme_subtotal :
  match render_table [widget_item; long_item] with
  | Return calls => In (cell 30 6 (Some "$32.50") 0 1 "R" false) calls
  | Raise _ => False
  end.
Proof. vm_compute. do 19 right. left. reflexivity. Qed.

Lemma acme_company : company_name acme_row = Some "Acme".
Proof. reflexivity. Qed.

Lemma grand_total_witness :
  (exists header body,
     render_header acme_row = Return header /\
     render_customers (aggregate (stored acme_db) (inv_id acme_row)) = Return body /\
     serve (routed 1000 (generate_pdf alice 1000)) acme_db =
       (acme_db, SendFile (header ++ body ++
                           [ln 5;
                            set_fill_color 51 51 153;
                            set_text_color 255 255 255;
                            set_font "Arial" "B" 14;
                            cell 140 10 (Some "TOTAL AMOUNT:") 0 0 "R" true;
                            cell 30 10 (Some "$99.50") 0 1 "R" true]
                           ++ render_footer)
                          "invoice_1000.pdf")) /\
  two_decimals "99.50".
Proof.
  assert (Hn : 0 <= 1000) by lia.
  destruct (grand_total_is_stored_total alice 1000 acme_db acme_row "Acme"
              Hn acme_found acme_company acme_drawable)
    as ((header & body & Hh & Hb & H) & Ht).
  split.
  - exists header, body. rewrite acme_total_text in H. auto.
  - exact Ht.
Defined.

(** C7 as stated fails: [float] parses the text nan, Create stores the
    total, and the grand-total band of the PDF then shows nan behind the
    dollar sign, a text with no decimal places. *)
Lemma nan_total_has_no_decimals :
  serve (create_invoice alice nan_request) empty_db =
    (nan_db, Jsonify (created_body (JInt 1000)) 201) /\
  (exists calls,
     serve (routed 1000 (generate_pdf alice 1000)) nan_db =
       (nan_db, SendFile calls "invoice_1000.pdf") /\
     In (cell 30 10 (Some "$nan") 0 1 "R" true) calls) /\
  ~ two_decimals "nan".
Proof.
  split; [vm_compute; reflexivity|]. split.
  - eexists. split; [vm_compute; reflexivity|].
    do 23 right. left. reflexivity.
  - intros (sign & whole & a & b & Hs & _ & _ & _ & E).
    assert (L : forall x y, String.length (x ++ y) =
                            (String.length x + String.length y)%nat).
    { intros x y. induction x as [|c x IH]; simpl; [reflexivity|rewrite IH; reflexivity]. }
    destruct Hs as [-> | ->]; [|discriminate E].
    pose proof (f_equal String.length E) as N. rewrite !L in N.
    cbn [String.length] in N.
    destruct (str_of_int whole) as [|c rest];
      [discriminate E | cbn [String.length] in N; lia].
Qed.

Lemma long_display :
  display_description long_description = "Annual maintenance contract for the packag...".
Proof. vm_compute. reflexivity. Qed.

Lemma description_witness :
  String.length long_description = 50%nat /\
  display_description long_description
    = (substring 0 42 long_description ++ "...") /\
  exists calls name,
    serve (generate_pdf alice 1000) acme_db = (acme_db, SendFile calls name) /\
    In (cell 90 6 (Some "Annual maintenance contract for the packag...") 1 0 "L" true)
       calls.
Proof.
  destruct (description_is_truncated_for_display long_description)
    as (_ & Hlong & Hcell & _).
  assert (L : String.length long_description = 50%nat) by reflexivity.
  split; [exact L|]. split.
  - apply Hlong. rewrite L. lia.
  - rewrite <- long_display.
    refine (proj1 (proj2 (Hcell alice 1000 acme_db acme_row acme_customer long_item
                            acme_found acme_drawable _ _ _ _ _)) "Acme" eq_refl).
    + rewrite acme_stored. left. reflexivity.
    + reflexivity.
    + rewrite acme_stored. right. left. reflexivity.
    + reflexivity.
    + reflexivity.
Defined.



Lemma acme_next :
  next_invoice_number alice (get_db acme_db) = (Return 1001, get_db acme_db).
Proof. vm_compute. reflexivity. Qed.

Lemma falsy_number_witness :
  truthy (JInt 0 : body) = false /\
  invoice_number_for alice (numbered 0) (get_db acme_db)
    = (Return (JInt 1001), get_db acme_db).
Proof.
  split; [reflexivity|].
  destruct (falsy_number_is_absent alice [("invoice_number", JInt 0)] (JInt 0) acme_db
              eq_refl eq_refl) as (k & Ek & Ef & _).
  rewrite acme_next in Ek.
  assert (K : @Return Z 1001 = Return k) by exact (f_equal fst Ek).
  injection K as <-. exact Ef.
Defined.

(** C10 as stated fails when the largest number is -1: Alice's Create that
    supplies 0 is numbered by the policy, and the number is 0. *)
Lemma zero_number_after_minus_one :
  numbers_of (stored minus_db) alice = [-1] /\
  serve (create_invoice alice (numbered 0)) minus_db
    = (zero_db, Jsonify (created_body (JInt 0)) 201) /\
  has_invoice (stored zero_db) alice 0.
Proof.
  split; [vm_compute; reflexivity|]. split; [vm_compute; reflexivity|exact zero_has_0].
Qed.

(** ** The properties of the store on concrete requests *)

Lemma empty_consistent : consistent empty_db.
Proof. exact init_db_consistent. Qed.

Lemma acme_consistent : consistent acme_db.
Proof. exact (create_invoice_consistent alice acme_request empty_db empty_consistent). Qed.

Lemma second_created :
  serve (create_invoice alice acme_request) acme_db =
  (second_db, Jsonify (created_body (JInt 1001)) 201).
Proof. vm_compute. reflexivity. Qed.

Lemma replaced :
  serve (modify_invoice alice 1000 (dated "2024-02-01")) acme_db =
  (replaced_db, Jsonify success_body 200).
Proof. vm_compute. reflexivity. Qed.

Lemma nameless_created :
  serve (create_invoice alice nameless_request) empty_db =
  (nameless_db, Jsonify (created_body (JInt 1000)) 201).
Proof. vm_compute. reflexivity. Qed.

Lemma acme_row_stored : In acme_row (invoices (stored acme_db)).
Proof. rewrite acme_stored. left. reflexivity. Qed.

(** The three invoices of Alice, listed latest first. *)
Lemma list_invoices_witness :
  exists listed,
    serve (list_invoices (@rev invoice_row) alice) three_db =
      (three_db, Jsonify (JArr listed) 200) /\
    Permutation listed
      (map (fun r => invoice_dict r (aggregate (stored three_db) (inv_id r)))
           (filter (fun r => (user_id r =? alice)%Z) (invoices (stored three_db)))).
Proof.
  apply (list_invoices_lists_own_invoices (@rev invoice_row) alice three_db).
  intro l. apply Permutation_sym. apply Permutation_rev.
Defined.

(** Alice has the invoice 1000; her next Create without a number gets 1001. *)
Lemma reset_witness :
  exists mx,
    serve (reset_invoice_number alice) acme_db =
      (acme_db, Jsonify (JObj [("success", JBool true);
                               ("lastInvoiceNumber", JInt mx)]) 200) /\
    (JInt 1001 : body) = JInt (mx + 1).
Proof.
  apply (reset_reports_the_last_number alice acme_db second_db acme_request JNull
           (JInt 1001)); [reflexivity | reflexivity | exact second_created].
Defined.

Lemma well_formed_witness :
  consistent acme_db /\
  consistent (fst (handle (@rev invoice_row) (DeleteInvoice alice 1000) acme_db)).
Proof.
  split; [exact acme_consistent|].
  apply (requests_keep_tables_well_formed (@rev invoice_row) (DeleteInvoice alice 1000)
           acme_db acme_consistent).
Defined.

Lemma create_appends_witness :
  exists total row bs,
    parse_total_amount acme_request = Return total /\
    header_of acme_request total row /\
    user_id row = alice /\
    pg_integer (JInt 1000) = Some (invoice_number row) /\
    blocks_of (inv_id row) acme_request bs /\
    invoices (stored acme_db) = (invoices (stored empty_db) ++ [row])%list /\
    customers (stored acme_db) = (customers (stored empty_db) ++ map fst bs)%list /\
    items (stored acme_db) = (items (stored empty_db) ++ List.concat (map snd bs))%list.
Proof.
  exact (create_appends_the_request alice acme_request (JInt 1000) empty_db acme_db
           acme_created).
Defined.

Lemma create_then_fetch_witness :
  exists total row bs,
    parse_total_amount acme_request = Return total /\
    header_of acme_request total row /\
    pg_integer (JInt 1000) = Some (invoice_number row) /\
    blocks_of (inv_id row) acme_request bs /\
    find (owned_by alice (invoice_number row)) (invoices (stored acme_db)) = Some row /\
    aggregate (stored acme_db) (inv_id row) = bs.
Proof.
  exact (create_then_fetch alice acme_request (JInt 1000) empty_db acme_db
           empty_consistent acme_created).
Defined.

Lemma replace_then_fetch_witness :
  exists r row total bs,
    find (owned_by alice 1000) (invoices (stored acme_db)) = Some r /\
    find (owned_by alice 1000) (invoices (stored replaced_db)) = Some row /\
    inv_id row = inv_id r /\
    py_bind (py_get (dated "2024-02-01") "total_amount" (JInt 0)) py_float = Return total /\
    header_of (dated "2024-02-01") total row /\
    blocks_of (inv_id r) (dated "2024-02-01") bs /\
    aggregate (stored replaced_db) (inv_id r) = bs /\
    map inv_id (invoices (stored replaced_db)) = map inv_id (invoices (stored acme_db)).
Proof.
  exact (replace_then_fetch alice 1000 (dated "2024-02-01") acme_db replaced_db
           acme_consistent replaced).
Defined.

(** Bob's Delete of the number 1000 leaves Alice's invoice 1000 alone. *)
Lemma other_invoices_witness :
  In acme_row (invoices (stored (fst (handle (@rev invoice_row)
                                        (DeleteInvoice bob 1000) acme_db)))) /\
  aggregate (stored (fst (handle (@rev invoice_row) (DeleteInvoice bob 1000) acme_db)))
            (inv_id acme_row) =
  aggregate (stored acme_db) (inv_id acme_row).
Proof.
  apply (other_invoices_are_untouched (@rev invoice_row) (DeleteInvoice bob 1000)
           acme_db acme_row acme_consistent acme_row_stored).
  intros [H _]. vm_compute in H. discriminate H.
Defined.

Lemma delete_witness :
  exists r st',
    find (owned_by alice 1000) (invoices (stored acme_db)) = Some r /\
    st' = {| stored := without_invoice (inv_id r) (stored acme_db);
             seqs := seqs acme_db |} /\
    serve (routed 1000 (delete_invoice alice 1000)) acme_db
      = (st', Jsonify success_body 200) /\
    ~ has_invoice (stored st') alice 1000 /\
    aggregate (stored st') (inv_id r) = [] /\
    serve (routed 1000 (delete_invoice alice 1000)) st' = (st', not_found).
Proof.
  apply (delete_removes_the_invoice alice 1000 acme_db acme_consistent acme_has_1000).
  lia.
Defined.

Lemma create_then_delete_witness :
  serve (routed 1000 (delete_invoice alice 1000)) acme_db =
  ({| stored := stored empty_db; seqs := seqs acme_db |}, Jsonify success_body 200).
Proof.
  apply (create_then_delete_restores alice 1000 acme_request (JInt 1000) empty_db acme_db
           empty_consistent acme_created).
  reflexivity.
Defined.


Lemma nameless_witness :
  serve (routed 1000 (generate_pdf alice 1000)) nameless_db = (nameless_db, unexpected).
Proof.
  apply (item_without_description_breaks_the_pdf alice 1000 nameless_request (JInt 1000)
           empty_db nameless_db [nameless_customer] [nameless_item]
           nameless_customer nameless_item);
    [ exact empty_consistent | reflexivity | exact nameless_created | reflexivity
    | reflexivity | left; reflexivity | reflexivity | left; reflexivity | reflexivity ].
Defined.

Lemma duplicate_changes_nothing_witness :
  stored (fst (handle (@rev invoice_row) (CreateInvoice alice (numbered 1000)) acme_db)) =
  stored acme_db.
Proof.
  apply (failed_requests_change_nothing (@rev invoice_row)
           (CreateInvoice alice (numbered 1000)) acme_db).
  - intros number H. vm_compute in H. discriminate H.
  - intro H. vm_compute in H. discriminate H.
Defined.

Lemma not_an_object_witness :
  serve (create_invoice alice (JArr [JInt 1])) acme_db = (acme_db, create_failed).
Proof.
  apply (create_needs_an_object alice (JArr [JInt 1]) acme_db).
  right. intros kv H. discriminate H.
Defined.

(** ** The properties of the accounts on a concrete registration *)

Lemma plain_hash_checks : Auth.hash_checks plain_hash plain_check.
Proof.
  intros salt password hash h G P.
  destruct password; try discriminate G. cbn in G. injection G as <-.
  unfold Auth.text_param in P. cbn in P.
  match type of P with
  | context [if ?b then _ else _] => destruct b
  end; [discriminate P|]. injection P as <-.
  cbn. rewrite String.eqb_refl. reflexivity.
Qed.


Lemma carol_registered :
  Auth.register strip plain_hash "NaCl" carol_request no_accounts =
  (carol_accounts, Jsonify Auth.registered_body 201).
Proof. vm_compute. reflexivity. Qed.

Lemma carol_logs_in :
  Auth.login strip plain_check carol_request carol_accounts =
  (Jsonify (Auth.logged_in_body carol_row) 200, Some carol_row).
Proof. vm_compute. reflexivity. Qed.


Lemma registered_body_witness :
  exists row,
    Auth.users carol_accounts = (Auth.users no_accounts ++ [row])%list /\
    Auth.login strip plain_check carol_request carol_accounts =
      (Jsonify (Auth.logged_in_body row) 200, Some row).
Proof.
  exact (registered_body_logs_in strip plain_hash plain_check "NaCl" carol_request
           no_accounts carol_accounts plain_hash_checks carol_registered).
Defined.

Lemma login_witness :
  In carol_row (Auth.users carol_accounts) /\
  Jsonify (Auth.logged_in_body carol_row) 200 = Jsonify (Auth.logged_in_body carol_row) 200 /\
  exists name password,
    Auth.stripped strip carol_request "username" = Return name /\
    Auth.text_param name = Return (Auth.username carol_row) /\
    py_get carol_request "password" (JStr EmptyString) = Return password /\
    plain_check (Auth.password_hash carol_row) password = Return true.
Proof.
  exact (login_needs_the_password strip plain_check carol_request carol_accounts
           (Jsonify (Auth.logged_in_body carol_row) 200) carol_row carol_logs_in).
Defined.
